(** * The Ralph loop runner: a shallow embedding of [RalphLoopRunner]

    Source: [src/ralph_gui.py], class [RalphLoopRunner] (lines 692-1155).

    The runner re-invokes an external agent in a working directory and reads
    the agent's progress from sentinel files.  The embedding keeps

    - the runner object as a record of its attributes ([Runner]);
    - the working directory as a finite map from file names to contents, the
      process table, a clock and two ghost logs (invocations started, waits
      entered) as the [World];
    - the loop thread as a computation in a small state-and-exception monad
      [M] that consumes a trace of polling intervals: every [time.sleep] of
      the source takes the next interval of the trace and applies what the
      operator thread, the agent and the operating system did during it.  A
      trace that ends while the thread sleeps leaves the thread [Parked] in the
      state it was blocked in.

    Interleaving is at the granularity of the sleeps, which are the points
    where the source polls its flags. *)

From stdpp Require Import gmap strings list pretty sorting.
From Stdlib Require Import ZArith.

Local Open Scope Z_scope.

(** ** Sentinel file names (class constants, lines 700-707) *)

Definition PIN_SPEC : string := "RALPH-DESIGN.md".
Definition PIN_LOOKUP : string := "RALPH-SPECS.md".
Definition PLAN_FILE : string := "RALPH-PLAN.md".
Definition PROGRESS_FILE : string := "RALPH-PROGRESS.md".
Definition DONE_FILE : string := "RALPH-COMPLETE.md".
Definition BLOCKED_FILE : string := "RALPH-BLOCKED.md".
Definition STOP_FILE : string := "RALPH-STOP".
Definition CHECKPOINT_FILE : string := "RALPH-CHECKPOINT.md".

(** ** The runner object *)

(** The values the source stores in [self._status]. *)
Inductive Status :=
| pending | running | completed | blocked | stopped | failed
| paused | missing_checkpoint.

Definition status_str (s : Status) : string :=
  match s with
  | pending => "pending" | running => "running" | completed => "completed"
  | blocked => "blocked" | stopped => "stopped" | failed => "failed"
  | paused => "paused" | missing_checkpoint => "missing_checkpoint"
  end.

Definition terminal (s : Status) : bool :=
  match s with
  | completed | blocked | stopped | failed => true
  | _ => false
  end.

#[global] Instance Status_eq_dec : EqDecision Status.
Proof. solve_decision. Defined.

(** Constructor arguments, never assigned after [__init__]. *)
Record Params := mkParams {
  folder : string;
  model : string;
  max_attempts : Z;
  sleep_seconds : Z;
  log_level : string;
  variant : option string
}.

(** The mutable attributes.  [_thread] is [None] before [start], [Some true]
    while the thread is alive and [Some false] once it has returned.
    [_current_process] holds the pid of the [Popen] object.  Time stamps are
    in tenths of a second. *)
Record Runner := mkRunner {
  params : Params;
  _thread : option bool;
  _stop_requested : bool;
  _current_attempt : Z;
  _status : Status;
  _error_message : option string;
  _current_process : option nat;
  _is_waiting : bool;
  _waiting_since : option Z;
  _waiting_duration : Z;
  _waiting_reason : string;
  _pause_requested : bool;
  _is_paused : bool;
  _missing_checkpoint_pause : bool;
  _user_continue_decision : option bool
}.

(** [__init__], lines 709-755. *)
Definition RalphLoopRunner (p : Params) : Runner :=
  mkRunner p None false 0 pending None None false None 0 "" false false
           false None.

Definition set_thread (v : option bool) (r : Runner) : Runner :=
  mkRunner (params r) v (_stop_requested r) (_current_attempt r) (_status r)
    (_error_message r) (_current_process r) (_is_waiting r) (_waiting_since r)
    (_waiting_duration r) (_waiting_reason r) (_pause_requested r)
    (_is_paused r) (_missing_checkpoint_pause r) (_user_continue_decision r).

Definition set_stop_requested (v : bool) (r : Runner) : Runner :=
  mkRunner (params r) (_thread r) v (_current_attempt r) (_status r)
    (_error_message r) (_current_process r) (_is_waiting r) (_waiting_since r)
    (_waiting_duration r) (_waiting_reason r) (_pause_requested r)
    (_is_paused r) (_missing_checkpoint_pause r) (_user_continue_decision r).

Definition set_current_attempt (v : Z) (r : Runner) : Runner :=
  mkRunner (params r) (_thread r) (_stop_requested r) v (_status r)
    (_error_message r) (_current_process r) (_is_waiting r) (_waiting_since r)
    (_waiting_duration r) (_waiting_reason r) (_pause_requested r)
    (_is_paused r) (_missing_checkpoint_pause r) (_user_continue_decision r).

Definition set_status (v : Status) (r : Runner) : Runner :=
  mkRunner (params r) (_thread r) (_stop_requested r) (_current_attempt r) v
    (_error_message r) (_current_process r) (_is_waiting r) (_waiting_since r)
    (_waiting_duration r) (_waiting_reason r) (_pause_requested r)
    (_is_paused r) (_missing_checkpoint_pause r) (_user_continue_decision r).

Definition set_error_message (v : option string) (r : Runner) : Runner :=
  mkRunner (params r) (_thread r) (_stop_requested r) (_current_attempt r)
    (_status r) v (_current_process r) (_is_waiting r) (_waiting_since r)
    (_waiting_duration r) (_waiting_reason r) (_pause_requested r)
    (_is_paused r) (_missing_checkpoint_pause r) (_user_continue_decision r).

Definition set_current_process (v : option nat) (r : Runner) : Runner :=
  mkRunner (params r) (_thread r) (_stop_requested r) (_current_attempt r)
    (_status r) (_error_message r) v (_is_waiting r) (_waiting_since r)
    (_waiting_duration r) (_waiting_reason r) (_pause_requested r)
    (_is_paused r) (_missing_checkpoint_pause r) (_user_continue_decision r).

Definition set_is_waiting (v : bool) (r : Runner) : Runner :=
  mkRunner (params r) (_thread r) (_stop_requested r) (_current_attempt r)
    (_status r) (_error_message r) (_current_process r) v (_waiting_since r)
    (_waiting_duration r) (_waiting_reason r) (_pause_requested r)
    (_is_paused r) (_missing_checkpoint_pause r) (_user_continue_decision r).

(** The three remaining wait attributes are only ever assigned together. *)
Definition set_waiting_fields (since : option Z) (duration : Z)
    (reason : string) (r : Runner) : Runner :=
  mkRunner (params r) (_thread r) (_stop_requested r) (_current_attempt r)
    (_status r) (_error_message r) (_current_process r) (_is_waiting r) since
    duration reason (_pause_requested r)
    (_is_paused r) (_missing_checkpoint_pause r) (_user_continue_decision r).

Definition set_pause_requested (v : bool) (r : Runner) : Runner :=
  mkRunner (params r) (_thread r) (_stop_requested r) (_current_attempt r)
    (_status r) (_error_message r) (_current_process r) (_is_waiting r)
    (_waiting_since r) (_waiting_duration r) (_waiting_reason r) v
    (_is_paused r) (_missing_checkpoint_pause r) (_user_continue_decision r).

Definition set_is_paused (v : bool) (r : Runner) : Runner :=
  mkRunner (params r) (_thread r) (_stop_requested r) (_current_attempt r)
    (_status r) (_error_message r) (_current_process r) (_is_waiting r)
    (_waiting_since r) (_waiting_duration r) (_waiting_reason r)
    (_pause_requested r) v (_missing_checkpoint_pause r)
    (_user_continue_decision r).

Definition set_missing_checkpoint_pause (v : bool) (r : Runner) : Runner :=
  mkRunner (params r) (_thread r) (_stop_requested r) (_current_attempt r)
    (_status r) (_error_message r) (_current_process r) (_is_waiting r)
    (_waiting_since r) (_waiting_duration r) (_waiting_reason r)
    (_pause_requested r) (_is_paused r) v (_user_continue_decision r).

Definition set_user_continue_decision (v : option bool) (r : Runner) : Runner :=
  mkRunner (params r) (_thread r) (_stop_requested r) (_current_attempt r)
    (_status r) (_error_message r) (_current_process r) (_is_waiting r)
    (_waiting_since r) (_waiting_duration r) (_waiting_reason r)
    (_pause_requested r) (_is_paused r) (_missing_checkpoint_pause r) v.

(** ** The world outside the runner object *)

(** A child process started by [subprocess.Popen].  [returncode] is [None]
    while it runs.  [ignores_term] says whether it survives SIGTERM.
    [descendants] are the live processes it has spawned, directly or not. *)
Record Proc := mkProc {
  returncode : option Z;
  ignores_term : bool;
  descendants : gset nat
}.

(** [fs] is the target folder.  [invocations] counts the [Popen] calls made
    and [waits] lists the [_set_waiting] calls made, oldest first; both are
    ghost state.  [now] is the wall clock in tenths of a second. *)
Record World := mkWorld {
  fs : gmap string string;
  procs : gmap nat Proc;
  now : Z;
  invocations : nat;
  waits : list (string * Z)
}.

Definition set_fs (v : gmap string string) (w : World) : World :=
  mkWorld v (procs w) (now w) (invocations w) (waits w).
Definition set_procs (v : gmap nat Proc) (w : World) : World :=
  mkWorld (fs w) v (now w) (invocations w) (waits w).
Definition set_now (v : Z) (w : World) : World :=
  mkWorld (fs w) (procs w) v (invocations w) (waits w).
Definition set_invocations (v : nat) (w : World) : World :=
  mkWorld (fs w) (procs w) (now w) v (waits w).
Definition set_waits (v : list (string * Z)) (w : World) : World :=
  mkWorld (fs w) (procs w) (now w) (invocations w) v.

(** A Python exception: the source tells [FileNotFoundError] from every other
    [Exception], and reads only [str(e)]. *)
Inductive Exn :=
| FileNotFoundError (msg : string)
| Exception (msg : string).

Definition str (e : Exn) : string :=
  match e with FileNotFoundError m | Exception m => m end.

(** What the machine the runner runs on decides: the platform, the files of
    the script directory read by [_read_template_file] (contents, or the
    exception [open] raises), and what the n-th [Popen] call does (an
    exception, or a new process with its pid and its reaction to SIGTERM). *)
Record Host := mkHost {
  windows : bool;
  read_template : string -> Exn + string;
  popen : nat -> Exn + (nat * bool)
}.

Definition St : Type := Runner * World.

(** [os.path.exists] on a file of the target folder. *)
Definition exists_in (w : World) (filename : string) : bool :=
  bool_decide (is_Some (fs w !! filename)).

(** ** Process operations used by the runner *)

Definition poll (pid : nat) (w : World) : option Z :=
  p ← procs w !! pid; returncode p.

Definition proc_running (pid : nat) (w : World) : bool :=
  match procs w !! pid with
  | Some p => match returncode p with None => true | Some _ => false end
  | None => false
  end.

Definition live_descendants (pid : nat) (w : World) : gset nat :=
  match procs w !! pid with Some p => descendants p | None => ∅ end.

Definition exit_with (rc : Z) (p : Proc) : Proc :=
  match returncode p with
  | None => mkProc (Some rc) (ignores_term p) (descendants p)
  | Some _ => p
  end.

(** [Popen.terminate]: SIGTERM to the child itself on POSIX (a process that
    ignores it keeps running), [TerminateProcess] on Windows. *)
Definition terminate (win : bool) (pid : nat) (w : World) : World :=
  set_procs
    (alter (fun p => if win then exit_with 1 p
                     else if ignores_term p then p else exit_with (-15) p)
           pid (procs w)) w.

(** [Popen.kill]: SIGKILL to the child itself, [TerminateProcess] on
    Windows. *)
Definition kill (win : bool) (pid : nat) (w : World) : World :=
  set_procs (alter (exit_with (if win then 1 else -9)) pid (procs w)) w.

(** [taskkill /T /F /PID pid]: a running process is ended with every
    descendant.  For a pid whose process has exited (or that names no
    process) taskkill finds no process and ends nothing; it then exits with
    an error code, which [subprocess.run] without [check] does not raise. *)
Definition taskkill_tree (pid : nat) (w : World) : World :=
  if proc_running pid w then
    set_procs
      (alter (fun p => mkProc (returncode (exit_with 1 p)) (ignores_term p) ∅)
             pid (procs w)) w
  else w.

(** [Popen.wait(timeout=...)]: [true] when the process has exited, [false]
    for [TimeoutExpired].  A process still running when the wait starts is
    taken to outlive the timeout. *)
Definition wait_timeout (pid : nat) (w : World) : bool :=
  negb (proc_running pid w).

(** ** Operator methods (called from the controlling thread) *)

(** Lines 806-809. *)
Definition continue_after_missing_checkpoint (r : Runner) : Runner :=
  set_missing_checkpoint_pause false (set_user_continue_decision (Some true) r).

(** Lines 811-814. *)
Definition stop_after_missing_checkpoint (r : Runner) : Runner :=
  set_missing_checkpoint_pause false (set_user_continue_decision (Some false) r).

(** Lines 816-819. *)
Definition pause (r : Runner) : Runner :=
  if _is_paused r then r else set_pause_requested true r.

(** Lines 821-824. *)
Definition resume (r : Runner) : Runner :=
  set_pause_requested false (set_is_paused false r).

(** Lines 887-889. *)
Definition stop (r : Runner) : Runner := set_stop_requested true r.

(** Lines 826-849.  On Windows [taskkill /T /F] is run on the child's pid, on
    other platforms the child alone gets [terminate()]; then
    [wait(timeout=2)], and [kill()] in the exception handler when the wait
    times out.  The handle can point to a child that has already exited: the
    stop path of [_invoke_opencode] (lines 988-995) returns without emptying
    it.  After [taskkill] the child was either ended by it or had exited
    before, so on Windows the wait does not time out. *)
Definition force_kill (win : bool) (s : St) : St :=
  let r := set_stop_requested true s.1 in
  let '(r, w) :=
    match _current_process r with
    | Some pid =>
        let w1 := if win then taskkill_tree pid s.2 else terminate win pid s.2 in
        let w2 := if wait_timeout pid w1 then w1 else kill win pid w1 in
        (set_current_process None r, w2)
    | None => (r, s.2)
    end in
  (set_status stopped (set_is_paused false (set_is_waiting false r)), w).

(** Lines 877-885.  The new thread runs [_run_loop], defined below. *)
Definition start (r : Runner) : Exn + Runner :=
  if bool_decide (_thread r = Some true)
  then inl (Exception "Runner is already running")
  else inr (set_thread (Some true)
             (set_status running (set_stop_requested false r))).

(** Lines 782-789, with the clock reading passed in. *)
Definition waiting_seconds_remaining (clock : Z) (r : Runner) : Z :=
  match _is_waiting r, _waiting_since r with
  | true, Some since =>
      Z.max 0 (_waiting_duration r - Z.quot (clock - since) 10)
  | _, _ => 0
  end.

(** ** What happens during one polling interval *)

(** Calls the controlling thread can make while the loop thread sleeps.
    [start] is not among them: it raises while the thread is alive. *)
Inductive Command :=
| CmdStop | CmdPause | CmdResume | CmdForceKill
| CmdContinue | CmdStopMissing.

Inductive Action :=
| Op (c : Command)
| FsWrite (name content : string)
| FsRemove (name : string)
| ProcExit (pid : nat) (rc : Z)
| ProcFork (pid child : nat)
| ProcReap (pid child : nat).

Definition Tick : Type := list Action.

Definition apply_command (win : bool) (c : Command) (s : St) : St :=
  match c with
  | CmdStop => (stop s.1, s.2)
  | CmdPause => (pause s.1, s.2)
  | CmdResume => (resume s.1, s.2)
  | CmdForceKill => force_kill win s
  | CmdContinue => (continue_after_missing_checkpoint s.1, s.2)
  | CmdStopMissing => (stop_after_missing_checkpoint s.1, s.2)
  end.

Definition add_descendant (c : nat) (p : Proc) : Proc :=
  mkProc (returncode p) (ignores_term p) ({[c]} ∪ descendants p).
Definition del_descendant (c : nat) (p : Proc) : Proc :=
  mkProc (returncode p) (ignores_term p) (descendants p ∖ {[c]}).

Definition apply_action (win : bool) (a : Action) (s : St) : St :=
  match a with
  | Op c => apply_command win c s
  | FsWrite f c => (s.1, set_fs (<[f := c]> (fs s.2)) s.2)
  | FsRemove f => (s.1, set_fs (delete f (fs s.2)) s.2)
  | ProcExit pid rc => (s.1, set_procs (alter (exit_with rc) pid (procs s.2)) s.2)
  | ProcFork pid c => (s.1, set_procs (alter (add_descendant c) pid (procs s.2)) s.2)
  | ProcReap pid c => (s.1, set_procs (alter (del_descendant c) pid (procs s.2)) s.2)
  end.

(** A sleep of [d] tenths of a second during which the actions of [t] happen
    in order. *)
Definition apply_tick (win : bool) (d : Z) (t : Tick) (s : St) : St :=
  foldl (fun s a => apply_action win a s) (s.1, set_now (now s.2 + d) s.2) t.

(** ** The loop thread's monad *)

Inductive Res (A : Type) :=
| Val (a : A) (s : St) (tr : list Tick)
| Raised (e : Exn) (s : St) (tr : list Tick)
| Parked (s : St).
Arguments Val {A} a s tr.
Arguments Raised {A} e s tr.
Arguments Parked {A} s.

Definition res_state {A} (x : Res A) : St :=
  match x with Val _ s _ | Raised _ s _ | Parked s => s end.

Definition M (A : Type) : Type := St -> list Tick -> Res A.

Definition ret {A} (a : A) : M A := fun s tr => Val a s tr.

Definition bind {A B} (m : M A) (k : A -> M B) : M B :=
  fun s tr =>
    match m s tr with
    | Val a s' tr' => k a s' tr'
    | Raised e s' tr' => Raised e s' tr'
    | Parked s' => Parked s'
    end.

#[global] Instance M_ret : MRet M := @ret.
#[global] Instance M_bind : MBind M := fun A B k m => bind m k.

Notation "'let*' x ':=' m 'in' k" := (bind m (fun x => k))
  (at level 10, x name, m at level 100, k at level 200).

Definition raise {A} (e : Exn) : M A := fun s tr => Raised e s tr.

(** [try: m except Exception as e: h e]. *)
Definition try_except {A} (m : M A) (h : Exn -> M A) : M A :=
  fun s tr =>
    match m s tr with
    | Raised e s' tr' => h e s' tr'
    | x => x
    end.

Definition get_runner : M Runner := fun s tr => Val s.1 s tr.
Definition get_world : M World := fun s tr => Val s.2 s tr.
Definition modify (f : Runner -> Runner) : M unit :=
  fun s tr => Val tt (f s.1, s.2) tr.
Definition modify_world (f : World -> World) : M unit :=
  fun s tr => Val tt (s.1, f s.2) tr.

(** Control flow out of a statement of the loop body: on to the next
    statement, [continue], or [return] from [_run_loop]. *)
Inductive Flow := Fall | Continue | Return.

(** Statement sequencing in the loop body. *)
Definition andthen (m k : M Flow) : M Flow :=
  let* f := m in match f with Fall => k | _ => ret f end.
Infix ">>>" := andthen (at level 65, right associativity).

(** ** The loop thread *)

Section Loop.

Variable host : Host.

(** [time.sleep]: the next polling interval of the trace goes by. *)
Definition sleep (d : Z) : M unit :=
  fun s tr =>
    match tr with
    | [] => Parked s
    | t :: tr' => Val tt (apply_tick (windows host) d t s) tr'
    end.

(** Lines 895-897. *)
Definition _file_exists (filename : string) : M bool :=
  let* w := get_world in ret (exists_in w filename).

(** Lines 899-903. *)
Definition _remove_file (filename : string) : M unit :=
  let* ex := _file_exists filename in
  if ex then modify_world (fun w => set_fs (delete filename (fs w)) w)
  else ret tt.

(** Lines 905-917. *)
Definition _read_template_file (filename : string) : M string :=
  match read_template host filename with
  | inl e => raise e
  | inr content => ret content
  end.

Definition write_file (filename content : string) : M unit :=
  modify_world (fun w => set_fs (<[filename := content]> (fs w)) w).

(** Lines 919-925. *)
Definition _scaffold_plan_file : M unit :=
  let* ex := _file_exists PLAN_FILE in
  if ex then ret tt
  else let* content := _read_template_file PLAN_FILE in write_file PLAN_FILE content.

(** Lines 927-933. *)
Definition _scaffold_progress_file : M unit :=
  let* ex := _file_exists PROGRESS_FILE in
  if ex then ret tt
  else let* content := _read_template_file PROGRESS_FILE in
       write_file PROGRESS_FILE content.

(** Lines 935-937.  The prompt only goes onto the command line, so its
    [strip()] is left out. *)
Definition _build_prompt : M string := _read_template_file "RALPH-PROMPT.md".

(** Lines 851-856. *)
Definition _set_waiting (reason : string) (duration : Z) : M unit :=
  let* w := get_world in
  modify (fun r => set_waiting_fields (Some (now w)) duration reason
                     (set_is_waiting true r));;
  modify_world (fun w => set_waits (waits w ++ [(reason, duration)]) w).

(** Lines 858-863. *)
Definition _clear_waiting : M unit :=
  modify (fun r => set_waiting_fields None 0 "" (set_is_waiting false r)).

(** The [while] of lines 870-873.  [elapsed] grows by 0.5 from 0, so the
    test [elapsed < duration] passes [2 * duration] times; [n] counts the
    passes left. *)
Fixpoint wait_loop (n : nat) : M unit :=
  match n with
  | O => ret tt
  | S n' =>
      let* r := get_runner in
      if _stop_requested r then ret tt else sleep 5;; wait_loop n'
  end.

(** Lines 865-875.  Nothing in the [try] raises, so [finally] is the
    statement after it. *)
Definition _wait_with_state (reason : string) (duration : Z) : M unit :=
  _set_waiting reason duration;;
  wait_loop (Z.to_nat (2 * duration));;
  _clear_waiting.

(** The [while] of lines 1050-1051. *)
Fixpoint pause_poll (tr : list Tick) (s : St) : Res unit :=
  if _is_paused s.1 && negb (_stop_requested s.1) then
    match tr with
    | [] => Parked s
    | t :: tr' => pause_poll tr' (apply_tick (windows host) 5 t s)
    end
  else Val tt s tr.

Definition pause_wait : M unit := fun s tr => pause_poll tr s.

(** The [while] of lines 1129-1130. *)
Fixpoint decision_poll (tr : list Tick) (s : St) : Res unit :=
  if _missing_checkpoint_pause s.1 && negb (_stop_requested s.1) then
    match tr with
    | [] => Parked s
    | t :: tr' => decision_poll tr' (apply_tick (windows host) 5 t s)
    end
  else Val tt s tr.

Definition decision_wait : M unit := fun s tr => decision_poll tr s.

(** The [while] of lines 987-999 with lines 1001-1008 after it.  The handle
    is read afresh at every test: when [force_kill] has emptied it, the
    attribute access on [None] raises. *)
Fixpoint poll_loop (tr : list Tick) (s : St) : Res bool :=
  match _current_process s.1 with
  | None => Raised (Exception "'NoneType' object has no attribute 'poll'") s tr
  | Some pid =>
      match poll pid s.2 with
      | Some rc =>
          Val (bool_decide (rc = 0)) (set_current_process None s.1, s.2) tr
      | None =>
          if _stop_requested s.1 then
            let w1 := terminate (windows host) pid s.2 in
            let w2 := if wait_timeout pid w1 then w1
                      else kill (windows host) pid w1 in
            Val false (s.1, w2) tr
          else
            match tr with
            | [] => Parked s
            | t :: tr' => poll_loop tr' (apply_tick (windows host) 2 t s)
            end
      end
  end.

Definition poll_until_exit : M bool := fun s tr => poll_loop tr s.

(** Line 980: the [Popen] call.  The command line (lines 947-974) is built
    from attributes that nothing else reads and is not modelled. *)
Definition spawn : M unit :=
  let* w := get_world in
  modify_world (set_invocations (S (invocations w)));;
  match popen host (invocations w) with
  | inl e => raise e
  | inr (pid, ign) =>
      modify_world (fun w => set_procs (<[pid := mkProc None ign ∅]> (procs w)) w);;
      modify (set_current_process (Some pid))
  end.

(** The two [except] clauses, lines 1010-1018. *)
Definition invoke_handler (e : Exn) : M bool :=
  match e with
  | FileNotFoundError _ =>
      modify (set_error_message (Some "opencode command not found"));;
      modify (set_current_process None);;
      ret false
  | Exception _ =>
      modify (set_current_process None);;
      ret false
  end.

(** Lines 939-1018. *)
Definition _invoke_opencode : M bool :=
  let* _ := _build_prompt in
  try_except (spawn;; poll_until_exit) invoke_handler.

(** *** The loop body, statement by statement *)

(** Lines 1041-1057. *)
Definition pause_boundary (attempt : Z) : M Flow :=
  modify (set_current_attempt attempt);;
  let* r := get_runner in
  if _pause_requested r then
    modify (set_is_paused true);;
    modify (set_pause_requested false);;
    modify (set_status paused);;
    pause_wait;;
    let* r := get_runner in
    if _stop_requested r then modify (set_status stopped);; ret Return
    else modify (set_status running);; ret Fall
  else ret Fall.

(** Lines 1059-1063. *)
Definition stop_check : M Flow :=
  let* r := get_runner in
  let* ex := _file_exists STOP_FILE in
  if _stop_requested r || ex then modify (set_status stopped);; ret Return
  else ret Fall.

(** Lines 1065-1081, and again lines 1097-1113. *)
Definition terminal_check : M Flow :=
  let* done := _file_exists DONE_FILE in
  if done then
    let* ck := _file_exists CHECKPOINT_FILE in
    (if ck then _remove_file CHECKPOINT_FILE else ret tt);;
    modify (set_status completed);;
    ret Return
  else
    let* blk := _file_exists BLOCKED_FILE in
    if blk then
      let* ck := _file_exists CHECKPOINT_FILE in
      (if ck then _remove_file CHECKPOINT_FILE else ret tt);;
      modify (set_status blocked);;
      ret Return
    else ret Fall.

(** Lines 1084-1088, and again the [if] branch of lines 1116-1120. *)
Definition checkpoint_step : M Flow :=
  let* ck := _file_exists CHECKPOINT_FILE in
  if ck then
    _remove_file CHECKPOINT_FILE;;
    let* r := get_runner in
    _wait_with_state "checkpoint" (sleep_seconds (params r));;
    ret Continue
  else ret Fall.

(** Lines 1091-1094. *)
Definition invoke_step : M Flow :=
  let* ok := _invoke_opencode in
  if ok then ret Fall
  else
    let* r := get_runner in
    _wait_with_state "backoff" (sleep_seconds (params r));;
    ret Continue.

(** The [else] branch of lines 1121-1145; the body ends after it. *)
Definition missing_checkpoint_gate : M Flow :=
  modify (set_missing_checkpoint_pause true);;
  modify (set_status missing_checkpoint);;
  modify (set_user_continue_decision None);;
  decision_wait;;
  let* r := get_runner in
  if _stop_requested r then modify (set_status stopped);; ret Return
  else if bool_decide (_user_continue_decision r = Some false)
  then modify (set_status stopped);; ret Return
  else
    modify (set_status running);;
    _wait_with_state "cooldown" (sleep_seconds (params r));;
    ret Fall.

(** The statements of an attempt up to and including the invocation. *)
Definition upto_invocation (attempt : Z) : M Flow :=
  pause_boundary attempt >>> stop_check >>> terminal_check >>>
  checkpoint_step >>> invoke_step.

(** Lines 1041-1145: one iteration of the [for]. *)
Definition body (attempt : Z) : M Flow :=
  pause_boundary attempt >>> stop_check >>> terminal_check >>>
  checkpoint_step >>> invoke_step >>>
  terminal_check >>> checkpoint_step >>> missing_checkpoint_gate.

(** Line 1040: [for attempt in range(1, self.max_attempts + 1)], with [n]
    iterations left. *)
Fixpoint for_range (n : nat) (attempt : Z) : M Flow :=
  match n with
  | O => ret Fall
  | S n' =>
      let* f := body attempt in
      match f with
      | Return => ret Return
      | Fall | Continue => for_range n' (attempt + 1)
      end
  end.

(** Lines 1024-1036: validation, scaffolding and removal of the terminal
    files of earlier runs.  [Return] when the design file is missing. *)
Definition startup : M Flow :=
  let* ex := _file_exists PIN_SPEC in
  if negb ex then
    modify (set_status failed);;
    modify (set_error_message (Some ("Missing " +:+ PIN_SPEC)));;
    ret Return
  else
    _scaffold_plan_file;;
    _scaffold_progress_file;;
    _remove_file DONE_FILE;;
    _remove_file BLOCKED_FILE;;
    ret Fall.

(** Lines 1147-1150. *)
Definition exhausted : M Flow :=
  modify (set_status failed);;
  modify (set_error_message (Some "Max attempts reached"));;
  ret Fall.

(** Lines 1152-1155. *)
Definition loop_handler (e : Exn) : M Flow :=
  modify (set_status failed);;
  modify (set_error_message (Some (str e)));;
  ret Fall.

(** Line 1040: the range is computed once, when the loop is entered. *)
Definition attempts_loop : M Flow :=
  let* r := get_runner in
  for_range (Z.to_nat (max_attempts (params r))) 1.

(** Lines 1020-1155. *)
Definition _run_loop : M Flow :=
  try_except (startup >>> attempts_loop >>> exhausted) loop_handler.

(** The thread started by [start]: it runs [_run_loop] and is no longer
    alive once that returns. *)
Definition thread_main : M unit :=
  let* _ := _run_loop in modify (set_thread (Some false)).

End Loop.

(** Construct a runner, [start] it and let its thread run over the trace. *)
Definition run (h : Host) (p : Params) (w : World) (tr : list Tick) : Res unit :=
  match start (RalphLoopRunner p) with
  | inr r => thread_main h (r, w) tr
  | inl e => Raised e (RalphLoopRunner p, w) tr
  end.

(** ** Concrete hosts, folders and traces used in the examples *)

Module Scenario.

(** A script directory holding the three templates. *)
Definition templates (f : string) : Exn + string :=
  if bool_decide (f = PLAN_FILE) then inr "# Plan"
  else if bool_decide (f = PROGRESS_FILE) then inr "# Progress"
  else if bool_decide (f = "RALPH-PROMPT.md") then inr "Do the next item."
  else inl (FileNotFoundError "[Errno 2] No such file or directory").

(** Every [Popen] succeeds; the n-th child gets pid [100 + n] and dies on
    SIGTERM. *)
Definition posix : Host :=
  mkHost false templates (fun n => inr (100 + n, false)%nat).
Definition win32 : Host :=
  mkHost true templates (fun n => inr (100 + n, false)%nat).

(** The parameters the GUI passes (lines 2567-2573), and a one-attempt
    variant. *)
Definition gui_params : Params := mkParams "/work" "some/model" 40 2 "INFO" None.
Definition one_attempt : Params := mkParams "/work" "some/model" 1 2 "INFO" None.

(** A target folder holding the given files, no process, clock at 0. *)
Definition folder_with (files : list string) : World :=
  mkWorld (list_to_map ((fun f => (f, "")) <$> files)) ∅ 0 0 [].

(** The agent writes the done file and exits with code 0 during the second
    polling interval of its run. *)
Definition agent_finishes : list Tick :=
  [[]; [FsWrite DONE_FILE "done"; ProcExit 100 0]].

Definition finished : St :=
  res_state (run posix gui_params (folder_with [PIN_SPEC]) agent_finishes).

(** A freshly started runner in a folder holding the given files. *)
Definition started (p : Params) (files : list string) : St :=
  (set_thread (Some true) (set_status running (RalphLoopRunner p)),
   folder_with files).

(** The agent writes the done file and a checkpoint and exits with code 0. *)
Definition agent_finishes_with_checkpoint : list Tick :=
  [[]; [FsWrite DONE_FILE "done"; FsWrite CHECKPOINT_FILE "item 1";
        ProcExit 100 0]; []].


(** The agent exits with code 0 and leaves no sentinel; two intervals later
    the operator answers "continue"; four more intervals go by. *)
Definition agent_silent_then_continue : list Tick :=
  [[]; [ProcExit 100 0]; []; [Op CmdPause]; [Op CmdContinue]; []; []; []; []].

(** The agent exits with code 1 twice; each time the backoff of one second
    goes by; the third run writes the done file and exits with code 0. *)
Definition two_failures_then_done : list Tick :=
  [[ProcExit 100 1]; []; []; [ProcExit 101 1]; []; [];
   [FsWrite DONE_FILE "done"; ProcExit 102 0]].

(** The operator queues a pause before the attempt; at the boundary two
    intervals go by, a second pause is asked for, then the runner is
    resumed. *)
Definition paused_then_resumed : list Tick :=
  [[]; [Op CmdPause]; [Op CmdResume]; []].

(** A machine without the agent's executable. *)
Definition no_executable : Host :=
  mkHost false templates
    (fun _ => inl (FileNotFoundError "[Errno 2] No such file or directory")).

Definition three_attempts : Params := mkParams "/work" "some/model" 3 1 "INFO" None.

(** A runner whose child 7 has spawned process 8. *)
Definition with_child : St :=
  (set_current_process (Some 7%nat)
     (set_thread (Some true) (set_status running (RalphLoopRunner gui_params))),
   mkWorld {[PIN_SPEC := ""]} {[7%nat := mkProc None false {[8%nat]}]} 0 1 []).

End Scenario.

(** ** Vocabulary of the statements *)

(** [evolves s s']: what holds of the state [s'] reached from [s] by the
    actions of the operator, the agent and the operating system.  The ghost
    logs, the parameters, the error message, the attempt counter and the wait
    descriptor are the loop thread's alone; the status can only be forced
    to [stopped], and then the stop request is set; a stop request stays;
    the is-waiting flag is only cleared together with a stop request. *)
Record evolves (s s' : St) : Prop := mkEvolves {
  ev_params : params s'.1 = params s.1;
  ev_invocations : invocations s'.2 = invocations s.2;
  ev_waits : waits s'.2 = waits s.2;
  ev_error : _error_message s'.1 = _error_message s.1;
  ev_attempt : _current_attempt s'.1 = _current_attempt s.1;
  ev_reason : _waiting_reason s'.1 = _waiting_reason s.1;
  ev_duration : _waiting_duration s'.1 = _waiting_duration s.1;
  ev_status : _status s'.1 = _status s.1 ∨
              (_status s'.1 = stopped ∧ _stop_requested s'.1 = true);
  ev_stop : _stop_requested s.1 = true → _stop_requested s'.1 = true;
  ev_waiting : _is_waiting s'.1 = _is_waiting s.1 ∨ _stop_requested s'.1 = true
}.

(** [waited reason d s R]: [R] is the result of a wait entered in state [s]
    with the given reason and duration.  The wait is logged and nothing is
    invoked; the error message and the attempt counter are as before; the
    status is as before unless [force_kill] has set it to [stopped].  When
    the wait has ended its descriptor is cleared; when the trace ends first
    the runner is parked in it, showing the reason and the duration. *)
Definition waited {A} (reason : string) (d : Z) (s : St) (R : Res A) : Prop :=
  invocations (res_state R).2 = invocations s.2 ∧
  waits (res_state R).2 = waits s.2 ++ [(reason, d)] ∧
  _error_message (res_state R).1 = _error_message s.1 ∧
  _current_attempt (res_state R).1 = _current_attempt s.1 ∧
  (_status (res_state R).1 = _status s.1 ∨ _status (res_state R).1 = stopped) ∧
  match R with
  | Val _ s2 _ => _is_waiting s2.1 = false
  | Raised _ _ _ => False
  | Parked s2 =>
      _is_waiting s2.1 = true ∧ _waiting_reason s2.1 = reason ∧
      _waiting_duration s2.1 = d
  end.

(** The commands that end the gate's wait, and the polling intervals
    without any of them. *)
Definition decisive (c : Command) : bool :=
  match c with
  | CmdStop | CmdForceKill | CmdContinue | CmdStopMissing => true
  | CmdPause | CmdResume => false
  end.

Definition quiet_action (a : Action) : bool :=
  match a with Op c => negb (decisive c) | _ => true end.

Definition quiet (t : Tick) : bool := forallb quiet_action t.

(** The attributes the gate reads are left alone by quiet actions. *)
Definition same_gate (s s' : St) : Prop :=
  _missing_checkpoint_pause s'.1 = _missing_checkpoint_pause s.1 ∧
  _stop_requested s'.1 = _stop_requested s.1 ∧
  _user_continue_decision s'.1 = _user_continue_decision s.1 ∧
  _status s'.1 = _status s.1.

(** The state in which the gate starts to poll (lines 1124-1126). *)
Definition gate_entry (s : St) : St :=
  (set_user_continue_decision None
     (set_status missing_checkpoint (set_missing_checkpoint_pause true s.1)),
   s.2).

(** What scaffolding does to the folder: nothing when the file is there,
    else the template's content is written, or reading the template raises. *)
Definition scaffolded (host : Host) (f : string) (m : gmap string string)
    : Exn + gmap string string :=
  if bool_decide (is_Some (m !! f)) then inr m
  else match read_template host f with
       | inl e => inl e
       | inr c => inr (<[f := c]> m)
       end.

(** Two folders that hold the same files except, possibly, the done and
    blocked files. *)
Definition agree_but_terminal (m m' : gmap string string) : Prop :=
  ∀ f, f ≠ DONE_FILE → f ≠ BLOCKED_FILE → m' !! f = m !! f.

(** Two worlds that differ at most in the done and blocked files. *)
Definition same_but_terminal_files (w w' : World) : Prop :=
  procs w' = procs w ∧ now w' = now w ∧ invocations w' = invocations w ∧
  waits w' = waits w ∧ agree_but_terminal (fs w) (fs w').

(** ** The task handle of the GUI ([RunningTask], lines 1158-1277) *)

Module Task.

(** The task's [runner] attribute is either [None] or the runner object of
    the state ([attached]); its methods read and write that shared object.
    [start_time] is in tenths of a second. *)
Record RunningTask := mkTask {
  folder : string;
  backup_guid : string;
  attached : bool;
  start_time : Z;
  status : string;
  opencode_json_copied : bool
}.

(** Lines 1161-1172, with the clock reading passed in. *)
Definition new (folder backup_guid : string) (attached : bool) (clock : Z)
    : RunningTask :=
  mkTask folder backup_guid attached clock "running" false.

Definition set_status (v : string) (t : RunningTask) : RunningTask :=
  mkTask (folder t) (backup_guid t) (attached t) (start_time t) v
         (opencode_json_copied t).

(** Lines 1174-1184.  [int()] truncates the seconds towards zero; [divmod]
    rounds down. *)
Definition get_elapsed_time (clock : Z) (t : RunningTask) : string :=
  let total := Z.quot (clock - start_time t) 10 in
  let minutes := total `div` 60 in
  let seconds := total `mod` 60 in
  let hours := minutes `div` 60 in
  let minutes := minutes `mod` 60 in
  if bool_decide (0 < hours) then
    pretty hours +:+ "h " +:+ pretty minutes +:+ "m " +:+ pretty seconds +:+ "s"
  else if bool_decide (0 < minutes) then
    pretty minutes +:+ "m " +:+ pretty seconds +:+ "s"
  else pretty seconds +:+ "s".

(** Lines 1186-1190. *)
Definition get_current_attempt (t : RunningTask) (s : St) : Z :=
  if attached t then _current_attempt s.1 else 0.

(** Lines 1192-1195. *)
Definition is_complete (w : World) : bool := exists_in w "RALPH-COMPLETE.md".

(** Lines 767-770 and 1197-1201. *)
Definition is_runner_active (t : RunningTask) (s : St) : bool :=
  if attached t then bool_decide (_thread s.1 = Some true) else false.

(** Lines 1203-1207. *)
Definition get_runner_status (t : RunningTask) (s : St) : string :=
  if attached t then status_str (_status s.1) else "unknown".

(** Lines 1209-1212. *)
Definition is_blocked (w : World) : bool := exists_in w "RALPH-BLOCKED.md".

(** Lines 1214-1218. *)
Definition get_runner_error (t : RunningTask) (s : St) : option string :=
  if attached t then _error_message s.1 else None.

(** Lines 1220-1224. *)
Definition is_waiting (t : RunningTask) (s : St) : bool :=
  if attached t then _is_waiting s.1 else false.

(** Lines 1226-1234. *)
Definition get_waiting_info (t : RunningTask) (s : St) : bool * string * Z :=
  if attached t
  then (_is_waiting s.1, _waiting_reason s.1,
        waiting_seconds_remaining (now s.2) s.1)
  else (false, "", 0).

(** Lines 1236-1246. *)
Definition is_paused (t : RunningTask) (s : St) : bool :=
  if attached t then _is_paused s.1 else false.
Definition is_pause_pending (t : RunningTask) (s : St) : bool :=
  if attached t then _pause_requested s.1 else false.

(** Lines 1248-1261 and 1269-1277: the controls pass through to the runner
    when there is one. *)
Definition control (win : bool) (c : Command) (t : RunningTask) (s : St) : St :=
  if attached t then apply_command win c s else s.

(** Lines 1263-1267. *)
Definition is_missing_checkpoint_pause (t : RunningTask) (s : St) : bool :=
  if attached t then _missing_checkpoint_pause s.1 else false.

(** Lines 2431-2452: one pass of [_update_task_status] over a task of the
    running list; the task leaves the list when its status is no longer
    "running" (line 2485). *)
Definition update_status (t : RunningTask) (s : St) : RunningTask :=
  if is_complete s.2 && negb (is_runner_active t s) then set_status "completed" t
  else if is_blocked s.2 then set_status "blocked" t
  else if attached t && negb (is_runner_active t s) then
    if bool_decide (get_runner_status t s
                      ∈ ["completed"; "blocked"; "stopped"; "failed"])
    then set_status (get_runner_status t s) t
    else t
  else t.

Definition stays_listed (t : RunningTask) : bool :=
  bool_decide (status t = "running").

End Task.

(** ** The GUI's lists and file steps ([RalphGUI]) *)

Module Gui.

(** [list.remove(x)]: the first occurrence goes. *)
Fixpoint list_remove (x : string) (l : list string) : list string :=
  match l with
  | [] => []
  | y :: l' => if bool_decide (x = y) then l' else y :: list_remove x l'
  end.

(** Lines 1524-1530: the new value of [self.recent_folders].  Saving the
    list and refreshing the dropdown are left out. *)
Definition _add_to_recent_folders (folder : string)
    (recent_folders : list string) : list string :=
  let l := if bool_decide (folder ∈ recent_folders)
           then list_remove folder recent_folders else recent_folders in
  take 5 (folder :: l).

(** Lines 1557-1563: the new value of [self.recently_used_models]. *)
Definition _add_to_recent_models (model : string)
    (recently_used_models : list string) : list string :=
  let l := if bool_decide (model ∈ recently_used_models)
           then list_remove model recently_used_models
           else recently_used_models in
  take 10 (model :: l).

(** The order of [str]: by code point, a proper prefix first.  On the bytes
    of UTF-8 text this is the order of [String.leb]. *)
Definition str_le (a b : string) : Prop := String.leb a b = true.

#[global] Instance str_le_dec a b : Decision (str_le a b).
Proof. unfold str_le. apply _. Defined.

(** Lines 1568-1580. *)
Definition _get_sorted_models (available_models recently_used_models
    : list string) : list string :=
  if bool_decide (available_models = []) then []
  else
    let recent := filter (fun m => m ∈ available_models) recently_used_models in
    let others :=
      filter (fun m => m ∉ recently_used_models) available_models in
    recent ++ merge_sort str_le others.

(** The files saved by [_create_backup] (lines 2606-2613), removed by
    [_remove_existing_files] (lines 2624-2631) and moved by
    [_move_files_to_backup] (lines 2674-2679). *)
Definition files_to_backup : list string :=
  ["RALPH-DESIGN.md"; "RALPH-PROGRESS.md"; "RALPH-COMPLETE.md";
   "RALPH-PLAN.md"; "RALPH-CHECKPOINT.md"; "RALPH-BLOCKED.md"].

Definition files_to_remove : list string :=
  ["RALPH-DESIGN.md"; "RALPH-PROGRESS.md"; "RALPH-COMPLETE.md";
   "RALPH-PLAN.md"; "RALPH-CHECKPOINT.md"; "RALPH-BLOCKED.md"].

Definition files_to_move (opencode_json_copied : bool) : list string :=
  ["RALPH-DESIGN.md"; "RALPH-PROGRESS.md"; "RALPH-COMPLETE.md";
   "RALPH-PLAN.md"] ++
  (if opencode_json_copied then ["opencode.json"] else []).

Definition nl : string := String (Ascii.ascii_of_nat 10) "".

(** Lines 2588-2620: the backup folder after the call.  [stamp] is
    [datetime.now().isoformat()]; [target] and [backup] are the files of the
    target folder and of the backup folder. *)
Definition _create_backup (stamp target_folder backup_guid design_content
    : string) (target backup : gmap string string) : gmap string string :=
  let b := <["backup_info.txt" :=
               "Backup Created: " +:+ stamp +:+ nl +:+
               "Target Folder: " +:+ target_folder +:+ nl +:+
               "Backup GUID: " +:+ backup_guid +:+ nl]> backup in
  let b := <["RALPH-DESIGN.md" := design_content]> b in
  foldl (fun b filename =>
           match target !! filename with
           | Some content => <["existing_" +:+ filename := content]> b
           | None => b
           end) b files_to_backup.

(** Lines 2622-2637. *)
Definition _remove_existing_files (folder : gmap string string)
    : gmap string string :=
  foldl (fun m filename =>
           if bool_decide (is_Some (m !! filename)) then delete filename m
           else m) folder files_to_remove.

(** Lines 2639-2646. *)
Definition _create_design_file (content : string)
    (folder : gmap string string) : gmap string string :=
  <["RALPH-DESIGN.md" := content]> folder.

(** Lines 2648-2654. *)
Definition _copy_specs_file (script_dir target : gmap string string)
    : gmap string string :=
  match script_dir !! "RALPH-SPECS.md" with
  | Some content => <["RALPH-SPECS.md" := content]> target
  | None => target
  end.

(** Lines 2656-2666: the result and the target folder after the call. *)
Definition _copy_opencode_json (checked : bool)
    (script_dir target : gmap string string) : bool * gmap string string :=
  if negb checked then (false, target)
  else match script_dir !! "opencode.json", target !! "opencode.json" with
       | Some content, None => (true, <["opencode.json" := content]> target)
       | _, _ => (false, target)
       end.

(** Lines 2668-2690: the target and the backup folder after the call.
    [shutil.move] onto an existing file replaces it. *)
Definition _move_files_to_backup (opencode_json_copied : bool)
    (target backup : gmap string string)
    : gmap string string * gmap string string :=
  foldl (fun tb filename =>
           match tb.1 !! filename with
           | Some content => (delete filename tb.1, <[filename := content]> tb.2)
           | None => tb
           end) (target, backup) (files_to_move opencode_json_copied).

(** The file steps of [_run_ralph] on the target folder, lines 2546-2558:
    remove the old files, write the design, copy the lookup table and,
    when asked for, [opencode.json]. *)
Definition prepare_target (design_content : string) (checked : bool)
    (script_dir target : gmap string string) : bool * gmap string string :=
  _copy_opencode_json checked script_dir
    (_copy_specs_file script_dir
       (_create_design_file design_content (_remove_existing_files target))).

End Gui.

(** ** Vocabulary of the further statements *)

(** Actions that leave the stop request alone. *)
Definition no_stop_action (a : Action) : bool :=
  match a with Op CmdStop | Op CmdForceKill => false | _ => true end.

Definition no_stop (t : Tick) : bool := forallb no_stop_action t.

(** Actions that neither resume a paused runner nor stop it. *)
Definition pause_quiet_action (a : Action) : bool :=
  match a with
  | Op CmdStop | Op CmdForceKill | Op CmdResume => false
  | _ => true
  end.

Definition pause_quiet (t : Tick) : bool := forallb pause_quiet_action t.

(** The state in which the pause boundary starts to poll (lines 1041-1048). *)
Definition pause_entry (attempt : Z) (s : St) : St :=
  (set_status paused
     (set_pause_requested false
        (set_is_paused true (set_current_attempt attempt s.1))),
   s.2).

(** The polling intervals of a list go by, each of [d] tenths of a second. *)
Definition elapse (win : bool) (d : Z) (q : list Tick) (s : St) : St :=
  foldl (fun s t => apply_tick win d t s) s q.

(** [keeps k s s']: from [s] to [s'] the parameters and the attempt counter
    are unchanged and at most [k] invocations were started. *)
Definition keeps (k : nat) (s s' : St) : Prop :=
  params s'.1 = params s.1 ∧
  _current_attempt s'.1 = _current_attempt s.1 ∧
  (invocations s.2 ≤ invocations s'.2 ≤ invocations s.2 + k)%nat.

(** A computation that [keeps k] whatever its outcome. *)
Definition Keeps {A} (k : nat) (m : M A) : Prop :=
  ∀ s tr, keeps k s (res_state (m s tr)).

(** The pause boundary after the attempt counter is set (lines 1044-1057). *)
Definition pause_rest (host : Host) : M Flow :=
  let* r := get_runner in
  if _pause_requested r then
    modify (set_is_paused true);;
    modify (set_pause_requested false);;
    modify (set_status paused);;
    pause_wait host;;
    let* r := get_runner in
    if _stop_requested r then modify (set_status stopped);; ret Return
    else modify (set_status running);; ret Fall
  else ret Fall.

(** [counted s s']: from [s] to [s'] either no attempt was made and nothing
    invoked, or the attempt counter is between 1 and [max_attempts] and at
    most one invocation per attempt so far was started. *)
Definition counted (s s' : St) : Prop :=
  (_current_attempt s'.1 = _current_attempt s.1 ∧
   invocations s'.2 = invocations s.2) ∨
  (1 ≤ _current_attempt s'.1 ≤ max_attempts (params s.1) ∧
   (invocations s.2 ≤ invocations s'.2)%nat ∧
   Z.of_nat (invocations s'.2)
     ≤ Z.of_nat (invocations s.2) + _current_attempt s'.1).

(** A runner that sits in the pause of the loop boundary. *)
Definition sits_paused (s : St) : Prop :=
  _is_paused s.1 = true ∧ _stop_requested s.1 = false ∧
  _status s.1 = paused ∧ _pause_requested s.1 = false.

(** The child [pid] of an invocation under way: it is in the process table,
    and the handle either points to it or was emptied after it was killed. *)
Definition child_tracked (pid : nat) (s : St) : Prop :=
  is_Some (procs s.2 !! pid) ∧
  (_current_process s.1 = Some pid ∨
   (_current_process s.1 = None ∧ proc_running pid s.2 = false)).

(** A state in which an attempt goes straight to the invocation: no pause
    queued, no stop requested, and none of the stop, done, blocked and
    checkpoint files in the folder. *)
Definition idle (s : St) : Prop :=
  _pause_requested s.1 = false ∧ _stop_requested s.1 = false ∧
  exists_in s.2 STOP_FILE = false ∧ exists_in s.2 DONE_FILE = false ∧
  exists_in s.2 BLOCKED_FILE = false ∧ exists_in s.2 CHECKPOINT_FILE = false.

(** * Properties *)

(** ** Operator methods *)

Lemma force_kill_status win s : _status (force_kill win s).1 = stopped.
Proof. unfold force_kill. by destruct (_current_process _). Qed.

Lemma alter_exit_not_running rc pid (m : gmap nat Proc) w :
  proc_running pid (set_procs (alter (exit_with rc) pid m) w) = false.
Proof.
  unfold proc_running; simpl. rewrite lookup_alter_eq.
  by destruct (m !! pid) as [[[?|] ? ?]|].
Qed.

Lemma kill_not_running win pid w : proc_running pid (kill win pid w) = false.
Proof. apply alter_exit_not_running. Qed.

Lemma kill_descendants win pid w :
  live_descendants pid (kill win pid w) = live_descendants pid w.
Proof.
  unfold live_descendants, kill; simpl. rewrite lookup_alter_eq.
  by destruct (procs w !! pid) as [[[?|] ? ?]|].
Qed.

Lemma terminate_descendants pid w :
  live_descendants pid (terminate false pid w) = live_descendants pid w.
Proof.
  unfold live_descendants, terminate; simpl. rewrite lookup_alter_eq.
  by destruct (procs w !! pid) as [[[?|] [] ?]|].
Qed.

Lemma taskkill_tree_spec pid w :
  proc_running pid (taskkill_tree pid w) = false ∧
  live_descendants pid (taskkill_tree pid w) =
    (if proc_running pid w then ∅ else live_descendants pid w).
Proof.
  unfold taskkill_tree.
  destruct (proc_running pid w) eqn:Hr; [|done].
  unfold proc_running, live_descendants in *; simpl.
  rewrite lookup_alter_eq.
  by destruct (procs w !! pid) as [[[?|] ? ?]|].
Qed.

(** C2, as amended.  On a runner whose status is terminal, [stop], [pause],
    [resume] and the two missing-checkpoint decisions leave the status as it
    is, while [force_kill] sets it to [stopped] whatever it was, and a
    [start] that does not raise sets it to [running]. *)
Theorem C2_terminal_status_under_commands (win : bool) (c : Command) (s : St) :
  terminal (_status s.1) = true →
  _status (apply_command win c s).1 =
    (if c is CmdForceKill then stopped else _status s.1) ∧
  match start s.1 with
  | inl _ => True
  | inr r' => _status r' = running
  end.
Proof.
  intros _. split.
  - destruct c; simpl; try reflexivity.
    + unfold pause. by destruct (_is_paused s.1).
    + apply force_kill_status.
  - unfold start. by destruct (bool_decide _).
Qed.

Lemma C2_witness :
  terminal (_status Scenario.finished.1) = true ∧
  _status (apply_command false CmdResume Scenario.finished).1 = completed.
Proof.
  split; [vm_compute; reflexivity|].
  destruct (C2_terminal_status_under_commands false CmdResume Scenario.finished)
    as [H _]; [vm_compute; reflexivity|].
  rewrite H. vm_compute. reflexivity.
Defined.

(** C2 as stated fails: a runner that has completed is turned to [stopped]
    by [force_kill]. *)
Lemma C2_counterexample :
  _status Scenario.finished.1 = completed ∧
  terminal (_status Scenario.finished.1) = true ∧
  _status (force_kill false Scenario.finished).1 ≠ _status Scenario.finished.1.
Proof. vm_compute. repeat split; discriminate. Qed.

(** C7, as amended.  [start] raises exactly when the runner's thread is
    alive.  On any other runner, whatever its status, it raises nothing: it
    clears the stop request, sets the status to [running] and starts a
    thread. *)
Theorem C7_start_raises_iff_thread_alive (r : Runner) :
  (_thread r = Some true →
   start r = inl (Exception "Runner is already running")) ∧
  (_thread r ≠ Some true →
   ∃ r', start r = inr r' ∧ _status r' = running ∧
         _stop_requested r' = false ∧ _thread r' = Some true ∧
         _current_attempt r' = _current_attempt r ∧
         _error_message r' = _error_message r).
Proof.
  unfold start. split; intros H.
  - by rewrite bool_decide_eq_true_2.
  - rewrite bool_decide_eq_false_2 by done. eauto 10.
Qed.

Lemma C7_witness :
  start (set_thread (Some true) (RalphLoopRunner Scenario.gui_params))
    = inl (Exception "Runner is already running") ∧
  ∃ r', start Scenario.finished.1 = inr r' ∧ _status r' = running.
Proof.
  split.
  - apply (C7_start_raises_iff_thread_alive
             (set_thread (Some true) (RalphLoopRunner Scenario.gui_params))).
    reflexivity.
  - destruct (C7_start_raises_iff_thread_alive Scenario.finished.1) as [_ H].
    destruct H as (r' & ? & ? & _); [vm_compute; discriminate|]. eauto.
Defined.

(** C7 as stated fails: a runner that has reached [completed] and whose
    thread has returned is started again without an error. *)
Lemma C7_counterexample :
  terminal (_status Scenario.finished.1) = true ∧
  _thread Scenario.finished.1 = Some false ∧
  ∃ r', start Scenario.finished.1 = inr r' ∧ _status r' = running.
Proof. vm_compute. eauto. Qed.

(** C8, as amended.  In every state [force_kill] sets the stop request,
    clears the is-waiting and is-paused flags, sets the status to [stopped]
    and empties the process handle; the child the handle pointed to is no
    longer running.  Its descendants are all killed on Windows when the child
    was still running; they are left as they were on other platforms, and on
    Windows when the child had already exited.  A queued pause request and
    the missing-checkpoint flag are left as they were. *)
Theorem C8_force_kill_effect (win : bool) (s : St) :
  let s' := force_kill win s in
  _stop_requested s'.1 = true ∧ _is_waiting s'.1 = false ∧
  _is_paused s'.1 = false ∧ _status s'.1 = stopped ∧
  _current_process s'.1 = None ∧
  _pause_requested s'.1 = _pause_requested s.1 ∧
  _missing_checkpoint_pause s'.1 = _missing_checkpoint_pause s.1 ∧
  match _current_process s.1 with
  | Some pid =>
      proc_running pid s'.2 = false ∧
      live_descendants pid s'.2 =
        (if win && proc_running pid s.2 then ∅ else live_descendants pid s.2)
  | None => s'.2 = s.2
  end.
Proof.
  destruct s as [r w]. unfold force_kill; simpl.
  destruct (_current_process r) as [pid|] eqn:E; simpl; [|by rewrite E].
  repeat split; try done.
  - destruct win.
    + destruct (taskkill_tree_spec pid w) as [Hr _].
      unfold wait_timeout. by rewrite Hr.
    + unfold wait_timeout.
      destruct (proc_running pid (terminate false pid w)) eqn:Hr; simpl;
        [apply kill_not_running | done].
  - destruct win; simpl.
    + destruct (taskkill_tree_spec pid w) as [Hr Hd].
      unfold wait_timeout. by rewrite Hr.
    + destruct (wait_timeout _ _); simpl;
        rewrite ?kill_descendants; apply terminate_descendants.
Qed.

(** On Windows the same call leaves no descendant alive. *)
Example force_kill_windows_kills_tree :
  live_descendants 7 (force_kill (windows Scenario.win32) Scenario.with_child).2
    = ∅.
Proof. vm_compute. reflexivity. Qed.

(** On Windows too a descendant can outlive [force_kill]: the agent spawns
    process 200, a stop request then ends the invocation with [terminate()]
    on the child alone, and the run ends as stopped with the handle still
    pointing to the exited child.  [taskkill] on its pid finds no process. *)
Example force_kill_windows_exited_child :
  let s := res_state (run Scenario.win32 Scenario.gui_params
                        (Scenario.folder_with [PIN_SPEC])
                        [[ProcFork 100 200]; [Op CmdStop]]) in
  _status s.1 = stopped ∧ _current_process s.1 = Some 100%nat ∧
  proc_running 100 s.2 = false ∧
  live_descendants 100 s.2 = {[200%nat]} ∧
  live_descendants 100 (force_kill (windows Scenario.win32) s).2 = {[200%nat]}.
Proof. vm_compute. by repeat split. Qed.

(** C8 as stated fails: on a POSIX host a process spawned by the child is
    still alive after [force_kill]. *)
Lemma C8_counterexample :
  _current_process Scenario.with_child.1 = Some 7%nat ∧
  live_descendants 7 Scenario.with_child.2 = {[8%nat]} ∧
  live_descendants 7 (force_kill false Scenario.with_child).2 = {[8%nat]} ∧
  live_descendants 7 (force_kill false Scenario.with_child).2 ≠ ∅.
Proof.
  split; [reflexivity|]. split; [reflexivity|].
  assert (live_descendants 7 (force_kill false Scenario.with_child).2
          = {[8%nat]}) as H by (vm_compute; reflexivity).
  split; [exact H|]. rewrite H. intros Heq.
  assert (8%nat ∈ (∅ : gset nat)) by (rewrite <- Heq; set_solver).
  set_solver.
Qed.

(** ** The monad and the small steps of the loop *)

Ltac unfold_m :=
  unfold andthen in *; unfold mbind, M_bind, mret, M_ret in *;
  unfold bind, ret, modify, modify_world, get_runner, get_world, raise,
    try_except in *.

Lemma andthen_fall (m k : M Flow) s tr s1 tr1 :
  m s tr = Val Fall s1 tr1 → (m >>> k) s tr = k s1 tr1.
Proof. intros H. unfold_m. by rewrite H. Qed.

Lemma andthen_assoc (a b c : M Flow) s tr :
  ((a >>> b) >>> c) s tr = (a >>> b >>> c) s tr.
Proof.
  unfold_m. destruct (a s tr) as [[] ? ?| |]; try done.
Qed.

Lemma file_exists_eq f s tr :
  _file_exists f s tr = Val (exists_in s.2 f) s tr.
Proof. by destruct s. Qed.

Lemma set_fs_same w : set_fs (fs w) w = w.
Proof. by destruct w. Qed.

Lemma delete_absent (m : gmap string string) f :
  bool_decide (is_Some (m !! f)) = false → delete f m = m.
Proof.
  intros H. apply bool_decide_eq_false_1 in H. apply delete_id.
  by apply eq_None_not_Some.
Qed.

(** [_remove_file] is deletion from the folder, whether or not the file is
    there. *)
Lemma remove_file_eq f s tr :
  _remove_file f s tr = Val tt (s.1, set_fs (delete f (fs s.2)) s.2) tr.
Proof.
  destruct s as [r w]. unfold _remove_file, bind. rewrite file_exists_eq; simpl.
  destruct (exists_in w f) eqn:E; [done|].
  unfold ret. unfold exists_in in E. by rewrite (delete_absent _ _ E), set_fs_same.
Qed.

Lemma exists_in_delete w f g :
  exists_in (set_fs (delete f (fs w)) w) g =
    if bool_decide (f = g) then false else exists_in w g.
Proof.
  unfold exists_in; simpl. destruct (decide (f = g)) as [->|Hne].
  - rewrite lookup_delete_eq, (bool_decide_eq_true_2 (g = g)) by done.
    apply bool_decide_eq_false_2. by intros [? ?].
  - by rewrite lookup_delete_ne, (bool_decide_eq_false_2 (f = g)).
Qed.

Arguments exists_in : simpl never.

Lemma remove_if_exists_eq f s tr :
  (if exists_in s.2 f then _remove_file f else ret tt) s tr
  = Val tt (s.1, set_fs (delete f (fs s.2)) s.2) tr.
Proof.
  destruct (exists_in s.2 f) eqn:E; [apply remove_file_eq|].
  destruct s as [r w]. unfold ret, exists_in in *; simpl in *.
  by rewrite (delete_absent _ _ E), set_fs_same.
Qed.

(** The done/blocked check in closed form. *)
Lemma terminal_check_eq s tr :
  terminal_check s tr =
    if exists_in s.2 DONE_FILE then
      Val Return (set_status completed s.1,
                  set_fs (delete CHECKPOINT_FILE (fs s.2)) s.2) tr
    else if exists_in s.2 BLOCKED_FILE then
      Val Return (set_status blocked s.1,
                  set_fs (delete CHECKPOINT_FILE (fs s.2)) s.2) tr
    else Val Fall s tr.
Proof.
  unfold terminal_check. unfold bind at 1. rewrite file_exists_eq.
  destruct (exists_in s.2 DONE_FILE).
  - unfold mbind, M_bind. unfold bind at 1. rewrite file_exists_eq.
    unfold bind at 1. by rewrite remove_if_exists_eq.
  - unfold bind at 1. rewrite file_exists_eq.
    destruct (exists_in s.2 BLOCKED_FILE); [|done].
    unfold mbind, M_bind. unfold bind at 1. rewrite file_exists_eq.
    unfold bind at 1. by rewrite remove_if_exists_eq.
Qed.

Lemma stop_check_eq s tr :
  stop_check s tr =
    if _stop_requested s.1 || exists_in s.2 STOP_FILE
    then Val Return (set_status stopped s.1, s.2) tr
    else Val Fall s tr.
Proof.
  unfold stop_check, bind, get_runner. rewrite file_exists_eq.
  by destruct (_ || _).
Qed.

(** The checkpoint step in closed form. *)
Lemma checkpoint_step_eq host s tr :
  checkpoint_step host s tr =
    if exists_in s.2 CHECKPOINT_FILE then
      (_wait_with_state host "checkpoint" (sleep_seconds (params s.1));;
       ret Continue)
        (s.1, set_fs (delete CHECKPOINT_FILE (fs s.2)) s.2) tr
    else Val Fall s tr.
Proof.
  unfold checkpoint_step. unfold bind at 1. rewrite file_exists_eq.
  destruct (exists_in s.2 CHECKPOINT_FILE); [|done].
  unfold mbind, M_bind. unfold bind at 1. by rewrite remove_file_eq.
Qed.

(** ** What a polling interval can and cannot change *)

Lemma evolves_refl s : evolves s s.
Proof. constructor; auto. Qed.

Lemma evolves_trans s1 s2 s3 : evolves s1 s2 → evolves s2 s3 → evolves s1 s3.
Proof.
  intros [] []. constructor; try congruence.
  - destruct ev_status1 as [E|[E E']]; [rewrite E; tauto|].
    right. split; [congruence|auto].
  - auto.
  - destruct ev_waiting1 as [E|E]; [rewrite E; tauto|auto].
Qed.

Lemma force_kill_evolves win s : evolves s (force_kill win s).
Proof.
  destruct s as [r w]. unfold force_kill; simpl.
  destruct (_current_process r) as [pid|]; simpl.
  - destruct win; [unfold taskkill_tree; destruct (proc_running pid w)|];
      destruct (wait_timeout _ _); constructor; simpl; auto.
  - constructor; simpl; auto.
Qed.

Lemma apply_action_evolves win a s : evolves s (apply_action win a s).
Proof.
  destruct a as [[]| | | | |]; simpl;
    try (constructor; simpl; by auto).
  - unfold pause. destruct (_is_paused s.1); constructor; simpl; auto.
  - apply force_kill_evolves.
Qed.

Lemma foldl_actions_evolves win t s :
  evolves s (foldl (fun s a => apply_action win a s) s t).
Proof.
  revert s. induction t as [|a t IH]; intros s; simpl; [apply evolves_refl|].
  eapply evolves_trans; [apply apply_action_evolves | apply IH].
Qed.

Lemma apply_tick_evolves win d t s : evolves s (apply_tick win d t s).
Proof.
  unfold apply_tick. eapply evolves_trans; [|apply foldl_actions_evolves].
  constructor; simpl; auto.
Qed.

(** ** Timed waits *)

Lemma wait_loop_spec host n s tr :
  evolves s (res_state (wait_loop host n s tr)) ∧
  match wait_loop host n s tr with
  | Val _ _ _ => True
  | Raised _ _ _ => False
  | Parked s2 => _stop_requested s2.1 = false
  end.
Proof.
  revert s tr. induction n as [|n IH]; intros s tr; simpl.
  - split; [apply evolves_refl|done].
  - unfold bind, get_runner. destruct (_stop_requested s.1) eqn:E; simpl.
    + split; [apply evolves_refl|done].
    + unfold mbind, M_bind, bind, sleep. destruct tr as [|t tr]; simpl.
      * split; [apply evolves_refl|done].
      * destruct (IH (apply_tick (windows host) 5 t s) tr) as [H1 H2].
        split; [|done].
        eapply evolves_trans; [apply apply_tick_evolves|done].
Qed.

Lemma wait_with_state_waited host reason d (k : Flow) s tr :
  waited reason d s
    ((_wait_with_state host reason d;; ret k) s tr).
Proof.
  destruct s as [r w].
  unfold _wait_with_state, _set_waiting, _clear_waiting.
  unfold_m; simpl.
  match goal with |- context [wait_loop host ?n ?s0 tr] =>
    destruct (wait_loop_spec host n s0 tr) as [Hev Hr];
    destruct (wait_loop host n s0 tr) as [[] s2 tr2| |s2] eqn:E
  end; simpl in *; [|done|].
  - destruct Hev; simpl in *. unfold waited; simpl.
    repeat split; try done. destruct ev_status0 as [?|[? ?]]; auto.
  - destruct Hev; simpl in *. unfold waited; simpl.
    repeat split; try done.
    + destruct ev_status0 as [?|[? ?]]; auto.
    + destruct ev_waiting0; congruence.
Qed.

(** A wait returns once as many polling intervals as it can last have gone
    by (earlier when a stop is requested). *)
Lemma wait_loop_returns host n s tr :
  (n ≤ length tr)%nat → ∃ s2 tr2, wait_loop host n s tr = Val tt s2 tr2.
Proof.
  revert s tr. induction n as [|n IH]; intros s tr Hn; simpl; [by eexists _, _|].
  unfold bind at 1. unfold get_runner.
  destruct (_stop_requested s.1); [by eexists _, _|].
  destruct tr as [|t tr]; simpl in Hn; [lia|].
  unfold mbind, M_bind. unfold bind at 1. simpl. apply IH. lia.
Qed.

Lemma wait_with_state_returns host reason d (k : Flow) s tr :
  (Z.to_nat (2 * d) ≤ length tr)%nat →
  ∃ s2 tr2, (_wait_with_state host reason d;; ret k) s tr = Val k s2 tr2.
Proof.
  intros Hn. unfold _wait_with_state, _set_waiting, _clear_waiting.
  unfold_m; simpl.
  match goal with |- context [wait_loop host ?n ?s0 tr] =>
    destruct (wait_loop_returns host n s0 tr Hn) as (s2 & tr2 & ->)
  end.
  by eexists _, _.
Qed.

Lemma no_stop_action_keeps win a s :
  no_stop_action a = true →
  _stop_requested (apply_action win a s).1 = _stop_requested s.1 ∧
  now (apply_action win a s).2 = now s.2.
Proof.
  destruct a as [[]| | | | |]; simpl; try done.
  unfold pause. by destruct (_is_paused s.1).
Qed.

Lemma no_stop_actions_keep win t s :
  forallb no_stop_action t = true →
  _stop_requested (foldl (fun s a => apply_action win a s) s t).1
    = _stop_requested s.1 ∧
  now (foldl (fun s a => apply_action win a s) s t).2 = now s.2.
Proof.
  revert s. induction t as [|a t IH]; intros s Hq; simpl in *; [done|].
  apply andb_true_iff in Hq as [Ha Hq].
  destruct (IH (apply_action win a s) Hq) as [-> ->].
  by apply no_stop_action_keeps.
Qed.

Lemma no_stop_tick_keeps win d t s :
  no_stop t = true →
  _stop_requested (apply_tick win d t s).1 = _stop_requested s.1 ∧
  now (apply_tick win d t s).2 = now s.2 + d.
Proof.
  intros Hq. unfold apply_tick.
  by destruct (no_stop_actions_keep win t (s.1, set_now (now s.2 + d) s.2) Hq)
    as [-> ->].
Qed.

Lemma wait_loop_quiet host n q rest s :
  _stop_requested s.1 = false →
  forallb no_stop q = true →
  (length q ≤ n)%nat →
  wait_loop host n s (q ++ rest)
    = wait_loop host (n - length q) (elapse (windows host) 5 q s) rest ∧
  _stop_requested (elapse (windows host) 5 q s).1 = false ∧
  now (elapse (windows host) 5 q s).2 = now s.2 + 5 * Z.of_nat (length q) ∧
  evolves s (elapse (windows host) 5 q s).
Proof.
  revert n s. induction q as [|t q IH]; intros n s Hs Hq Hn; simpl in *.
  - rewrite Nat.sub_0_r.
    split; [done|]. split; [done|]. split; [lia|apply evolves_refl].
  - apply andb_true_iff in Hq as [Ht Hq].
    destruct n as [|n]; [lia|]. simpl.
    unfold bind at 1. unfold get_runner. rewrite Hs.
    unfold mbind, M_bind. unfold bind at 1. simpl.
    destruct (no_stop_tick_keeps (windows host) 5 t s Ht) as [Hs' Hnow].
    destruct (IH n (apply_tick (windows host) 5 t s)) as (E & H1 & H2 & H3);
      [congruence|done|lia|].
    split; [exact E|]. split; [exact H1|]. split; [rewrite H2, Hnow; lia|].
    eapply evolves_trans; [apply apply_tick_evolves|exact H3].
Qed.

Lemma wait_loop_0 host s tr : wait_loop host 0 s tr = Val tt s tr.
Proof. done. Qed.

(** A wait during which no stop is requested consumes its polling intervals
    one by one: when as many as it lasts have gone by it returns with the
    descriptor cleared, and while fewer have gone by the runner is parked in
    it, showing the reason and the duration.  The status is left as it
    was. *)
Lemma wait_with_state_quiet host reason d (k : Flow) s q rest :
  _stop_requested s.1 = false →
  forallb no_stop q = true →
  (length q = Z.to_nat (2 * d) →
   ∃ s2, (_wait_with_state host reason d;; ret k) s (q ++ rest)
         = Val k s2 rest ∧
         _status s2.1 = _status s.1 ∧ _is_waiting s2.1 = false ∧
         _stop_requested s2.1 = false ∧
         now s2.2 = now s.2 + 5 * Z.of_nat (length q)) ∧
  ((length q < Z.to_nat (2 * d))%nat →
   ∃ s2, (_wait_with_state host reason d;; ret k) s q = Parked s2 ∧
         _status s2.1 = _status s.1 ∧ _is_waiting s2.1 = true ∧
         _waiting_reason s2.1 = reason ∧ _waiting_duration s2.1 = d ∧
         now s2.2 = now s.2 + 5 * Z.of_nat (length q)).
Proof.
  intros Hs Hq. destruct s as [r w]. split; intros Hlen.
  - unfold _wait_with_state, _set_waiting, _clear_waiting. unfold_m; simpl.
    match goal with |- context [wait_loop host ?n ?s0 (q ++ rest)] =>
      destruct (wait_loop_quiet host n q rest s0) as (E & H1 & H2 & H3);
        [done|done|lia|]
    end.
    rewrite E, Hlen, Nat.sub_diag, wait_loop_0.
    eexists. split; [reflexivity|]. simpl in *.
    destruct H3 as [_ _ _ _ _ _ _ Hst _ _]; simpl in *.
    repeat split; try done.
    + destruct Hst as [?|[_ ?]]; [done|congruence].
    + by rewrite H2, Hlen.
  - unfold _wait_with_state, _set_waiting, _clear_waiting. unfold_m; simpl.
    match goal with |- context [wait_loop host ?n ?s0 q] =>
      destruct (wait_loop_quiet host n q [] s0) as (E & H1 & H2 & H3);
        [done|done|lia|]
    end.
    rewrite app_nil_r in E. rewrite E.
    destruct (Z.to_nat (2 * d) - length q)%nat as [|n] eqn:En; [lia|].
    simpl. unfold bind at 1. unfold get_runner. rewrite H1.
    unfold mbind, M_bind, bind, sleep.
    eexists. split; [reflexivity|].
    destruct H3 as [_ _ _ _ _ Hre Hdu Hst _ Hw]; simpl in *.
    repeat split; try done.
    + destruct Hst as [?|[_ ?]]; [done|congruence].
    + destruct Hw; congruence.
Qed.

(** ** The loop body *)

(** The statements of the body after the stop check, and after the
    invocation. *)
Lemma body_after_stop_check host attempt s tr s1 tr1 :
  (pause_boundary host attempt >>> stop_check) s tr = Val Fall s1 tr1 →
  body host attempt s tr =
    (terminal_check >>> checkpoint_step host >>> invoke_step host >>>
     terminal_check >>> checkpoint_step host >>> missing_checkpoint_gate host)
      s1 tr1.
Proof.
  intros H. unfold body. rewrite <- andthen_assoc. by apply andthen_fall.
Qed.

Lemma body_after_invocation host attempt s tr s1 tr1 :
  upto_invocation host attempt s tr = Val Fall s1 tr1 →
  body host attempt s tr =
    (terminal_check >>> checkpoint_step host >>> missing_checkpoint_gate host)
      s1 tr1.
Proof.
  intros H. unfold body.
  transitivity
    (((pause_boundary host attempt >>> stop_check >>> terminal_check >>>
       checkpoint_step host >>> invoke_step host) >>>
      terminal_check >>> checkpoint_step host >>> missing_checkpoint_gate host)
       s tr).
  - unfold_m.
    destruct (pause_boundary host attempt s tr) as [[] ? ?| |]; try done.
    destruct (stop_check _ _) as [[] ? ?| |]; try done.
    destruct (terminal_check _ _) as [[] ? ?| |]; try done.
    destruct (checkpoint_step host _ _) as [[] ? ?| |]; try done.
  - by apply andthen_fall.
Qed.

Lemma pause_poll_evolves host tr s :
  evolves s (res_state (pause_poll host tr s)).
Proof.
  revert s. induction tr as [|t tr IH]; intros s; simpl;
    destruct (_ && _); simpl; try apply evolves_refl.
  eapply evolves_trans; [apply apply_tick_evolves | apply IH].
Qed.


(** C1.  At both places where an attempt checks for the done and blocked
    files (after the stop check, and after a successful invocation), when
    either file is there the attempt returns from the loop at once: the
    status is [completed] when the done file is there and [blocked] otherwise,
    the checkpoint file is gone, and neither the checkpoint wait nor an
    invocation has taken place, so the check comes before the checkpoint
    check. *)
Theorem C1_done_blocked_precede_checkpoint host attempt s tr s1 tr1 :
  (pause_boundary host attempt >>> stop_check) s tr = Val Fall s1 tr1 ∨
  upto_invocation host attempt s tr = Val Fall s1 tr1 →
  exists_in s1.2 DONE_FILE || exists_in s1.2 BLOCKED_FILE = true →
  ∃ s2, body host attempt s tr = Val Return s2 tr1 ∧
    _status s2.1 = (if exists_in s1.2 DONE_FILE then completed else blocked) ∧
    fs s2.2 = delete CHECKPOINT_FILE (fs s1.2) ∧
    exists_in s2.2 CHECKPOINT_FILE = false ∧
    invocations s2.2 = invocations s1.2 ∧
    waits s2.2 = waits s1.2.
Proof.
  intros Hreach Hfile.
  assert (∀ k : M Flow, ∃ s2, (terminal_check >>> k) s1 tr1 = Val Return s2 tr1 ∧
    _status s2.1 = (if exists_in s1.2 DONE_FILE then completed else blocked) ∧
    fs s2.2 = delete CHECKPOINT_FILE (fs s1.2) ∧
    exists_in s2.2 CHECKPOINT_FILE = false ∧
    invocations s2.2 = invocations s1.2 ∧ waits s2.2 = waits s1.2) as Hk.
  { intros k. unfold andthen, bind. rewrite terminal_check_eq.
    destruct (exists_in s1.2 DONE_FILE); simpl in Hfile.
    - eexists; split; [done|]. simpl. repeat split.
      rewrite exists_in_delete. by rewrite bool_decide_eq_true_2.
    - rewrite Hfile. eexists; split; [done|]. simpl. repeat split.
      rewrite exists_in_delete. by rewrite bool_decide_eq_true_2. }
  destruct Hreach as [H|H].
  - rewrite (body_after_stop_check _ _ _ _ _ _ H). apply Hk.
  - rewrite (body_after_invocation _ _ _ _ _ _ H). apply Hk.
Qed.

Lemma C1_witness :
  ∃ s2,
    body Scenario.posix 1 (Scenario.started Scenario.gui_params [PIN_SPEC])
      Scenario.agent_finishes_with_checkpoint = Val Return s2 [[]] ∧
    _status s2.1 = completed ∧
    exists_in s2.2 CHECKPOINT_FILE = false.
Proof.
  destruct (C1_done_blocked_precede_checkpoint Scenario.posix 1
              (Scenario.started Scenario.gui_params [PIN_SPEC])
              Scenario.agent_finishes_with_checkpoint
              (res_state (upto_invocation Scenario.posix 1
                 (Scenario.started Scenario.gui_params [PIN_SPEC])
                 Scenario.agent_finishes_with_checkpoint))
              [[]])
    as (s2 & Hb & Hs & _ & Hc & _).
  - right. vm_compute. reflexivity.
  - vm_compute. reflexivity.
  - exists s2. split; [exact Hb|]. split; [|exact Hc].
    rewrite Hs. vm_compute. reflexivity.
Defined.



(** ** The missing-checkpoint gate *)

Lemma quiet_actions_same_gate win qa s :
  forallb quiet_action qa = true →
  same_gate s (foldl (fun s a => apply_action win a s) s qa) ∧
  evolves s (foldl (fun s a => apply_action win a s) s qa).
Proof.
  revert s. induction qa as [|a qa IH]; intros s Hq; simpl in *.
  - split; [by unfold same_gate | apply evolves_refl].
  - apply andb_true_iff in Hq as [Ha Hq].
    destruct (IH (apply_action win a s) Hq) as [(H1 & H2 & H3 & H4) Hev].
    split; [|eapply evolves_trans; [apply apply_action_evolves | exact Hev]].
    unfold same_gate. rewrite H1, H2, H3, H4. clear -Ha.
    destruct a as [[]| | | | |]; simpl in *; try done.
    unfold pause. by destruct (_is_paused s.1).
Qed.

Lemma quiet_tick_same_gate win d t s :
  quiet t = true →
  same_gate s (apply_tick win d t s) ∧ evolves s (apply_tick win d t s).
Proof.
  intros Hq. unfold apply_tick.
  destruct (quiet_actions_same_gate win t (s.1, set_now (now s.2 + d) s.2) Hq)
    as [Hg Hev].
  split; [exact Hg|]. apply apply_tick_evolves.
Qed.

(** While only quiet intervals go by the gate keeps polling. *)
Lemma decision_poll_quiet host q rest s :
  forallb quiet q = true →
  _missing_checkpoint_pause s.1 = true →
  _stop_requested s.1 = false →
  ∃ s', decision_poll host (q ++ rest) s = decision_poll host rest s' ∧
        same_gate s s' ∧ evolves s s'.
Proof.
  revert s. induction q as [|t q IH]; intros s Hq Hp Hs; simpl in *.
  - exists s. split; [done|]. split; [by unfold same_gate | apply evolves_refl].
  - apply andb_true_iff in Hq as [Ht Hq]. rewrite Hp, Hs; simpl.
    destruct (quiet_tick_same_gate (windows host) 5 t s Ht)
      as [(H1 & H2 & H3 & H4) Hev].
    destruct (IH (apply_tick (windows host) 5 t s) Hq) as (s' & E & Hg & Hev').
    { by rewrite H1. } { by rewrite H2. }
    exists s'. split; [exact E|].
    destruct Hg as (G1 & G2 & G3 & G4).
    split; [unfold same_gate; by rewrite G1, G2, G3, G4|].
    eapply evolves_trans; eauto.
Qed.

Lemma decision_poll_done host tr s :
  _missing_checkpoint_pause s.1 && negb (_stop_requested s.1) = false →
  decision_poll host tr s = Val tt s tr.
Proof. intros H. destruct tr; simpl; by rewrite H. Qed.

(** The gate in closed form, by the outcome of its polling. *)
Lemma gate_eq host s tr :
  missing_checkpoint_gate host s tr =
    match decision_poll host tr (gate_entry s) with
    | Val _ s2 tr2 =>
        if _stop_requested s2.1 then Val Return (set_status stopped s2.1, s2.2) tr2
        else if bool_decide (_user_continue_decision s2.1 = Some false)
        then Val Return (set_status stopped s2.1, s2.2) tr2
        else (_wait_with_state host "cooldown" (sleep_seconds (params s2.1));;
              ret Fall) (set_status running s2.1, s2.2) tr2
    | Raised e s2 tr2 => Raised e s2 tr2
    | Parked s2 => Parked s2
    end.
Proof.
  unfold missing_checkpoint_gate, decision_wait. unfold_m; simpl.
  fold (gate_entry s).
  destruct (decision_poll host tr (gate_entry s)) as [[] s2 tr2| |]; try done.
  simpl. destruct (_stop_requested s2.1); [done|].
  by destruct (bool_decide _).
Qed.

Lemma force_kill_stop_requested win s :
  _stop_requested (force_kill win s).1 = true.
Proof. unfold force_kill. by destruct (_current_process _). Qed.

Lemma apply_tick_last win d qa c s :
  forallb quiet_action qa = true →
  ∃ s_mid, apply_tick win d (qa ++ [Op c]) s = apply_command win c s_mid ∧
           same_gate s s_mid ∧ evolves s s_mid.
Proof.
  intros Hq. unfold apply_tick. rewrite foldl_app; simpl.
  eexists. split; [done|].
  destruct (quiet_actions_same_gate win qa (s.1, set_now (now s.2 + d) s.2) Hq)
    as [Hg Hev].
  split; [exact Hg|].
  eapply evolves_trans; [|exact Hev]. constructor; simpl; auto.
Qed.

(** C9.  When an invocation has succeeded and none of the done, blocked and
    checkpoint files is there, the attempt enters the gate: as long as only
    quiet polling intervals go by the thread stays blocked with status
    [missing_checkpoint].  A stop request, a [force_kill] or the "stop"
    decision ends the run with status [stopped].  The "continue" decision sets
    the status back to [running] and enters the wait with reason "cooldown"
    and the configured delay [d].  When no stop is requested during it, the
    wait consumes [2 * d] polling intervals of half a second, with the status
    [running]: while fewer have gone by the thread is parked in the wait,
    showing the reason and the delay; once they have gone by the wait is
    over, the body ends, and the loop goes on with the next attempt from the
    intervals that follow. *)
Theorem C9_missing_checkpoint_gate host attempt s tr s1 tr1 :
  upto_invocation host attempt s tr = Val Fall s1 tr1 →
  exists_in s1.2 DONE_FILE = false →
  exists_in s1.2 BLOCKED_FILE = false →
  exists_in s1.2 CHECKPOINT_FILE = false →
  _stop_requested s1.1 = false →
  let d := sleep_seconds (params s1.1) in
  let R := body host attempt s tr in
  ∀ q, forallb quiet q = true →
    (tr1 = q →
     ∃ s2, R = Parked s2 ∧ _status s2.1 = missing_checkpoint ∧
           _missing_checkpoint_pause s2.1 = true ∧
           invocations s2.2 = invocations s1.2) ∧
    (∀ qa c rest,
       forallb quiet_action qa = true →
       tr1 = q ++ (qa ++ [Op c]) :: rest →
       match c with
       | CmdStop | CmdForceKill | CmdStopMissing =>
           ∃ s2, R = Val Return s2 rest ∧ _status s2.1 = stopped
       | CmdContinue =>
           ∃ s3, _status s3.1 = running ∧
                 waits s3.2 = waits s1.2 ∧
                 invocations s3.2 = invocations s1.2 ∧
                 R = (_wait_with_state host "cooldown" d;; ret Fall) s3 rest ∧
                 waited "cooldown" d s3 R ∧
                 ((Z.to_nat (2 * d) ≤ length rest)%nat →
                  ∃ s2 tr2, R = Val Fall s2 tr2) ∧
                 match R with
                 | Val f s2 tr2 =>
                     f = Fall ∧
                     ∀ n, for_range host (S n) attempt s tr =
                          for_range host n (attempt + 1) s2 tr2
                 | _ => True
                 end ∧
                 ∀ w rest', rest = w ++ rest' → forallb no_stop w = true →
                   (length w = Z.to_nat (2 * d) →
                    ∃ s2, R = Val Fall s2 rest' ∧
                          _status s2.1 = running ∧ _is_waiting s2.1 = false ∧
                          now s2.2 = now s3.2 + 5 * Z.of_nat (length w) ∧
                          ∀ n, for_range host (S n) attempt s tr =
                               for_range host n (attempt + 1) s2 rest') ∧
                   ((length w < Z.to_nat (2 * d))%nat → rest' = [] →
                    ∃ s2, R = Parked s2 ∧
                          _status s2.1 = running ∧ _is_waiting s2.1 = true ∧
                          _waiting_reason s2.1 = "cooldown" ∧
                          _waiting_duration s2.1 = d ∧
                          now s2.2 = now s3.2 + 5 * Z.of_nat (length w))
       | CmdPause | CmdResume => True
       end).
Proof.
  intros Hreach Hd Hb Hc Hstop d R q Hq.
  assert (R = missing_checkpoint_gate host s1 tr1) as HR.
  { subst R. rewrite (body_after_invocation _ _ _ _ _ _ Hreach).
    unfold andthen at 1. unfold bind at 1. rewrite terminal_check_eq, Hd, Hb.
    unfold andthen at 1. unfold bind at 1. by rewrite checkpoint_step_eq, Hc. }
  rewrite gate_eq in HR.
  assert (_missing_checkpoint_pause (gate_entry s1).1 = true) as Hp by done.
  assert (_stop_requested (gate_entry s1).1 = false) as Hs by done.
  split.
  - intros ->.
    destruct (decision_poll_quiet host q [] (gate_entry s1) Hq Hp Hs)
      as (s' & E & (G1 & G2 & G3 & G4) & Hev).
    rewrite app_nil_r in E. rewrite E in HR. simpl in HR.
    rewrite G1, G2, Hp, Hs in HR. simpl in HR.
    exists s'. split; [exact HR|]. rewrite G4, G1. destruct Hev. by simpl in *.
  - intros qa c rest Hqa ->.
    destruct (decision_poll_quiet host q ((qa ++ [Op c]) :: rest)
                (gate_entry s1) Hq Hp Hs)
      as (s' & E & (G1 & G2 & G3 & G4) & Hev).
    rewrite E in HR. simpl in HR. rewrite G1, G2, Hp, Hs in HR. simpl in HR.
    pose proof (apply_tick_evolves (windows host) 5 (qa ++ [Op c]) s') as Hev2.
    destruct (apply_tick_last (windows host) 5 qa c s' Hqa)
      as (sm & Et & (M1 & M2 & M3 & M4) & _).
    rewrite Et in HR, Hev2.
    assert (_missing_checkpoint_pause sm.1 = true) as Hpm by congruence.
    assert (_stop_requested sm.1 = false) as Hsm by congruence.
    destruct c; try done.
    + (* stop *)
      rewrite decision_poll_done in HR by (simpl; apply andb_false_r).
      simpl in HR. eexists. split; [exact HR|done].
    + (* force_kill *)
      rewrite decision_poll_done in HR
        by (simpl; rewrite force_kill_stop_requested; apply andb_false_r).
      simpl in HR. rewrite force_kill_stop_requested in HR.
      eexists. split; [exact HR|done].
    + (* continue *)
      rewrite decision_poll_done in HR by done.
      simpl in HR. rewrite Hsm in HR.
      pose proof (evolves_trans _ _ _ Hev Hev2) as [Pp Pi Pw _ _ _ _ _ _ _].
      simpl in Pp, Pi, Pw. rewrite Pp in HR. fold d in HR.
      eexists.
      split; [|split; [|split; [|split; [exact HR|split; [|split; [|split]]]]]];
        [done|exact Pw|exact Pi|..].
      * rewrite HR. apply wait_with_state_waited.
      * intros Hn. rewrite HR. by apply wait_with_state_returns.
      * destruct R as [f s2 tr2| |] eqn:ER; [|done..].
        assert (f = Fall) as ->.
        { revert HR. unfold mbind, M_bind, bind, ret.
          destruct (_wait_with_state host "cooldown" d _ rest); congruence. }
        split; [done|]. intros n. simpl. unfold bind at 1.
        subst R. by rewrite ER.
      * intros w rest' -> Hw.
        match type of HR with _ = _ ?s3 _ =>
          destruct (wait_with_state_quiet host "cooldown" d Fall s3 w rest')
            as [Hfull Hpart]; [exact Hsm|exact Hw|]
        end.
        split.
        -- intros Hlen. destruct (Hfull Hlen) as (s2 & E2 & S1 & S2 & _ & S3).
           assert (R = Val Fall s2 rest') as ER by (rewrite HR; exact E2).
           exists s2.
           split; [exact ER|]. split; [exact S1|]. split; [exact S2|].
           split; [exact S3|].
           intros n. simpl. unfold bind at 1. subst R. by rewrite ER.
        -- intros Hlen ->. destruct (Hpart Hlen) as (s2 & E2 & S1 & S2 & S3).
           exists s2. rewrite HR, app_nil_r. by split.
    + (* the stop decision *)
      rewrite decision_poll_done in HR by done.
      simpl in HR. rewrite Hsm in HR.
      eexists. split; [exact HR|done].
Qed.

Lemma C9_witness :
  ∃ s2,
    body Scenario.posix 1 (Scenario.started Scenario.gui_params [PIN_SPEC])
      Scenario.agent_silent_then_continue = Val Fall s2 [] ∧
    _status s2.1 = running ∧ _is_waiting s2.1 = false ∧
    waits (res_state
             (body Scenario.posix 1
                (Scenario.started Scenario.gui_params [PIN_SPEC])
                Scenario.agent_silent_then_continue)).2 = [("cooldown", 2)] ∧
    now (res_state
           (body Scenario.posix 1
              (Scenario.started Scenario.gui_params [PIN_SPEC])
              Scenario.agent_silent_then_continue)).2 = 39.
Proof.
  pose proof (C9_missing_checkpoint_gate Scenario.posix 1
              (Scenario.started Scenario.gui_params [PIN_SPEC])
              Scenario.agent_silent_then_continue
              (res_state (upto_invocation Scenario.posix 1
                 (Scenario.started Scenario.gui_params [PIN_SPEC])
                 Scenario.agent_silent_then_continue))
              [[]; [Op CmdPause]; [Op CmdContinue]; []; []; []; []]) as H.
  destruct (H ltac:(vm_compute; reflexivity) ltac:(vm_compute; reflexivity)
              ltac:(vm_compute; reflexivity) ltac:(vm_compute; reflexivity)
              ltac:(vm_compute; reflexivity)
              [[]; [Op CmdPause]] ltac:(reflexivity)) as [_ H2].
  destruct (H2 [] CmdContinue [[]; []; []; []] ltac:(reflexivity)
              ltac:(reflexivity)) as (s3 & _ & _ & _ & _ & _ & _ & _ & Hw).
  destruct (Hw [[]; []; []; []] [] ltac:(reflexivity) ltac:(reflexivity))
    as [Hfull _].
  destruct (Hfull ltac:(reflexivity)) as (s2 & HR & Hs & Hi & _).
  exists s2. split; [exact HR|]. split; [exact Hs|]. split; [exact Hi|].
  split; vm_compute; reflexivity.
Defined.

(** ** Start-up and exhaustion *)

Lemma startup_missing host s tr :
  exists_in s.2 PIN_SPEC = false →
  startup host s tr =
    Val Return (set_error_message (Some "Missing RALPH-DESIGN.md")
                  (set_status failed s.1), s.2) tr.
Proof.
  intros H. unfold startup. unfold bind at 1. rewrite file_exists_eq, H.
  reflexivity.
Qed.

(** C5.  When the design file is absent from the folder, a runner that is
    constructed and started ends at once: its thread returns with status
    [failed] and the error message "Missing RALPH-DESIGN.md", the attempt
    counter is still 0, and the folder, the process table and the count of
    invocations are what they were; no polling interval is consumed. *)
Theorem C5_missing_design_spec host p w tr :
  exists_in w PIN_SPEC = false →
  ∃ r', run host p w tr = Val tt (r', w) tr ∧
        _status r' = failed ∧
        _error_message r' = Some "Missing RALPH-DESIGN.md" ∧
        "Missing RALPH-DESIGN.md" ≠ "" ∧
        _current_attempt r' = 0 ∧
        _thread r' = Some false ∧
        invocations (res_state (run host p w tr)).2 = invocations w.
Proof.
  intros H.
  assert (∃ r', run host p w tr = Val tt (r', w) tr ∧ _status r' = failed ∧
            _error_message r' = Some "Missing RALPH-DESIGN.md" ∧
            _current_attempt r' = 0 ∧ _thread r' = Some false)
    as (r' & Hrun & ? & ? & ? & ?).
  { unfold run, start; simpl.
    unfold thread_main, _run_loop, try_except. unfold bind at 1.
    unfold andthen at 1. unfold bind at 1.
    rewrite startup_missing by done. simpl.
    eexists. split; [reflexivity|]. by repeat split. }
  exists r'. rewrite Hrun. by repeat split.
Qed.

Lemma C5_witness :
  ∃ r', run Scenario.posix Scenario.gui_params
          (Scenario.folder_with [PLAN_FILE]) Scenario.agent_finishes
        = Val tt (r', Scenario.folder_with [PLAN_FILE]) Scenario.agent_finishes ∧
        _status r' = failed ∧ _current_attempt r' = 0.
Proof.
  destruct (C5_missing_design_spec Scenario.posix Scenario.gui_params
              (Scenario.folder_with [PLAN_FILE]) Scenario.agent_finishes)
    as (r' & H1 & H2 & _ & _ & H3 & _).
  - vm_compute. reflexivity.
  - exists r'. auto.
Defined.

(** C3, as amended.  When start-up succeeds and the [for] loop runs through
    all its attempts without returning, [_run_loop] ends with status [failed]
    and the error message "Max attempts reached"; nothing else changes. *)
Theorem C3_exhaustion host s tr s0 tr0 s1 tr1 :
  startup host s tr = Val Fall s0 tr0 →
  for_range host (Z.to_nat (max_attempts (params s0.1))) 1 s0 tr0
    = Val Fall s1 tr1 →
  _run_loop host s tr =
    Val Fall (set_error_message (Some "Max attempts reached")
                (set_status failed s1.1), s1.2) tr1 ∧
  "Max attempts reached" ≠ "".
Proof.
  intros H0 H1. split; [|done].
  unfold _run_loop, try_except.
  rewrite (andthen_fall _ _ _ _ _ _ H0).
  assert (attempts_loop host s0 tr0 = Val Fall s1 tr1) as H2
    by (unfold attempts_loop, bind, get_runner; exact H1).
  by rewrite (andthen_fall _ _ _ _ _ _ H2).
Qed.

Lemma C3_witness :
  ∃ s2, _run_loop Scenario.posix
          (Scenario.started Scenario.one_attempt [PIN_SPEC; CHECKPOINT_FILE])
          [[]; []; []; []] = Val Fall s2 [] ∧
        _status s2.1 = failed ∧
        _error_message s2.1 = Some "Max attempts reached".
Proof.
  destruct (C3_exhaustion Scenario.posix
              (Scenario.started Scenario.one_attempt [PIN_SPEC; CHECKPOINT_FILE])
              [[]; []; []; []]
              (res_state (startup Scenario.posix
                 (Scenario.started Scenario.one_attempt
                    [PIN_SPEC; CHECKPOINT_FILE]) [[]; []; []; []]))
              [[]; []; []; []]
              (res_state (for_range Scenario.posix 1 1
                 (res_state (startup Scenario.posix
                    (Scenario.started Scenario.one_attempt
                       [PIN_SPEC; CHECKPOINT_FILE]) [[]; []; []; []]))
                 [[]; []; []; []]))
              []) as [H _].
  - vm_compute. reflexivity.
  - vm_compute. reflexivity.
  - eexists. split; [exact H|]. split; reflexivity.
Defined.

(** C3 as stated fails on the text of the message: after a run whose only
    attempt ends in the checkpoint wait the status is [failed] and the
    message is "Max attempts reached", which is not the string
    "max attempts reached". *)
Lemma C3_counterexample :
  let s := res_state (run Scenario.posix Scenario.one_attempt
                        (Scenario.folder_with [PIN_SPEC; CHECKPOINT_FILE])
                        [[]; []; []; []]) in
  _status s.1 = failed ∧
  _current_attempt s.1 = max_attempts Scenario.one_attempt ∧
  _error_message s.1 = Some "Max attempts reached" ∧
  _error_message s.1 ≠ Some "max attempts reached".
Proof. vm_compute. repeat split; discriminate. Qed.

(** ** Stop requests during a wait *)

(** A stop request that arrives during a polling interval of a wait ends
    the wait at the end of that interval. *)
Lemma wait_ends_within_one_interval host n s t rest :
  _stop_requested s.1 = false →
  _stop_requested (apply_tick (windows host) 5 t s).1 = true →
  wait_loop host (S n) s (t :: rest)
    = Val tt (apply_tick (windows host) 5 t s) rest.
Proof.
  intros H0 H1. simpl. unfold bind at 1. unfold get_runner. rewrite H0.
  unfold mbind, M_bind. unfold bind at 1. simpl.
  destruct n; simpl; [done|]. unfold bind, get_runner. by rewrite H1.
Qed.

(** C4 at the failing input: one attempt allowed, a checkpoint file left in
    the folder, and [stop()] called during the first polling interval of the
    checkpoint wait.  The wait ends within that interval, and the run ends
    with status [failed] and "Max attempts reached", not with [stopped]. *)
Lemma C4_stop_in_final_wait_ends_failed :
  let R := run Scenario.posix Scenario.one_attempt
             (Scenario.folder_with [PIN_SPEC; CHECKPOINT_FILE])
             [[Op CmdStop]; []; []; []] in
  (∃ s, R = Val tt s [[]; []; []]) ∧
  _stop_requested (res_state R).1 = true ∧
  waits (res_state R).2 = [("checkpoint", 2)] ∧
  _status (res_state R).1 = failed ∧
  _error_message (res_state R).1 = Some "Max attempts reached".
Proof. vm_compute. split; [eexists; reflexivity|]. by repeat split. Qed.

(** The same stop request one attempt earlier ends the run with [stopped]. *)
Lemma stop_in_earlier_wait_ends_stopped :
  let R := run Scenario.posix Scenario.gui_params
             (Scenario.folder_with [PIN_SPEC; CHECKPOINT_FILE])
             [[Op CmdStop]; []; []; []] in
  (∃ s, R = Val tt s [[]; []; []]) ∧
  _status (res_state R).1 = stopped ∧
  _current_attempt (res_state R).1 = 2.
Proof. vm_compute. split; [eexists; reflexivity|]. by repeat split. Qed.

(** ** A retry scenario *)

(** Two failed invocations, then the done file: the run ends [completed] on
    attempt 3 after two backoff waits and three invocations. *)
Example retry_until_done :
  let R := run Scenario.posix (mkParams "/work" "some/model" 40 1 "INFO" None)
             (Scenario.folder_with [PIN_SPEC]) Scenario.two_failures_then_done in
  (∃ s, R = Val tt s []) ∧
  _status (res_state R).1 = completed ∧
  _current_attempt (res_state R).1 = 3 ∧
  invocations (res_state R).2 = 3%nat ∧
  waits (res_state R).2 = [("backoff", 1); ("backoff", 1)].
Proof. vm_compute. split; [eexists; reflexivity|]. by repeat split. Qed.

(** ** Terminal files left over from an earlier run *)

Lemma scaffold_plan_eq host s tr :
  _scaffold_plan_file host s tr =
    match scaffolded host PLAN_FILE (fs s.2) with
    | inl e => Raised e s tr
    | inr m => Val tt (s.1, set_fs m s.2) tr
    end.
Proof.
  destruct s as [r w]. unfold _scaffold_plan_file, scaffolded.
  unfold bind at 1. rewrite file_exists_eq. unfold exists_in; simpl.
  destruct (bool_decide _); [by rewrite set_fs_same|].
  unfold _read_template_file, bind.
  by destruct (read_template host PLAN_FILE).
Qed.

Lemma scaffold_progress_eq host s tr :
  _scaffold_progress_file host s tr =
    match scaffolded host PROGRESS_FILE (fs s.2) with
    | inl e => Raised e s tr
    | inr m => Val tt (s.1, set_fs m s.2) tr
    end.
Proof.
  destruct s as [r w]. unfold _scaffold_progress_file, scaffolded.
  unfold bind at 1. rewrite file_exists_eq. unfold exists_in; simpl.
  destruct (bool_decide _); [by rewrite set_fs_same|].
  unfold _read_template_file, bind.
  by destruct (read_template host PROGRESS_FILE).
Qed.

(** Start-up in closed form. *)
Lemma startup_eq host s tr :
  startup host s tr =
    if exists_in s.2 PIN_SPEC then
      match scaffolded host PLAN_FILE (fs s.2) with
      | inl e => Raised e s tr
      | inr m1 =>
          match scaffolded host PROGRESS_FILE m1 with
          | inl e => Raised e (s.1, set_fs m1 s.2) tr
          | inr m2 =>
              Val Fall (s.1, set_fs (delete BLOCKED_FILE (delete DONE_FILE m2))
                               s.2) tr
          end
      end
    else Val Return (set_error_message (Some "Missing RALPH-DESIGN.md")
                       (set_status failed s.1), s.2) tr.
Proof.
  destruct (exists_in s.2 PIN_SPEC) eqn:E; [|by apply startup_missing].
  unfold startup. unfold bind at 1. rewrite file_exists_eq, E. simpl.
  unfold mbind, M_bind. unfold bind at 1. rewrite scaffold_plan_eq.
  destruct (scaffolded host PLAN_FILE (fs s.2)) as [e|m1]; [done|].
  unfold bind at 1. rewrite scaffold_progress_eq. simpl.
  destruct (scaffolded host PROGRESS_FILE m1) as [e|m2]; [done|].
  unfold bind at 1. rewrite remove_file_eq.
  unfold bind at 1. by rewrite remove_file_eq.
Qed.

Lemma scaffolded_agree host f m m' :
  f ≠ DONE_FILE → f ≠ BLOCKED_FILE →
  agree_but_terminal m m' →
  match scaffolded host f m, scaffolded host f m' with
  | inl e, inl e' => e = e'
  | inr a, inr a' => agree_but_terminal a a'
  | _, _ => False
  end.
Proof.
  intros Hd Hb Ha. unfold scaffolded. rewrite (Ha f Hd Hb).
  destruct (bool_decide _); [done|].
  destruct (read_template host f) as [e|c]; [done|].
  intros g Hgd Hgb. destruct (decide (f = g)) as [->|Hne].
  - by rewrite !lookup_insert_eq.
  - rewrite !lookup_insert_ne by done. by apply Ha.
Qed.

Lemma delete_terminal_agree m m' :
  agree_but_terminal m m' →
  delete BLOCKED_FILE (delete DONE_FILE m') =
  delete BLOCKED_FILE (delete DONE_FILE m).
Proof.
  intros Ha. apply map_eq. intros g.
  destruct (decide (g = BLOCKED_FILE)) as [->|Hb];
    [by rewrite !lookup_delete_eq|].
  rewrite !(lookup_delete_ne _ BLOCKED_FILE) by done.
  destruct (decide (g = DONE_FILE)) as [->|Hd];
    [by rewrite !lookup_delete_eq|].
  rewrite !(lookup_delete_ne _ DONE_FILE) by done. by apply Ha.
Qed.

Lemma startup_same host r w w' tr s1 tr1 :
  same_but_terminal_files w w' →
  startup host (r, w) tr = Val Fall s1 tr1 →
  startup host (r, w') tr = Val Fall s1 tr1.
Proof.
  intros (Hp & Hn & Hi & Hw & Ha). rewrite !startup_eq. simpl.
  assert (exists_in w' PIN_SPEC = exists_in w PIN_SPEC) as ->
    by (unfold exists_in; by rewrite (Ha PIN_SPEC)).
  destruct (exists_in w PIN_SPEC); [|done].
  pose proof (scaffolded_agree host PLAN_FILE (fs w) (fs w')
                ltac:(done) ltac:(done) Ha) as H1.
  destruct (scaffolded host PLAN_FILE (fs w)) as [e|m1],
    (scaffolded host PLAN_FILE (fs w')) as [e'|m1']; try done.
  pose proof (scaffolded_agree host PROGRESS_FILE m1 m1'
                ltac:(done) ltac:(done) H1) as H2.
  destruct (scaffolded host PROGRESS_FILE m1) as [e|m2],
    (scaffolded host PROGRESS_FILE m1') as [e'|m2']; try done.
  intros [= <- <-]. do 2 f_equal.
  rewrite (delete_terminal_agree _ _ H2).
  destruct w, w'; simpl in *. by subst.
Qed.

(** C10.  When start-up succeeds, the done and blocked files are absent from
    the folder it hands to the first attempt, whatever the folder held
    before.  So the whole run is the same from any two folders that differ
    only in these two files, and, unless a pause was queued (during which the
    files can be created anew), the first attempt passes its done and
    blocked checks: it falls through to the checkpoint check, or it stops on
    a stop request. *)
Theorem C10_stale_terminal_files_removed host r w tr s1 tr1 :
  startup host (r, w) tr = Val Fall s1 tr1 →
  exists_in s1.2 DONE_FILE = false ∧
  exists_in s1.2 BLOCKED_FILE = false ∧
  (∀ w', same_but_terminal_files w w' →
         _run_loop host (r, w') tr = _run_loop host (r, w) tr) ∧
  (_pause_requested r = false →
   ∃ f s2,
     (pause_boundary host 1 >>> stop_check >>> terminal_check) s1 tr1
       = Val f s2 tr1 ∧
     fs s2.2 = fs s1.2 ∧
     ((f = Fall ∧ _status s2.1 = _status r) ∨
      (f = Return ∧ _status s2.1 = stopped))).
Proof.
  intros H.
  assert (s1.1 = r ∧ exists_in s1.2 DONE_FILE = false ∧
          exists_in s1.2 BLOCKED_FILE = false) as (Hr & Hd & Hb).
  { revert H. rewrite startup_eq. simpl.
    destruct (exists_in w PIN_SPEC); [|done].
    destruct (scaffolded host PLAN_FILE (fs w)) as [e|m1]; [done|].
    destruct (scaffolded host PROGRESS_FILE m1) as [e|m2]; [done|].
    intros [= <- <-]. simpl. split; [done|].
    unfold exists_in; simpl. split; apply bool_decide_eq_false_2; intros [x Hx].
    - by rewrite lookup_delete_ne, lookup_delete_eq in Hx.
    - by rewrite lookup_delete_eq in Hx. }
  split; [exact Hd|]. split; [exact Hb|]. split.
  - intros w' Hw'. unfold _run_loop, try_except.
    rewrite (andthen_fall _ _ _ _ _ _ H).
    by rewrite (andthen_fall _ _ _ _ _ _ (startup_same _ _ _ _ _ _ _ Hw' H)).
  - intros Hp. destruct s1 as [r1 w1]. simpl in *. subst r1.
    unfold andthen at 1. unfold bind at 1.
    unfold pause_boundary. unfold mbind, M_bind. unfold bind at 1 2.
    unfold modify at 1. unfold get_runner at 1. simpl. rewrite Hp.
    unfold ret at 1. unfold andthen at 1. unfold bind at 1.
    rewrite stop_check_eq. simpl.
    destruct (_stop_requested r || exists_in w1 STOP_FILE).
    + eexists _, _. split; [reflexivity|]. split; [done|]. by right.
    + rewrite terminal_check_eq. simpl. rewrite Hd, Hb.
      eexists _, _. split; [reflexivity|]. split; [done|]. by left.
Qed.

Lemma C10_witness :
  exists_in
    (res_state (startup Scenario.posix
       (Scenario.started Scenario.gui_params
          [DONE_FILE; BLOCKED_FILE; PIN_SPEC]) Scenario.agent_finishes)).2
    DONE_FILE = false ∧
  _run_loop Scenario.posix
    (Scenario.started Scenario.gui_params [PIN_SPEC]) Scenario.agent_finishes
  = _run_loop Scenario.posix
      (Scenario.started Scenario.gui_params [DONE_FILE; BLOCKED_FILE; PIN_SPEC])
      Scenario.agent_finishes.
Proof.
  destruct (C10_stale_terminal_files_removed Scenario.posix
              (Scenario.started Scenario.gui_params [PIN_SPEC]).1
              (Scenario.folder_with [DONE_FILE; BLOCKED_FILE; PIN_SPEC])
              Scenario.agent_finishes
              (res_state (startup Scenario.posix
                 (Scenario.started Scenario.gui_params
                    [DONE_FILE; BLOCKED_FILE; PIN_SPEC])
                 Scenario.agent_finishes))
              Scenario.agent_finishes) as (Hd & _ & Hrun & _).
  - vm_compute. reflexivity.
  - split; [exact Hd|].
    apply (Hrun (Scenario.folder_with [PIN_SPEC])).
    repeat split. intros f Hfd Hfb. unfold Scenario.folder_with; simpl.
    rewrite (lookup_insert_ne _ DONE_FILE) by done.
    by rewrite (lookup_insert_ne _ BLOCKED_FILE).
Defined.

(** * Further properties of the loop *)

(** ** Where a return from the loop body comes from *)

Lemma andthen_return (m k : M Flow) s tr s2 tr2 :
  (m >>> k) s tr = Val Return s2 tr2 →
  m s tr = Val Return s2 tr2 ∨
  ∃ s1 tr1, m s tr = Val Fall s1 tr1 ∧ k s1 tr1 = Val Return s2 tr2.
Proof.
  unfold andthen, bind. destruct (m s tr) as [[] s1 tr1| |]; try done.
  - intros H. right. by eexists _, _.
  - intros [= <- <-]. by left.
Qed.

Lemma pause_boundary_return host attempt s tr s2 tr2 :
  pause_boundary host attempt s tr = Val Return s2 tr2 →
  _status s2.1 = stopped.
Proof.
  unfold pause_boundary, pause_wait. unfold_m; simpl.
  destruct (_pause_requested s.1); [|done].
  match goal with |- context [pause_poll host tr ?s0] =>
    destruct (pause_poll host tr s0) as [[] s3 tr3| |]
  end; [|done..].
  destruct (_stop_requested s3.1); [|done]. by intros [= <- <-].
Qed.

Lemma checkpoint_step_no_return host s tr s2 tr2 :
  checkpoint_step host s tr ≠ Val Return s2 tr2.
Proof.
  rewrite checkpoint_step_eq. destruct (exists_in _ _); [|done].
  unfold mbind, M_bind, bind, ret.
  by destruct (_wait_with_state host _ _ _ tr) as [[] ? ?| |].
Qed.

Lemma invoke_step_no_return host s tr s2 tr2 :
  invoke_step host s tr ≠ Val Return s2 tr2.
Proof.
  unfold invoke_step. unfold bind at 1.
  destruct (_invoke_opencode host s tr) as [[] s1 tr1| |]; try done.
  unfold bind at 1. unfold get_runner.
  unfold mbind, M_bind, bind, ret.
  by destruct (_wait_with_state host _ _ _ tr1) as [[] ? ?| |].
Qed.

Lemma gate_return host s tr s2 tr2 :
  missing_checkpoint_gate host s tr = Val Return s2 tr2 →
  _status s2.1 = stopped ∧
  ∃ s1, decision_poll host tr (gate_entry s) = Val tt s1 tr2 ∧ s2.2 = s1.2.
Proof.
  rewrite gate_eq.
  destruct (decision_poll host tr (gate_entry s)) as [[] s1 tr1| |]; try done.
  destruct (_stop_requested s1.1).
  { intros [= <- <-]. split; [done|]. by exists s1. }
  destruct (bool_decide _).
  { intros [= <- <-]. split; [done|]. by exists s1. }
  unfold mbind, M_bind, bind, ret.
  by destruct (_wait_with_state host _ _ _ tr1) as [[] ? ?| |].
Qed.

Lemma exists_in_delete_eq w f :
  exists_in (set_fs (delete f (fs w)) w) f = false.
Proof. rewrite exists_in_delete. by rewrite bool_decide_eq_true_2. Qed.

Lemma exists_in_delete_ne w f g :
  f ≠ g → exists_in (set_fs (delete f (fs w)) w) g = exists_in w g.
Proof. intros. rewrite exists_in_delete. by rewrite bool_decide_eq_false_2. Qed.

Lemma terminal_check_return s tr s2 tr2 :
  terminal_check s tr = Val Return s2 tr2 →
  (_status s2.1 = completed ∧ exists_in s2.2 DONE_FILE = true ∨
   _status s2.1 = blocked ∧ exists_in s2.2 BLOCKED_FILE = true ∧
     exists_in s2.2 DONE_FILE = false) ∧
  exists_in s2.2 CHECKPOINT_FILE = false.
Proof.
  rewrite terminal_check_eq.
  destruct (exists_in s.2 DONE_FILE) eqn:Ed.
  { intros [= <- <-]. simpl. rewrite exists_in_delete_eq.
    rewrite exists_in_delete_ne by done. split; [by left|done]. }
  destruct (exists_in s.2 BLOCKED_FILE) eqn:Eb; [|done].
  intros [= <- <-]. simpl. rewrite exists_in_delete_eq.
  rewrite !exists_in_delete_ne by done. split; [by right|done].
Qed.

(** What the status says when the body returns from the loop. *)
Lemma body_return host attempt s tr s2 tr2 :
  body host attempt s tr = Val Return s2 tr2 →
  _status s2.1 = stopped ∨
  (_status s2.1 = completed ∧ exists_in s2.2 DONE_FILE = true ∧
   exists_in s2.2 CHECKPOINT_FILE = false) ∨
  (_status s2.1 = blocked ∧ exists_in s2.2 BLOCKED_FILE = true ∧
   exists_in s2.2 DONE_FILE = false ∧ exists_in s2.2 CHECKPOINT_FILE = false).
Proof.
  unfold body. intros H.
  apply andthen_return in H as [H|(s3 & tr3 & _ & H)];
    [left; by eapply pause_boundary_return|].
  apply andthen_return in H as [H|(s4 & tr4 & _ & H)].
  { left. revert H. rewrite stop_check_eq. destruct (_ || _); [|done].
    by intros [= <- <-]. }
  apply andthen_return in H as [H|(s5 & tr5 & _ & H)].
  { right. apply terminal_check_return in H. tauto. }
  apply andthen_return in H as [H|(s6 & tr6 & _ & H)];
    [by apply checkpoint_step_no_return in H|].
  apply andthen_return in H as [H|(s7 & tr7 & _ & H)];
    [by apply invoke_step_no_return in H|].
  apply andthen_return in H as [H|(s8 & tr8 & _ & H)].
  { right. apply terminal_check_return in H. tauto. }
  apply andthen_return in H as [H|(s9 & tr9 & _ & H)];
    [by apply checkpoint_step_no_return in H|].
  left. by apply gate_return in H as [H _].
Qed.

Lemma for_range_result host n attempt s tr f s2 tr2 :
  for_range host n attempt s tr = Val f s2 tr2 →
  (f = Fall ∧ (n = 0%nat → s2 = s)) ∨
  (f = Return ∧ ∃ a s1 tr1, body host a s1 tr1 = Val Return s2 tr2).
Proof.
  revert attempt s tr. induction n as [|n IH]; intros attempt s tr; simpl.
  - intros [= <- <- <-]. by left.
  - unfold bind at 1.
    destruct (body host attempt s tr) as [[] s1 tr1| |] eqn:E; try done.
    + intros H. apply IH in H as [[-> _]|[-> H]]; [by left|by right].
    + intros H. apply IH in H as [[-> _]|[-> H]]; [by left|by right].
    + intros [= <- <- <-]. right. split; [done|]. by eexists _, _, _.
Qed.

(** What [_run_loop] can end with. *)
Lemma run_loop_result host s tr :
  match _run_loop host s tr with
  | Val _ s2 tr2 =>
      _status s2.1 = failed ∨
      ∃ a s1 tr1, body host a s1 tr1 = Val Return s2 tr2
  | Raised _ _ _ => False
  | Parked _ => True
  end.
Proof.
  unfold _run_loop, try_except.
  destruct ((startup host >>> attempts_loop host >>> exhausted) s tr)
    as [f s2 tr2|e s2 tr2|s2] eqn:E; [| by left | done].
  revert E. unfold andthen at 1. unfold bind at 1. rewrite startup_eq.
  destruct (exists_in s.2 PIN_SPEC); [|intros [= <- <- <-]; by left].
  destruct (scaffolded host PLAN_FILE (fs s.2)) as [e|m1]; [done|].
  destruct (scaffolded host PROGRESS_FILE m1) as [e|m2]; [done|].
  unfold andthen at 1. unfold bind at 1. unfold attempts_loop at 1.
  unfold bind at 1. unfold get_runner at 1.
  match goal with |- context [for_range host ?n 1 ?s0 tr] =>
    destruct (for_range host n 1 s0 tr) as [f' s1 tr1| |] eqn:E
  end; [|done..].
  apply for_range_result in E as [[-> _]|[-> E]].
  - intros [= <- <- <-]. by left.
  - intros [= <- <- <-]. by right.
Qed.

(** X1.  The loop thread never ends with an exception, and whenever it
    returns the status is one of the four terminal values and the thread is
    no longer alive. *)
Theorem thread_returns_terminal host s tr :
  match thread_main host s tr with
  | Val _ s2 _ => terminal (_status s2.1) = true ∧ _thread s2.1 = Some false
  | Raised _ _ _ => False
  | Parked _ => True
  end.
Proof.
  unfold thread_main. unfold bind at 1.
  pose proof (run_loop_result host s tr) as H.
  destruct (_run_loop host s tr) as [f s2 tr2| |]; [|done..].
  simpl. split; [|done].
  destruct H as [->|(a & s1 & tr1 & H)]; [done|].
  apply body_return in H as [->|[(-> & _)|(-> & _)]]; done.
Qed.

(** X2.  When the loop ends with status [completed] the done file is in the
    folder, so the task's own test [is_complete] agrees; when it ends with
    status [blocked] the blocked file is there and the done file is not.  In
    both cases no checkpoint file is left. *)
Theorem terminal_status_backed_by_files host s tr f s2 tr2 :
  _run_loop host s tr = Val f s2 tr2 →
  (_status s2.1 = completed →
   Task.is_complete s2.2 = true ∧ exists_in s2.2 CHECKPOINT_FILE = false) ∧
  (_status s2.1 = blocked →
   Task.is_blocked s2.2 = true ∧ Task.is_complete s2.2 = false ∧
   exists_in s2.2 CHECKPOINT_FILE = false).
Proof.
  intros E. pose proof (run_loop_result host s tr) as H. rewrite E in H.
  destruct H as [H|(a & s1 & tr1 & H)]; [by rewrite H|].
  apply body_return in H as [H|[(H & ? & ?)|(H & ? & ? & ?)]];
    rewrite H; by split.
Qed.

Lemma terminal_status_backed_by_files_witness :
  let s2 := res_state (_run_loop Scenario.posix
              (Scenario.started Scenario.gui_params [PIN_SPEC])
              Scenario.agent_finishes) in
  _status s2.1 = completed ∧
  Task.is_complete s2.2 = true ∧ exists_in s2.2 CHECKPOINT_FILE = false.
Proof.
  intros s2.
  assert (_status s2.1 = completed) as Hs by (vm_compute; reflexivity).
  split; [exact Hs|].
  apply (terminal_status_backed_by_files Scenario.posix
           (Scenario.started Scenario.gui_params [PIN_SPEC])
           Scenario.agent_finishes Return s2 []); [|exact Hs].
  vm_compute. reflexivity.
Defined.

(** ** Attempts and invocations are counted *)

Lemma keeps_refl s : keeps 0 s s.
Proof. unfold keeps. repeat split; lia. Qed.

Lemma keeps_trans j k s1 s2 s3 :
  keeps j s1 s2 → keeps k s2 s3 → keeps (j + k) s1 s3.
Proof. unfold keeps. intros (? & ? & ?) (? & ? & ?). repeat split; try congruence; lia. Qed.

Lemma evolves_keeps s s' : evolves s s' → keeps 0 s s'.
Proof. intros []. unfold keeps. repeat split; try done; lia. Qed.

Lemma Keeps_ret {A} (a : A) : Keeps 0 (ret a).
Proof. intros s tr. apply keeps_refl. Qed.

Lemma Keeps_bind {A B} j k (m : M A) (f : A → M B) :
  Keeps j m → (∀ a, Keeps k (f a)) → Keeps (j + k) (bind m f).
Proof.
  intros Hm Hf s tr. unfold bind. specialize (Hm s tr).
  destruct (m s tr) as [a s1 tr1| |]; simpl in *.
  - eapply keeps_trans; [exact Hm | apply Hf].
  - replace (j + k)%nat with (j + k + 0)%nat by lia.
    eapply keeps_trans; [|apply keeps_refl].
    destruct Hm as (? & ? & ?). unfold keeps. repeat split; try done; lia.
  - destruct Hm as (? & ? & ?). unfold keeps. repeat split; try done; lia.
Qed.

Lemma Keeps_bind0 {A B} k (m : M A) (f : A → M B) :
  Keeps 0 m → (∀ a, Keeps k (f a)) → Keeps k (bind m f).
Proof. apply (Keeps_bind 0 k). Qed.

Lemma Keeps_seq0 {B} k (m : M unit) (f : M B) :
  Keeps 0 m → Keeps k f → Keeps k (m;; f).
Proof. intros Hm Hf. apply (Keeps_bind 0 k); [done|]. by intros _. Qed.

Lemma Keeps_andthen0 k (m f : M Flow) :
  Keeps 0 m → Keeps k f → Keeps k (m >>> f).
Proof.
  intros Hm Hf. apply (Keeps_bind 0 k); [done|].
  intros []; [done|..]; intros s tr; simpl;
    unfold keeps; repeat split; try done; lia.
Qed.

Lemma Keeps_andthen1 (m f : M Flow) :
  Keeps 1 m → Keeps 0 f → Keeps 1 (m >>> f).
Proof.
  intros Hm Hf. apply (Keeps_bind 1 0); [done|].
  intros []; [done|..]; apply Keeps_ret.
Qed.

Lemma Keeps_get_runner : Keeps 0 get_runner.
Proof. intros s tr. apply keeps_refl. Qed.

Lemma Keeps_get_world : Keeps 0 get_world.
Proof. intros s tr. apply keeps_refl. Qed.

Lemma Keeps_modify f :
  (∀ r, params (f r) = params r ∧ _current_attempt (f r) = _current_attempt r) →
  Keeps 0 (modify f).
Proof.
  intros Hf s tr. destruct (Hf s.1). unfold keeps; simpl.
  repeat split; try done; lia.
Qed.

Lemma Keeps_modify_world f :
  (∀ w, invocations (f w) = invocations w) → Keeps 0 (modify_world f).
Proof.
  intros Hf s tr. unfold keeps; simpl. rewrite Hf. repeat split; lia.
Qed.

Lemma Keeps_file_exists f : Keeps 0 (_file_exists f).
Proof. intros s tr. apply keeps_refl. Qed.

Lemma Keeps_remove_file f : Keeps 0 (_remove_file f).
Proof. intros s tr. rewrite remove_file_eq. unfold keeps; simpl. repeat split; lia. Qed.

Lemma Keeps_sleep host d : Keeps 0 (sleep host d).
Proof.
  intros s [|t tr]; simpl; [apply keeps_refl|].
  apply evolves_keeps, apply_tick_evolves.
Qed.

Lemma Keeps_wait_loop host n : Keeps 0 (wait_loop host n).
Proof. intros s tr. apply evolves_keeps, wait_loop_spec. Qed.

Lemma Keeps_wait_with_state host reason d : Keeps 0 (_wait_with_state host reason d).
Proof.
  unfold _wait_with_state, _set_waiting, _clear_waiting.
  apply Keeps_seq0; [|apply Keeps_seq0; [apply Keeps_wait_loop|]].
  - apply Keeps_bind0; [apply Keeps_get_world|]. intros w.
    apply Keeps_seq0; [by apply Keeps_modify | by apply Keeps_modify_world].
  - by apply Keeps_modify.
Qed.

Lemma Keeps_pause_wait host : Keeps 0 (pause_wait host).
Proof. intros s tr. apply evolves_keeps, pause_poll_evolves. Qed.

Lemma decision_poll_evolves host tr s :
  evolves s (res_state (decision_poll host tr s)).
Proof.
  revert s. induction tr as [|t tr IH]; intros s; simpl;
    destruct (_ && _); simpl; try apply evolves_refl.
  eapply evolves_trans; [apply apply_tick_evolves | apply IH].
Qed.

Lemma Keeps_decision_wait host : Keeps 0 (decision_wait host).
Proof. intros s tr. apply evolves_keeps, decision_poll_evolves. Qed.

Ltac keeps_now := unfold keeps; simpl; repeat split; try done; lia.

Lemma Keeps_poll_until_exit host : Keeps 0 (poll_until_exit host).
Proof.
  intros s tr. unfold poll_until_exit. revert s.
  induction tr as [|t tr IH]; intros s; simpl;
    (destruct (_current_process s.1) as [pid|]; [|keeps_now]);
    (destruct (poll pid s.2); [keeps_now|]);
    (destruct (_stop_requested s.1);
      [simpl; destruct (wait_timeout _ _); keeps_now|]).
  - keeps_now.
  - replace 0%nat with (0 + 0)%nat by done.
    eapply keeps_trans; [apply evolves_keeps, apply_tick_evolves | apply IH].
Qed.

Ltac keeps_step :=
  lazymatch goal with
  | |- Keeps _ (bind _ _) => apply Keeps_bind0; [|intros ?]
  | |- Keeps _ (mbind _ _) => apply Keeps_seq0
  | |- Keeps _ (if ?b then _ else _) => destruct b
  | |- Keeps _ (ret _) => apply Keeps_ret
  | |- Keeps _ (mret _) => apply Keeps_ret
  | |- Keeps _ get_runner => apply Keeps_get_runner
  | |- Keeps _ get_world => apply Keeps_get_world
  | |- Keeps _ (_file_exists _) => apply Keeps_file_exists
  | |- Keeps _ (_remove_file _) => apply Keeps_remove_file
  | |- Keeps _ (_wait_with_state _ _ _) => apply Keeps_wait_with_state
  | |- Keeps _ (pause_wait _) => apply Keeps_pause_wait
  | |- Keeps _ (decision_wait _) => apply Keeps_decision_wait
  | |- Keeps _ (modify _) => apply Keeps_modify; by intros
  end.

Lemma pause_boundary_unfold host attempt s tr :
  pause_boundary host attempt s tr
  = pause_rest host (set_current_attempt attempt s.1, s.2) tr.
Proof. reflexivity. Qed.

Lemma Keeps_pause_rest host : Keeps 0 (pause_rest host).
Proof. unfold pause_rest. repeat keeps_step. Qed.

Lemma Keeps_stop_check : Keeps 0 stop_check.
Proof. unfold stop_check. repeat keeps_step. Qed.

Lemma Keeps_terminal_check : Keeps 0 terminal_check.
Proof. unfold terminal_check. repeat keeps_step. Qed.

Lemma Keeps_checkpoint_step host : Keeps 0 (checkpoint_step host).
Proof. unfold checkpoint_step. repeat keeps_step. Qed.

Lemma Keeps_gate host : Keeps 0 (missing_checkpoint_gate host).
Proof. unfold missing_checkpoint_gate. repeat keeps_step. Qed.

Lemma Keeps_try_except {A} j k (m : M A) (h : Exn → M A) :
  Keeps j m → (∀ e, Keeps k (h e)) → Keeps (j + k) (try_except m h).
Proof.
  intros Hm Hh s tr. unfold try_except. specialize (Hm s tr).
  destruct (m s tr) as [a s1 tr1|e s1 tr1|s1]; simpl in *.
  - destruct Hm as (? & ? & ?). keeps_now.
  - eapply keeps_trans; [exact Hm | apply Hh].
  - destruct Hm as (? & ? & ?). keeps_now.
Qed.

Lemma Keeps_spawn host : Keeps 1 (spawn host).
Proof.
  intros [r w] tr. unfold spawn. unfold_m; simpl.
  destruct (popen host (invocations w)) as [e|[pid ign]]; keeps_now.
Qed.

Lemma Keeps_invoke_opencode host : Keeps 1 (_invoke_opencode host).
Proof.
  unfold _invoke_opencode. apply Keeps_bind0.
  { unfold _build_prompt, _read_template_file.
    destruct (read_template host _); [|apply Keeps_ret].
    intros s tr. apply keeps_refl. }
  intros _. apply (Keeps_try_except 1 0).
  - apply (Keeps_bind 1 0); [apply Keeps_spawn|].
    intros _. apply Keeps_poll_until_exit.
  - intros []; unfold invoke_handler; repeat keeps_step.
Qed.

Lemma Keeps_invoke_step host : Keeps 1 (invoke_step host).
Proof.
  unfold invoke_step. apply (Keeps_bind 1 0); [apply Keeps_invoke_opencode|].
  intros []; repeat keeps_step.
Qed.

(** One attempt: the counter shows the attempt's number and at most one
    invocation is started, whatever the outcome. *)
Lemma body_counters host attempt s tr :
  let s' := res_state (body host attempt s tr) in
  params s'.1 = params s.1 ∧ _current_attempt s'.1 = attempt ∧
  (invocations s.2 ≤ invocations s'.2 ≤ invocations s.2 + 1)%nat.
Proof.
  assert (Keeps 1 (pause_rest host >>> stop_check >>> terminal_check >>>
            checkpoint_step host >>> invoke_step host >>> terminal_check >>>
            checkpoint_step host >>> missing_checkpoint_gate host)) as HK.
  { apply Keeps_andthen0; [apply Keeps_pause_rest|].
    apply Keeps_andthen0; [apply Keeps_stop_check|].
    apply Keeps_andthen0; [apply Keeps_terminal_check|].
    apply Keeps_andthen0; [apply Keeps_checkpoint_step|].
    apply Keeps_andthen1; [apply Keeps_invoke_step|].
    apply Keeps_andthen0; [apply Keeps_terminal_check|].
    apply Keeps_andthen0; [apply Keeps_checkpoint_step|].
    apply Keeps_gate. }
  exact (HK (set_current_attempt attempt s.1, s.2) tr).
Qed.

Lemma for_range_S host n attempt s tr :
  for_range host (S n) attempt s tr =
    match body host attempt s tr with
    | Val Return s1 tr1 => Val Return s1 tr1
    | Val _ s1 tr1 => for_range host n (attempt + 1) s1 tr1
    | Raised e s1 tr1 => Raised e s1 tr1
    | Parked s1 => Parked s1
    end.
Proof.
  simpl. unfold bind. by destruct (body host attempt s tr) as [[] ? ?| |].
Qed.

Lemma for_range_counters host n attempt s tr :
  let s' := res_state (for_range host n attempt s tr) in
  params s'.1 = params s.1 ∧
  (n = 0%nat → s' = s) ∧
  ((0 < n)%nat →
   attempt ≤ _current_attempt s'.1 < attempt + Z.of_nat n ∧
   (invocations s.2 ≤ invocations s'.2)%nat ∧
   Z.of_nat (invocations s'.2)
     ≤ Z.of_nat (invocations s.2) + (_current_attempt s'.1 - attempt + 1)).
Proof.
  revert attempt s tr. induction n as [|n IH]; intros attempt s tr;
    [simpl; split; [done|split; [done|lia]]|].
  cbv zeta. rewrite for_range_S.
  pose proof (body_counters host attempt s tr) as (Hp & Ha & Hi).
  cbv zeta in Hp, Ha, Hi.
  destruct (body host attempt s tr) as [f s1 tr1| |]; simpl res_state in *;
    [|split; [done|split; [done|intros _; lia]]..].
  destruct (IH (attempt + 1) s1 tr1) as (Hp' & H0 & Hn). cbv zeta in *.
  assert (params (res_state (for_range host n (attempt + 1) s1 tr1)).1
            = params s.1 ∧
          (S n = 0%nat → res_state (for_range host n (attempt + 1) s1 tr1) = s) ∧
          ((0 < S n)%nat →
           attempt ≤ _current_attempt
                       (res_state (for_range host n (attempt + 1) s1 tr1)).1
             < attempt + Z.of_nat (S n) ∧
           (invocations s.2 ≤
              invocations (res_state (for_range host n (attempt + 1) s1 tr1)).2)%nat ∧
           Z.of_nat (invocations (res_state (for_range host n (attempt + 1) s1 tr1)).2)
             ≤ Z.of_nat (invocations s.2) +
               (_current_attempt
                  (res_state (for_range host n (attempt + 1) s1 tr1)).1
                - attempt + 1))) as Hnext.
  { split; [congruence|]. split; [done|]. intros _.
    destruct n as [|n]; [rewrite H0 by done; lia|].
    destruct Hn as (? & ? & ?); lia. }
  destruct f; [exact Hnext..|].
  simpl res_state. split; [done|]. split; [done|]. intros _. lia.
Qed.

Lemma attempts_loop_counted host s tr :
  counted s (res_state ((attempts_loop host >>> exhausted) s tr)).
Proof.
  unfold andthen. unfold bind at 1. unfold attempts_loop. unfold bind at 1.
  unfold get_runner at 1.
  pose proof (for_range_counters host (Z.to_nat (max_attempts (params s.1)))
                1 s tr) as (Hp & H0 & Hn). cbv zeta in *.
  assert (counted s (res_state (for_range host
            (Z.to_nat (max_attempts (params s.1))) 1 s tr))) as Hc.
  { destruct (Z.to_nat (max_attempts (params s.1))) as [|n] eqn:En.
    - left. by rewrite H0.
    - right. destruct Hn as (? & ? & ?); [lia|].
      split; [lia|]. split; [done|lia]. }
  destruct (for_range host _ 1 s tr) as [[] s1 tr1| |]; simpl in *; done.
Qed.

(** X3.  A runner that is constructed and started makes at most
    [max_attempts] attempts and starts at most one invocation per attempt:
    whatever happens, and wherever the thread is when the trace ends, the
    attempt counter is between 0 and [max_attempts] and the number of
    invocations started so far is at most the attempt counter. *)
Theorem attempts_and_invocations_bounded host p w tr :
  let s' := res_state (run host p w tr) in
  0 ≤ _current_attempt s'.1 ≤ Z.max 0 (max_attempts p) ∧
  (invocations w ≤ invocations s'.2)%nat ∧
  Z.of_nat (invocations s'.2)
    ≤ Z.of_nat (invocations w) + _current_attempt s'.1.
Proof.
  cbv zeta. unfold run, start. simpl.
  set (r0 := set_thread _ _).
  assert (counted (r0, w) (res_state (thread_main host (r0, w) tr))) as Hc.
  { unfold thread_main. unfold bind at 1.
    assert (counted (r0, w) (res_state (_run_loop host (r0, w) tr))) as Hc.
    { unfold _run_loop, try_except. unfold andthen at 1. unfold bind at 1.
      rewrite startup_eq. simpl.
      destruct (exists_in w PIN_SPEC); [|by left].
      destruct (scaffolded host PLAN_FILE (fs w)) as [e|m1]; [by left|].
      destruct (scaffolded host PROGRESS_FILE m1) as [e|m2]; [by left|].
      match goal with |- context [(attempts_loop host >>> exhausted) ?s0 tr] =>
        pose proof (attempts_loop_counted host s0 tr) as Hc;
        destruct ((attempts_loop host >>> exhausted) s0 tr) as [f s1 tr1| |]
      end; simpl in *; exact Hc. }
    destruct (_run_loop host (r0, w) tr) as [f s1 tr1| |]; simpl in *; exact Hc. }
  destruct Hc as [[Ha Hi]|(Ha & Hi & Hb)]; simpl in *.
  - rewrite Ha, Hi. lia.
  - lia.
Qed.

(** ** The pause at the loop boundary *)

Lemma pause_boundary_eq host attempt s tr :
  _pause_requested s.1 = true →
  pause_boundary host attempt s tr =
    match pause_poll host tr (pause_entry attempt s) with
    | Val _ s2 tr2 =>
        if _stop_requested s2.1
        then Val Return (set_status stopped s2.1, s2.2) tr2
        else Val Fall (set_status running s2.1, s2.2) tr2
    | Raised e s2 tr2 => Raised e s2 tr2
    | Parked s2 => Parked s2
    end.
Proof.
  destruct s as [r w]. simpl. intros Hp.
  unfold pause_boundary, pause_wait, pause_entry. unfold_m; simpl. rewrite Hp.
  destruct (pause_poll host tr _) as [[] s2 tr2| |]; try done.
  simpl. by destruct (_stop_requested s2.1).
Qed.

Lemma pause_quiet_action_sits win a s :
  pause_quiet_action a = true → sits_paused s →
  sits_paused (apply_action win a s).
Proof.
  intros Ha (H1 & H2 & H3 & H4). unfold sits_paused.
  destruct a as [[]| | | | |]; simpl in *; try done.
  unfold pause. by rewrite H1.
Qed.

Lemma pause_quiet_actions_sit win qa s :
  forallb pause_quiet_action qa = true → sits_paused s →
  sits_paused (foldl (fun s a => apply_action win a s) s qa).
Proof.
  revert s. induction qa as [|a qa IH]; intros s Hq Hs; simpl in *; [done|].
  apply andb_true_iff in Hq as [Ha Hq].
  apply IH; [done|]. by apply pause_quiet_action_sits.
Qed.

Lemma pause_quiet_tick_sits win d t s :
  pause_quiet t = true → sits_paused s → sits_paused (apply_tick win d t s).
Proof. intros Hq Hs. unfold apply_tick. by apply pause_quiet_actions_sit. Qed.

Lemma pause_poll_quiet host q rest s :
  forallb pause_quiet q = true → sits_paused s →
  ∃ s', pause_poll host (q ++ rest) s = pause_poll host rest s' ∧
        sits_paused s' ∧ evolves s s'.
Proof.
  revert s. induction q as [|t q IH]; intros s Hq Hs; simpl in *.
  - exists s. split; [done|]. split; [done|apply evolves_refl].
  - apply andb_true_iff in Hq as [Ht Hq].
    destruct Hs as (H1 & H2 & H3 & H4). rewrite H1, H2; simpl.
    destruct (IH (apply_tick (windows host) 5 t s) Hq) as (s' & E & Hs' & Hev).
    { by apply pause_quiet_tick_sits. }
    exists s'. split; [exact E|]. split; [exact Hs'|].
    eapply evolves_trans; [apply apply_tick_evolves|exact Hev].
Qed.

Lemma pause_poll_done host tr s :
  _is_paused s.1 && negb (_stop_requested s.1) = false →
  pause_poll host tr s = Val tt s tr.
Proof. intros H. destruct tr; simpl; by rewrite H. Qed.

(** X4.  When a pause has been queued, the next attempt starts by pausing:
    as long as nobody resumes or stops the runner (a further pause request is
    dropped) the thread stays blocked with status [paused] and nothing is
    invoked.  [resume] sets the status back to [running] with both pause
    flags cleared and the attempt goes on to its stop check; a stop request
    or [force_kill] ends the run with status [stopped]. *)
Theorem pause_boundary_parks_until_resumed host attempt s tr :
  _pause_requested s.1 = true →
  _stop_requested s.1 = false →
  ∀ q, forallb pause_quiet q = true →
    (tr = q →
     ∃ s2, pause_boundary host attempt s tr = Parked s2 ∧
           _status s2.1 = paused ∧ _is_paused s2.1 = true ∧
           _current_attempt s2.1 = attempt ∧
           invocations s2.2 = invocations s.2) ∧
    (∀ qa c rest,
       forallb pause_quiet_action qa = true →
       tr = q ++ (qa ++ [Op c]) :: rest →
       match c with
       | CmdResume =>
           ∃ s2, pause_boundary host attempt s tr = Val Fall s2 rest ∧
                 _status s2.1 = running ∧ _is_paused s2.1 = false ∧
                 _pause_requested s2.1 = false ∧
                 invocations s2.2 = invocations s.2
       | CmdStop | CmdForceKill =>
           ∃ s2, pause_boundary host attempt s tr = Val Return s2 rest ∧
                 _status s2.1 = stopped
       | _ => True
       end).
Proof.
  intros Hp Hstop q Hq. rewrite (pause_boundary_eq _ _ _ _ Hp).
  assert (sits_paused (pause_entry attempt s)) as Hs by done.
  split.
  - intros ->.
    destruct (pause_poll_quiet host q [] _ Hq Hs)
      as (s' & E & (H1 & H2 & H3 & H4) & Hev).
    rewrite app_nil_r in E. rewrite E. simpl. rewrite H1, H2. simpl.
    exists s'. split; [done|]. destruct Hev; simpl in *. by repeat split.
  - intros qa c rest Hqa ->.
    destruct (pause_poll_quiet host q ((qa ++ [Op c]) :: rest) _ Hq Hs)
      as (s' & E & Hs' & Hev).
    rewrite E. simpl. destruct Hs' as (H1 & H2 & H3 & H4).
    rewrite H1, H2. simpl.
    pose proof (apply_tick_evolves (windows host) 5 (qa ++ [Op c]) s') as Hev2.
    assert (∃ sm, apply_tick (windows host) 5 (qa ++ [Op c]) s'
                  = apply_command (windows host) c sm ∧ sits_paused sm)
      as (sm & Et & (M1 & M2 & M3 & M4)).
    { unfold apply_tick. rewrite foldl_app. simpl. eexists. split; [done|].
      by apply pause_quiet_actions_sit. }
    rewrite Et in *.
    pose proof (evolves_trans _ _ _ Hev Hev2) as [_ Pi _ _ _ _ _ _ _ _].
    simpl in Pi.
    destruct c; try done.
    + rewrite pause_poll_done by (simpl; apply andb_false_r). simpl.
      eexists. split; [done|done].
    + rewrite pause_poll_done by done. simpl. rewrite M2.
      eexists. split; [done|]. by repeat split.
    + rewrite pause_poll_done
        by (simpl; rewrite force_kill_stop_requested; apply andb_false_r).
      simpl. rewrite force_kill_stop_requested.
      eexists. split; [done|done].
Qed.

Lemma pause_boundary_parks_until_resumed_witness :
  ∃ s2,
    pause_boundary Scenario.posix 3
      (pause (Scenario.started Scenario.gui_params [PIN_SPEC]).1,
       (Scenario.started Scenario.gui_params [PIN_SPEC]).2)
      Scenario.paused_then_resumed = Val Fall s2 [[]] ∧
    _status s2.1 = running ∧ _is_paused s2.1 = false.
Proof.
  destruct (pause_boundary_parks_until_resumed Scenario.posix 3
              (pause (Scenario.started Scenario.gui_params [PIN_SPEC]).1,
               (Scenario.started Scenario.gui_params [PIN_SPEC]).2)
              Scenario.paused_then_resumed
              ltac:(reflexivity) ltac:(reflexivity)
              [[]; [Op CmdPause]] ltac:(reflexivity)) as [_ H].
  destruct (H [] CmdResume [[]] ltac:(reflexivity) ltac:(reflexivity))
    as (s2 & H1 & H2 & H3 & _).
  exists s2. by repeat split.
Defined.

(** ** A stop file left in the folder *)

Lemma scaffolded_keeps host f g m m' :
  scaffolded host f m = inr m' → is_Some (m !! g) → is_Some (m' !! g).
Proof.
  unfold scaffolded. destruct (bool_decide _); [by intros [= <-]|].
  destruct (read_template host f) as [e|c]; [done|]. intros [= <-] Hg.
  destruct (decide (f = g)) as [->|Hne].
  - rewrite lookup_insert_eq. by eexists.
  - by rewrite lookup_insert_ne.
Qed.

(** X5.  When the stop file is in the folder at start (and start-up
    succeeds, no pause is queued and at least one attempt is allowed) the
    run ends in attempt 1 with status [stopped] before anything is invoked
    or waited for; no tick of the trace is consumed, and the stop file is
    still there afterwards: neither start-up nor the stop check removes
    it. *)
Theorem stop_file_stops_first_attempt host s tr s0 tr0 :
  startup host s tr = Val Fall s0 tr0 →
  _pause_requested s.1 = false →
  exists_in s.2 STOP_FILE = true →
  0 < max_attempts (params s.1) →
  ∃ s2, _run_loop host s tr = Val Return s2 tr ∧
        _status s2.1 = stopped ∧ _current_attempt s2.1 = 1 ∧
        invocations s2.2 = invocations s.2 ∧ waits s2.2 = waits s.2 ∧
        exists_in s2.2 STOP_FILE = true.
Proof.
  intros H0 Hp Hstop Hmax.
  assert (s0.1 = s.1 ∧ tr0 = tr ∧ exists_in s0.2 STOP_FILE = true ∧
          invocations s0.2 = invocations s.2 ∧ waits s0.2 = waits s.2)
    as (Hr & -> & Hs0 & Hi & Hw).
  { revert H0. rewrite startup_eq.
    destruct (exists_in s.2 PIN_SPEC); [|done].
    destruct (scaffolded host PLAN_FILE (fs s.2)) as [e|m1] eqn:E1; [done|].
    destruct (scaffolded host PROGRESS_FILE m1) as [e|m2] eqn:E2; [done|].
    intros [= <- <-]. simpl. repeat split; try done.
    unfold exists_in in *. simpl. apply bool_decide_eq_true_2.
    apply bool_decide_eq_true_1 in Hstop.
    rewrite !lookup_delete_ne by done.
    eapply scaffolded_keeps; [exact E2|]. eapply scaffolded_keeps; eauto. }
  unfold _run_loop, try_except.
  rewrite (andthen_fall _ _ _ _ _ _ H0).
  unfold andthen at 1. unfold bind at 1. unfold attempts_loop. unfold bind at 1.
  unfold get_runner at 1. rewrite Hr.
  destruct (Z.to_nat (max_attempts (params s.1))) as [|n] eqn:En; [lia|].
  rewrite for_range_S. unfold body.
  assert (pause_boundary host 1 s0 tr
          = Val Fall (set_current_attempt 1 s0.1, s0.2) tr) as Hpb.
  { unfold pause_boundary. unfold_m; simpl. by rewrite Hr, Hp. }
  rewrite (andthen_fall _ _ _ _ _ _ Hpb).
  unfold andthen at 1. unfold bind at 1. rewrite stop_check_eq. simpl.
  rewrite Hs0, orb_true_r.
  eexists. split; [reflexivity|]. simpl. by repeat split.
Qed.

Lemma stop_file_stops_first_attempt_witness :
  ∃ s2, _run_loop Scenario.posix
          (Scenario.started Scenario.gui_params [PIN_SPEC; STOP_FILE])
          Scenario.agent_finishes = Val Return s2 Scenario.agent_finishes ∧
        _status s2.1 = stopped ∧ invocations s2.2 = 0%nat.
Proof.
  destruct (stop_file_stops_first_attempt Scenario.posix
              (Scenario.started Scenario.gui_params [PIN_SPEC; STOP_FILE])
              Scenario.agent_finishes
              (res_state (startup Scenario.posix
                 (Scenario.started Scenario.gui_params [PIN_SPEC; STOP_FILE])
                 Scenario.agent_finishes))
              Scenario.agent_finishes)
    as (s2 & H1 & H2 & _ & H3 & _).
  - vm_compute. reflexivity.
  - reflexivity.
  - vm_compute. reflexivity.
  - reflexivity.
  - exists s2. split; [exact H1|]. split; [exact H2|]. rewrite H3. reflexivity.
Defined.

(** ** One invocation of the agent *)

Lemma alter_is_Some (f : Proc → Proc) q pid (m : gmap nat Proc) :
  is_Some (m !! pid) → is_Some (alter f q m !! pid).
Proof.
  intros [p Hp]. destruct (decide (q = pid)) as [->|Hne].
  - rewrite lookup_alter_eq, Hp. by eexists.
  - rewrite lookup_alter_ne by done. by eexists.
Qed.

Lemma alter_not_running (f : Proc → Proc) q pid w :
  (∀ p, returncode p ≠ None → returncode (f p) ≠ None) →
  proc_running pid w = false →
  proc_running pid (set_procs (alter f q (procs w)) w) = false.
Proof.
  intros Hf. unfold proc_running; simpl.
  destruct (decide (q = pid)) as [->|Hne].
  - rewrite lookup_alter_eq. destruct (procs w !! pid) as [p|]; simpl; [|done].
    specialize (Hf p). destruct (returncode p); [|done]. intros _.
    destruct (returncode (f p)); [done|]. by destruct Hf.
  - by rewrite lookup_alter_ne.
Qed.

Lemma exit_with_stays rc p : returncode p ≠ None → returncode (exit_with rc p) ≠ None.
Proof. by destruct p as [[?|] ? ?]. Qed.

Lemma terminate_is_Some win q pid w :
  is_Some (procs w !! pid) → is_Some (procs (terminate win q w) !! pid).
Proof. apply alter_is_Some. Qed.

Lemma kill_is_Some win q pid w :
  is_Some (procs w !! pid) → is_Some (procs (kill win q w) !! pid).
Proof. apply alter_is_Some. Qed.

Lemma taskkill_is_Some q pid w :
  is_Some (procs w !! pid) → is_Some (procs (taskkill_tree q w) !! pid).
Proof.
  unfold taskkill_tree. destruct (proc_running q w); [apply alter_is_Some|done].
Qed.

(** After terminate, wait and the kill on time-out the process is gone. *)
Lemma stopped_child_not_running win pid w :
  let w1 := terminate win pid w in
  proc_running pid (if wait_timeout pid w1 then w1 else kill win pid w1) = false.
Proof.
  cbv zeta. unfold wait_timeout.
  destruct (proc_running pid (terminate win pid w)) eqn:E; simpl;
    [apply kill_not_running|done].
Qed.

Lemma force_kill_tracked win pid s :
  child_tracked pid s → child_tracked pid (force_kill win s).
Proof.
  destruct s as [r w]. intros [Hin [Hh|[Hh Hr]]]; unfold force_kill; simpl in *;
    rewrite Hh; simpl; [|split; [done|by right]].
  split.
  - destruct win; destruct (wait_timeout _ _);
      repeat first [apply kill_is_Some | apply taskkill_is_Some
                   | apply terminate_is_Some]; done.
  - right. split; [done|]. destruct win.
    + destruct (taskkill_tree_spec pid w) as [Hr _].
      unfold wait_timeout. by rewrite Hr.
    + apply stopped_child_not_running.
Qed.

Lemma apply_action_tracked win pid a s :
  child_tracked pid s → child_tracked pid (apply_action win a s).
Proof.
  intros Ht. destruct a as [[]| | | | |]; simpl; try done;
    try apply force_kill_tracked; try done.
  - unfold pause. by destruct (_is_paused s.1).
  - destruct Ht as [Hin [Hh|[Hh Hr]]]; (split; [by apply alter_is_Some|]);
      [by left|right; split; [done|]].
    apply alter_not_running; [apply exit_with_stays|done].
  - destruct Ht as [Hin [Hh|[Hh Hr]]]; (split; [by apply alter_is_Some|]);
      [by left|right; split; [done|]].
    by apply alter_not_running.
  - destruct Ht as [Hin [Hh|[Hh Hr]]]; (split; [by apply alter_is_Some|]);
      [by left|right; split; [done|]].
    by apply alter_not_running.
Qed.

Lemma apply_tick_tracked win d pid t s :
  child_tracked pid s → child_tracked pid (apply_tick win d t s).
Proof.
  intros Ht. unfold apply_tick.
  assert (child_tracked pid (s.1, set_now (now s.2 + d) s.2)) as Ht' by done.
  revert Ht'. generalize (s.1, set_now (now s.2 + d) s.2). clear.
  induction t as [|a t IH]; intros s Ht; simpl; [done|].
  apply IH. by apply apply_action_tracked.
Qed.

Lemma poll_loop_spec host pid tr s :
  child_tracked pid s →
  match poll_loop host tr s with
  | Val ok s2 tr2 =>
      proc_running pid s2.2 = false ∧
      (ok = true → poll pid s2.2 = Some 0 ∧ _current_process s2.1 = None)
  | Raised _ s2 _ =>
      _current_process s2.1 = None ∧ proc_running pid s2.2 = false
  | Parked s2 =>
      _current_process s2.1 = Some pid ∧ proc_running pid s2.2 = true ∧
      _stop_requested s2.1 = false
  end.
Proof.
  revert s. induction tr as [|t tr IH]; intros s [[p Hin] Hh]; simpl.
  - destruct Hh as [Hh|[Hh Hr]]; rewrite Hh; [|done].
    unfold poll, proc_running. rewrite Hin. simpl.
    destruct (returncode p) as [rc|] eqn:Erc; simpl.
    { rewrite Hin, Erc. split; [done|].
      intros H%bool_decide_eq_true_1. by subst. }
    destruct (_stop_requested s.1) eqn:Es; simpl.
    { split; [apply stopped_child_not_running|done]. }
    fold (proc_running pid s.2). unfold proc_running. by rewrite Hin, Erc.
  - destruct Hh as [Hh|[Hh Hr]]; rewrite Hh; [|done].
    unfold poll. rewrite Hin. simpl.
    destruct (returncode p) as [rc|] eqn:Erc; simpl.
    { unfold proc_running, poll. rewrite Hin, Erc. simpl. split; [done|].
      intros H%bool_decide_eq_true_1. by subst. }
    destruct (_stop_requested s.1) eqn:Es; simpl.
    { split; [apply stopped_child_not_running|done]. }
    apply IH. apply apply_tick_tracked. split; [by eexists|by left].
Qed.

(** X6.  [_invoke_opencode] raises only when the prompt template cannot be
    read, and then nothing has changed.  Otherwise it counts one invocation
    and, when it returns, no child of it is running: a launch failure returns
    [False] at once with the handle empty (and the message "opencode command
    not found" when the executable is missing); a launched child has exited,
    or was terminated on a stop request, or was killed by [force_kill]; the
    result is [True] only when the child exited with code 0, and then the
    handle is empty.  While the thread is still polling, the handle points to
    the running child. *)
Theorem invoke_leaves_no_running_child host s tr :
  match read_template host "RALPH-PROMPT.md" with
  | inl e => _invoke_opencode host s tr = Raised e s tr
  | inr _ =>
      match _invoke_opencode host s tr with
      | Raised _ _ _ => False
      | Val ok s2 tr2 =>
          invocations s2.2 = S (invocations s.2) ∧
          match popen host (invocations s.2) with
          | inl e =>
              ok = false ∧ tr2 = tr ∧ _current_process s2.1 = None ∧
              _error_message s2.1 =
                (if e is FileNotFoundError _
                 then Some "opencode command not found"
                 else _error_message s.1)
          | inr (pid, _) =>
              proc_running pid s2.2 = false ∧
              (ok = true → poll pid s2.2 = Some 0 ∧ _current_process s2.1 = None)
          end
      | Parked s2 =>
          invocations s2.2 = S (invocations s.2) ∧
          match popen host (invocations s.2) with
          | inl _ => False
          | inr (pid, _) =>
              _current_process s2.1 = Some pid ∧ proc_running pid s2.2 = true ∧
              _stop_requested s2.1 = false
          end
      end
  end.
Proof.
  destruct s as [r w].
  unfold _invoke_opencode, _build_prompt, _read_template_file.
  destruct (read_template host "RALPH-PROMPT.md") as [e|prompt]; [done|].
  unfold bind at 1. unfold ret at 1. unfold try_except.
  unfold mbind, M_bind. unfold bind at 1. unfold spawn.
  unfold bind at 1. unfold get_world at 1. simpl.
  unfold mbind, M_bind. unfold bind at 1. unfold modify_world at 1. simpl.
  destruct (popen host (invocations w)) as [e|[pid ign]].
  { unfold raise. destruct e; simpl; by repeat split. }
  unfold bind at 1. unfold modify_world at 1. unfold modify at 1. simpl.
  unfold poll_until_exit.
  match goal with |- context [poll_loop host tr ?s1] =>
    assert (child_tracked pid s1) as Ht
      by (split; [simpl; rewrite lookup_insert_eq; by eexists|by left]);
    pose proof (poll_loop_spec host pid tr s1 Ht) as Hspec;
    pose proof (Keeps_poll_until_exit host s1 tr) as (_ & _ & Hinv);
    unfold poll_until_exit in Hinv;
    destruct (poll_loop host tr s1) as [ok s2 tr2|e s2 tr2|s2]
  end; simpl in Hinv; simpl.
  - split; [lia|done].
  - destruct Hspec as [Hh Hr].
    destruct e; simpl; (split; [lia|]); by split.
  - split; [lia|done].
Qed.

(** ** How long a wait lasts *)

Lemma now_action win a s : now (apply_action win a s).2 = now s.2.
Proof.
  destruct a as [[]| | | | |]; simpl; try done.
  unfold force_kill. destruct (_current_process _); simpl; [|done].
  destruct win; [unfold taskkill_tree; destruct (proc_running _ _)|];
    by destruct (wait_timeout _ _).
Qed.

Lemma now_actions win t s :
  now (foldl (fun s a => apply_action win a s) s t).2 = now s.2.
Proof.
  revert s. induction t as [|a t IH]; intros s; simpl; [done|].
  by rewrite IH, now_action.
Qed.

Lemma now_tick win d t s : now (apply_tick win d t s).2 = now s.2 + d.
Proof. unfold apply_tick. by rewrite now_actions. Qed.

Lemma stop_actions_set win t s :
  forallb no_stop_action t = false →
  _stop_requested (foldl (fun s a => apply_action win a s) s t).1 = true.
Proof.
  revert s. induction t as [|a t IH]; intros s Hq; simpl in *; [done|].
  apply andb_false_iff in Hq as [Ha|Hq]; [|by apply IH].
  apply (ev_stop _ _ (foldl_actions_evolves win t (apply_action win a s))).
  destruct a as [[]| | | | |]; simpl in *; try done.
  apply force_kill_stop_requested.
Qed.

(** A polling interval with a stop request or a force kill in it leaves the
    stop request set. *)
Lemma stop_tick_sets win d t s :
  no_stop t = false → _stop_requested (apply_tick win d t s).1 = true.
Proof. intros Hq. unfold apply_tick. by apply stop_actions_set. Qed.

(** X7.  When no stop is requested, a wait lasts exactly the configured
    delay: it consumes two polling intervals of half a second per second of
    delay (none when the delay is zero or negative), then clears the wait
    descriptor; the wait is logged with its reason and delay. *)
Theorem wait_lasts_configured_delay host reason d s q rest :
  _stop_requested s.1 = false →
  length q = Z.to_nat (2 * d) →
  forallb no_stop q = true →
  ∃ s2, _wait_with_state host reason d s (q ++ rest) = Val tt s2 rest ∧
        now s2.2 = now s.2 + 10 * Z.max 0 d ∧
        _is_waiting s2.1 = false ∧ _waiting_since s2.1 = None ∧
        _stop_requested s2.1 = false ∧
        waits s2.2 = waits s.2 ++ [(reason, d)].
Proof.
  intros Hs Hlen Hq. destruct s as [r w].
  unfold _wait_with_state, _set_waiting, _clear_waiting. unfold_m; simpl.
  match goal with |- context [wait_loop host ?n ?s0 (q ++ rest)] =>
    destruct (wait_loop_quiet host n q rest s0) as (E & H1 & H2 & H3);
      [done|done|lia|]
  end.
  rewrite E, Hlen, Nat.sub_diag, wait_loop_0.
  eexists. split; [reflexivity|]. simpl in *.
  destruct H3; simpl in *. repeat split; try done.
  rewrite H2, Hlen. lia.
Qed.

Lemma wait_lasts_configured_delay_witness :
  ∃ s2, _wait_with_state Scenario.posix "backoff" 2
          (Scenario.started Scenario.gui_params [PIN_SPEC])
          ([[]; [Op CmdPause]; []; []] ++ [[Op CmdStop]])
        = Val tt s2 [[Op CmdStop]] ∧
        now s2.2 = 20.
Proof.
  destruct (wait_lasts_configured_delay Scenario.posix "backoff" 2
              (Scenario.started Scenario.gui_params [PIN_SPEC])
              [[]; [Op CmdPause]; []; []] [[Op CmdStop]])
    as (s2 & H1 & H2 & _); [reflexivity..|].
  exists s2. split; [exact H1|]. rewrite H2. reflexivity.
Defined.

(** X8.  A stop request or a force kill during a polling interval of a wait
    ends the wait at the end of that interval, whatever is left of the delay:
    the later intervals are not consumed, and the descriptor is cleared. *)
Theorem wait_cut_short_by_stop host reason d s q t rest :
  _stop_requested s.1 = false →
  (length q < Z.to_nat (2 * d))%nat →
  forallb no_stop q = true →
  no_stop t = false →
  ∃ s2, _wait_with_state host reason d s (q ++ t :: rest) = Val tt s2 rest ∧
        now s2.2 = now s.2 + 5 * (Z.of_nat (length q) + 1) ∧
        _stop_requested s2.1 = true ∧ _is_waiting s2.1 = false ∧
        waits s2.2 = waits s.2 ++ [(reason, d)].
Proof.
  intros Hs Hlen Hq Ht. destruct s as [r w].
  unfold _wait_with_state, _set_waiting, _clear_waiting. unfold_m; simpl.
  match goal with |- context [wait_loop host ?n ?s0 (q ++ t :: rest)] =>
    destruct (wait_loop_quiet host n q (t :: rest) s0) as (E & H1 & H2 & H3);
      [done|done|lia|]
  end.
  rewrite E.
  destruct (Z.to_nat (2 * d) - length q)%nat as [|n] eqn:En; [lia|].
  rewrite wait_ends_within_one_interval;
    [|done|by apply stop_tick_sets].
  eexists. split; [reflexivity|]. simpl.
  pose proof (apply_tick_evolves (windows host) 5 t
                (elapse (windows host) 5 q
                   (set_waiting_fields (Some (now w)) d reason
                      (set_is_waiting true r),
                    set_waits (waits w ++ [(reason, d)]) w))) as Hev.
  destruct (evolves_trans _ _ _ H3 Hev); simpl in *.
  rewrite now_tick, H2. simpl.
  repeat split; try done; [lia|by apply stop_tick_sets].
Qed.

Lemma wait_cut_short_by_stop_witness :
  ∃ s2, _wait_with_state Scenario.posix "checkpoint" 2
          (Scenario.started Scenario.gui_params [PIN_SPEC])
          ([[]] ++ [FsWrite DONE_FILE "x"; Op CmdStop] :: [[]; []])
        = Val tt s2 [[]; []] ∧
        now s2.2 = 10.
Proof.
  destruct (wait_cut_short_by_stop Scenario.posix "checkpoint" 2
              (Scenario.started Scenario.gui_params [PIN_SPEC])
              [[]] [FsWrite DONE_FILE "x"; Op CmdStop] [[]; []])
    as (s2 & H1 & H2 & _); [reflexivity|simpl; lia|reflexivity..|].
  exists s2. split; [exact H1|]. rewrite H2. reflexivity.
Defined.

(** ** What the GUI shows during a wait *)

Lemma since_action win a s :
  _waiting_since (apply_action win a s).1 = _waiting_since s.1.
Proof.
  destruct a as [[]| | | | |]; simpl; try done.
  - unfold pause. by destruct (_is_paused s.1).
  - unfold force_kill. by destruct (_current_process _).
Qed.

Lemma since_actions win t s :
  _waiting_since (foldl (fun s a => apply_action win a s) s t).1
    = _waiting_since s.1.
Proof.
  revert s. induction t as [|a t IH]; intros s; simpl; [done|].
  by rewrite IH, since_action.
Qed.

Lemma since_elapse win d q s :
  _waiting_since (elapse win d q s).1 = _waiting_since s.1.
Proof.
  revert s. induction q as [|t q IH]; intros s; simpl; [done|].
  rewrite IH. unfold apply_tick. by rewrite since_actions.
Qed.

(** X9.  While a wait is under way and no stop is requested, the task's
    waiting information counts down: after [k] polling intervals of a wait of
    [d] seconds it reads waiting, with the wait's reason and [d - k / 2]
    seconds remaining. *)
Theorem waiting_info_counts_down host reason d s q (t : Task.RunningTask) :
  _stop_requested s.1 = false →
  forallb no_stop q = true →
  (length q < Z.to_nat (2 * d))%nat →
  Task.attached t = true →
  ∃ s2, _wait_with_state host reason d s q = Parked s2 ∧
        Task.get_waiting_info t s2
          = (true, reason, d - Z.of_nat (length q) `div` 2) ∧
        0 < d - Z.of_nat (length q) `div` 2.
Proof.
  intros Hs Hq Hlen Ht. destruct s as [r w].
  unfold _wait_with_state, _set_waiting, _clear_waiting. unfold_m; simpl.
  match goal with |- context [wait_loop host ?n ?s0 q] =>
    destruct (wait_loop_quiet host n q [] s0) as (E & H1 & H2 & H3);
      [done|done|lia|];
    pose proof (since_elapse (windows host) 5 q s0) as Hsince
  end.
  rewrite app_nil_r in E. rewrite E.
  destruct (Z.to_nat (2 * d) - length q)%nat as [|n] eqn:En; [lia|].
  simpl. unfold bind at 1. unfold get_runner. rewrite H1.
  unfold mbind, M_bind, bind, sleep.
  eexists. split; [reflexivity|].
  assert (Z.of_nat (length q) `div` 2 < d) as Hlt.
  { apply Z.div_lt_upper_bound; lia. }
  split; [|lia].
  unfold Task.get_waiting_info, waiting_seconds_remaining. rewrite Ht.
  destruct H3 as [_ _ _ _ _ Hre Hdu _ _ Hw]. simpl in *.
  destruct Hw as [Hw|Hw]; [|congruence].
  rewrite Hw, Hre, Hdu, Hsince, H2.
  replace (now w + 5 * Z.of_nat (length q) - now w)
    with (5 * Z.of_nat (length q)) by lia.
  rewrite Z.quot_div_nonneg by lia.
  replace 10 with (5 * 2) by done. rewrite Z.div_mul_cancel_l by done.
  do 2 f_equal. lia.
Qed.

Lemma waiting_info_counts_down_witness :
  ∃ s2, _wait_with_state Scenario.posix "cooldown" 2
          (Scenario.started Scenario.gui_params [PIN_SPEC]) [[]; []; []]
        = Parked s2 ∧
        Task.get_waiting_info (Task.new "/work" "guid" true 0) s2
          = (true, "cooldown", 1).
Proof.
  destruct (waiting_info_counts_down Scenario.posix "cooldown" 2
              (Scenario.started Scenario.gui_params [PIN_SPEC]) [[]; []; []]
              (Task.new "/work" "guid" true 0))
    as (s2 & H1 & H2 & _); [reflexivity|reflexivity|simpl; lia|reflexivity|].
  exists s2. split; [exact H1|]. rewrite H2. reflexivity.
Defined.

(** ** The GUI's view of a finished run *)

Lemma run_loop_terminal host s tr f s2 tr2 :
  _run_loop host s tr = Val f s2 tr2 → terminal (_status s2.1) = true.
Proof.
  intros E. pose proof (run_loop_result host s tr) as H. rewrite E in H.
  destruct H as [->|(a & s1 & tr1 & H)]; [done|].
  apply body_return in H as [->|[(-> & _)|(-> & _)]]; done.
Qed.

Lemma terminal_status_listed st :
  terminal st = true →
  status_str st ∈ ["completed"; "blocked"; "stopped"; "failed"].
Proof. destruct st; try done; intros _; set_solver. Qed.

(** X10.  Once the loop thread of a task's runner has returned, the next
    pass of the GUI's status update takes the task off the running list: its
    status becomes "completed" when the done file is in the folder, else
    "blocked" when the blocked file is, else the runner's terminal status. *)
Theorem finished_task_leaves_list host s tr s2 tr2 (t : Task.RunningTask) :
  thread_main host s tr = Val tt s2 tr2 →
  Task.attached t = true →
  let t' := Task.update_status t s2 in
  Task.stays_listed t' = false ∧
  Task.status t' =
    (if Task.is_complete s2.2 then "completed"
     else if Task.is_blocked s2.2 then "blocked"
     else status_str (_status s2.1)) ∧
  Task.status t' ∈ ["completed"; "blocked"; "stopped"; "failed"].
Proof.
  intros E Ha.
  assert (terminal (_status s2.1) = true ∧ _thread s2.1 = Some false)
    as [Hterm Hth].
  { revert E. unfold thread_main. unfold bind at 1.
    destruct (_run_loop host s tr) as [f s1 tr1| |] eqn:E1; [|done..].
    intros [= <- <-]. simpl. split; [|done]. by eapply run_loop_terminal. }
  assert (Task.status (Task.update_status t s2) =
            (if Task.is_complete s2.2 then "completed"
             else if Task.is_blocked s2.2 then "blocked"
             else status_str (_status s2.1))) as Hst.
  { unfold Task.update_status, Task.is_runner_active, Task.get_runner_status.
    rewrite Ha, Hth. simpl. rewrite andb_true_r.
    destruct (Task.is_complete s2.2); [done|].
    destruct (Task.is_blocked s2.2); [done|].
    by rewrite bool_decide_eq_true_2 by by apply terminal_status_listed. }
  assert (Task.status (Task.update_status t s2)
            ∈ ["completed"; "blocked"; "stopped"; "failed"]) as Hin.
  { rewrite Hst. destruct (Task.is_complete s2.2); [set_solver|].
    destruct (Task.is_blocked s2.2); [set_solver|].
    by apply terminal_status_listed. }
  cbv zeta. split; [|by split].
  unfold Task.stays_listed. apply bool_decide_eq_false_2. intros Heq.
  rewrite Heq in Hin. revert Hin.
  by apply (bool_decide_eq_false_1
              ("running" ∈ ["completed"; "blocked"; "stopped"; "failed"])).
Qed.

Lemma finished_task_leaves_list_witness :
  let s2 := res_state (thread_main Scenario.posix
              (Scenario.started Scenario.gui_params [PIN_SPEC])
              Scenario.agent_finishes) in
  let t' := Task.update_status (Task.new "/work" "guid" true 0) s2 in
  Task.stays_listed t' = false ∧ Task.status t' = "completed".
Proof.
  intros s2 t'.
  destruct (finished_task_leaves_list Scenario.posix
              (Scenario.started Scenario.gui_params [PIN_SPEC])
              Scenario.agent_finishes s2 []
              (Task.new "/work" "guid" true 0)) as (H1 & H2 & _).
  - vm_compute. reflexivity.
  - reflexivity.
  - split; [exact H1|]. vm_compute. reflexivity.
Defined.

(** ** The elapsed time shown for a task *)

(** X11.  For a clock that has not gone back, with [e] the whole seconds
    since the task started: the elapsed time reads "Hh Mm Ss" from one hour
    on, "Mm Ss" from one minute on and "Ss" below, where the parts are the
    hours, the minutes below 60 and the seconds below 60 that add up to
    [e]. *)
Theorem elapsed_time_format clock (t : Task.RunningTask) :
  Task.start_time t ≤ clock →
  let e := (clock - Task.start_time t) `div` 10 in
  let h := e `div` 3600 in
  let m := (e `div` 60) `mod` 60 in
  let sec := e `mod` 60 in
  3600 * h + 60 * m + sec = e ∧ 0 ≤ m < 60 ∧ 0 ≤ sec < 60 ∧ 0 ≤ h ∧
  Task.get_elapsed_time clock t =
    if bool_decide (3600 ≤ e) then
      pretty h +:+ "h " +:+ pretty m +:+ "m " +:+ pretty sec +:+ "s"
    else if bool_decide (60 ≤ e) then pretty m +:+ "m " +:+ pretty sec +:+ "s"
    else pretty e +:+ "s".
Proof.
  intros Hc e h m sec.
  assert (0 ≤ e) as He by (apply Z.div_pos; lia).
  assert (h = (e `div` 60) `div` 60) as Hh
    by (unfold h; rewrite Z.div_div by lia; done).
  assert (0 ≤ e `div` 60) as Hq by (apply Z.div_pos; lia).
  assert (e = 60 * (e `div` 60) + sec) as E1 by (apply Z.div_mod; lia).
  assert (e `div` 60 = 60 * h + m) as E2
    by (rewrite Hh; apply Z.div_mod; lia).
  assert (0 ≤ m < 60) as Hm by (apply Z.mod_pos_bound; lia).
  assert (0 ≤ sec < 60) as Hs by (apply Z.mod_pos_bound; lia).
  assert (0 ≤ h) as Hh0 by (apply Z.div_pos; lia).
  split; [lia|]. split; [done|]. split; [done|]. split; [done|].
  unfold Task.get_elapsed_time.
  rewrite Z.quot_div_nonneg by lia. fold e. rewrite <- Hh. fold m sec.
  destruct (decide (3600 ≤ e)) as [H1|H1].
  - rewrite (bool_decide_eq_true_2 (3600 ≤ e)) by done.
    rewrite (bool_decide_eq_true_2 (0 < h)); [done|]. lia.
  - rewrite (bool_decide_eq_false_2 (3600 ≤ e)) by done.
    rewrite (bool_decide_eq_false_2 (0 < h)) by lia.
    destruct (decide (60 ≤ e)) as [H2|H2].
    + rewrite (bool_decide_eq_true_2 (60 ≤ e)) by done.
      rewrite (bool_decide_eq_true_2 (0 < m)); [done|]. lia.
    + rewrite (bool_decide_eq_false_2 (60 ≤ e)) by done.
      rewrite (bool_decide_eq_false_2 (0 < m)) by lia.
      replace sec with e by lia. done.
Qed.

Lemma elapsed_time_format_witness :
  Task.get_elapsed_time 37257 (Task.new "/work" "guid" true 0) = "1h 2m 5s".
Proof.
  destruct (elapsed_time_format 37257 (Task.new "/work" "guid" true 0))
    as (_ & _ & _ & _ & H); [simpl; lia|].
  rewrite H. vm_compute. reflexivity.
Defined.

(** A clock that has gone back five seconds: [divmod] rounds down, so the
    task shows 59 minutes and 55 seconds. *)
Example elapsed_time_clock_gone_back :
  Task.get_elapsed_time 950 (Task.new "/work" "guid" true 1000) = "59m 55s".
Proof. vm_compute. reflexivity. Qed.

(** ** The lists of recent folders and models *)

Lemma list_remove_sublist x l : Gui.list_remove x l `sublist_of` l.
Proof.
  induction l as [|y l IH]; simpl; [done|].
  case_bool_decide; [by apply sublist_cons | by apply sublist_skip].
Qed.

Lemma list_remove_NoDup_notin x l : NoDup l → x ∉ Gui.list_remove x l.
Proof.
  induction 1 as [|y l Hy Hl IH]; simpl; [by apply not_elem_of_nil|].
  case_bool_decide as E; [by subst|].
  rewrite not_elem_of_cons. split; [done|apply IH].
Qed.

Lemma list_remove_length x l :
  x ∈ l → S (length (Gui.list_remove x l)) = length l.
Proof.
  induction l as [|y l IH]; simpl; [by intros ?%elem_of_nil|].
  case_bool_decide as E; [done|].
  intros [?|?]%elem_of_cons; [done|]. simpl. by rewrite IH.
Qed.

Lemma list_remove_Permutation x l : x ∈ l → x :: Gui.list_remove x l ≡ₚ l.
Proof.
  induction l as [|y l IH]; simpl; [by intros ?%elem_of_nil|].
  case_bool_decide as E; [by subst|].
  intros [?|Hin]%elem_of_cons; [done|].
  rewrite Permutation_swap. by rewrite IH.
Qed.

(** Properties of "move to the front and keep the first [n]". *)
Lemma recent_spec n x l :
  (0 < n)%nat →
  let l' := if bool_decide (x ∈ l) then Gui.list_remove x l else l in
  let r := take n (x :: l') in
  r !! 0%nat = Some x ∧
  (length r ≤ n)%nat ∧
  tail r `sublist_of` l ∧
  (NoDup l → NoDup r) ∧
  (NoDup l → x ∈ l → (length l ≤ n)%nat → r ≡ₚ l) ∧
  take n (x :: (if bool_decide (x ∈ r) then Gui.list_remove x r else r)) = r.
Proof.
  intros Hn l' r. destruct n as [|n]; [lia|].
  assert (r = x :: take n l') as Hr by done.
  assert (l' `sublist_of` l) as Hsub.
  { unfold l'. case_bool_decide; [apply list_remove_sublist|done]. }
  split; [by rewrite Hr|]. split; [rewrite Hr; simpl; rewrite length_take; lia|].
  split; [rewrite Hr; simpl; etrans; [apply sublist_take|done]|].
  split; [|split].
  - intros Hnd. rewrite Hr. apply NoDup_cons. split.
    + intros Hin. apply (elem_of_sublist _ l') in Hin; [|apply sublist_take].
      revert Hin. unfold l'. case_bool_decide; [|done].
      by apply list_remove_NoDup_notin.
    + apply (sublist_NoDup _ l); [exact Hnd|].
      etrans; [apply sublist_take|done].
  - intros Hnd Hin Hlen. assert (l' = Gui.list_remove x l) as Hl'
      by (unfold l'; by rewrite bool_decide_eq_true_2).
    rewrite Hr, take_ge.
    + rewrite Hl'. by apply list_remove_Permutation.
    + pose proof (list_remove_length x l Hin). rewrite Hl'. lia.
  - rewrite (bool_decide_eq_true_2 (x ∈ r)) by (rewrite Hr; set_solver).
    rewrite Hr at 1. simpl. rewrite bool_decide_eq_true_2 by done.
    rewrite Hr. f_equal. rewrite take_take. f_equal. lia.
Qed.

(** X12.  Adding a folder to the recent folders (a model to the recent
    models) puts it first and keeps at most 5 (10) entries; the entries after
    it are earlier entries in their earlier order; a list without duplicates
    stays so; when the entry was already listed and the list was not over
    its limit nothing is lost; adding the same entry again changes nothing. *)
Theorem recent_lists_move_to_front x l :
  let f := Gui._add_to_recent_folders x l in
  let m := Gui._add_to_recent_models x l in
  (f !! 0%nat = Some x ∧ (length f ≤ 5)%nat ∧ tail f `sublist_of` l ∧
   (NoDup l → NoDup f) ∧
   (NoDup l → x ∈ l → (length l ≤ 5)%nat → f ≡ₚ l) ∧
   Gui._add_to_recent_folders x f = f) ∧
  (m !! 0%nat = Some x ∧ (length m ≤ 10)%nat ∧ tail m `sublist_of` l ∧
   (NoDup l → NoDup m) ∧
   (NoDup l → x ∈ l → (length l ≤ 10)%nat → m ≡ₚ l) ∧
   Gui._add_to_recent_models x m = m).
Proof.
  split; [apply (recent_spec 5 x l); lia | apply (recent_spec 10 x l); lia].
Qed.

(** Five folders, the fourth is used again: it moves to the front; a sixth
    folder pushes the oldest out. *)
Example recent_folders_examples :
  Gui._add_to_recent_folders "d" ["a"; "b"; "c"; "d"; "e"]
    = ["d"; "a"; "b"; "c"; "e"] ∧
  Gui._add_to_recent_folders "f" ["a"; "b"; "c"; "d"; "e"]
    = ["f"; "a"; "b"; "c"; "d"].
Proof. split; vm_compute; reflexivity. Qed.

Lemma recent_lists_move_to_front_witness :
  NoDup (Gui._add_to_recent_folders "d" ["a"; "b"; "c"; "d"; "e"]) ∧
  Gui._add_to_recent_folders "d" ["a"; "b"; "c"; "d"; "e"]
    ≡ₚ ["a"; "b"; "c"; "d"; "e"].
Proof.
  destruct (recent_lists_move_to_front "d" ["a"; "b"; "c"; "d"; "e"])
    as [(_ & _ & _ & Hnd & Hp & _) _].
  assert (NoDup ["a"; "b"; "c"; "d"; "e"]) as H
    by (apply (bool_decide_unpack _); vm_compute; exact I).
  split; [by apply Hnd|]. apply Hp; [done| |simpl; lia].
  apply (bool_decide_unpack _). vm_compute. exact I.
Defined.

(** ** The order of the model list *)

#[global] Instance str_le_total : Total Gui.str_le.
Proof. intros a b. apply String.leb_total. Qed.

(** X13.  The model list shows exactly the available models: the recently
    used ones that are available come first, in the order of recent use,
    followed by the others in ascending order.  When neither list has
    duplicates the result is a rearrangement of the available models. *)
Theorem sorted_models_spec (available recently : list string) :
  let result := Gui._get_sorted_models available recently in
  (∀ m, m ∈ result ↔ m ∈ available) ∧
  (∃ recent others,
     result = recent ++ others ∧
     recent `sublist_of` recently ∧
     (∀ m, m ∈ recent → m ∈ available) ∧
     (∀ m, m ∈ others → m ∉ recently) ∧
     Sorted Gui.str_le others) ∧
  (NoDup available → NoDup recently → result ≡ₚ available).
Proof.
  cbv zeta. unfold Gui._get_sorted_models. case_bool_decide as E.
  { subst. split; [done|]. split; [|done].
    exists [], []. split; [done|]. split; [apply sublist_nil_l|].
    split; [by intros ? ?%elem_of_nil|].
    split; [by intros ? ?%elem_of_nil|constructor]. }
  split; [|split].
  - intros m. rewrite elem_of_app, merge_sort_Permutation, !list_elem_of_filter.
    split; [tauto|]. intros Hm.
    destruct (decide (m ∈ recently)); [left|right]; done.
  - eexists _, _. split; [done|]. split; [apply sublist_filter|].
    split; [by intros m [? ?]%list_elem_of_filter|].
    split; [|apply (Sorted_merge_sort Gui.str_le)].
    intros m. rewrite merge_sort_Permutation.
    by intros [? ?]%list_elem_of_filter.
  - intros Ha Hr. rewrite merge_sort_Permutation.
    etrans; [|apply (filter_app_complement (fun m => m ∈ recently))].
    apply Permutation_app; [|done].
    apply NoDup_Permutation; [by apply NoDup_filter..|].
    intros m. rewrite !list_elem_of_filter. tauto.
Qed.

Lemma sorted_models_spec_witness :
  Gui._get_sorted_models ["m/zeta"; "m/beta"; "m/alpha"; "m/gamma"]
    ["m/gamma"; "m/gone"; "m/beta"]
  = ["m/gamma"; "m/beta"; "m/alpha"; "m/zeta"] ∧
  Gui._get_sorted_models ["m/zeta"; "m/beta"; "m/alpha"; "m/gamma"]
    ["m/gamma"; "m/gone"; "m/beta"]
  ≡ₚ ["m/zeta"; "m/beta"; "m/alpha"; "m/gamma"].
Proof.
  split; [vm_compute; reflexivity|].
  apply (sorted_models_spec ["m/zeta"; "m/beta"; "m/alpha"; "m/gamma"]
           ["m/gamma"; "m/gone"; "m/beta"]);
    apply (bool_decide_unpack _); vm_compute; exact I.
Defined.

(** ** The file steps of the GUI *)

Lemma remove_fold_lookup (l : list string) (m : gmap string string) f :
  foldl (fun m filename =>
           if bool_decide (is_Some (m !! filename)) then delete filename m
           else m) m l !! f
  = if bool_decide (f ∈ l) then None else m !! f.
Proof.
  revert m. induction l as [|g l IH]; intros m; [done|]. simpl.
  rewrite IH.
  assert ((if bool_decide (is_Some (m !! g)) then delete g m else m)
          = delete g m) as ->.
  { destruct (bool_decide (is_Some (m !! g))) eqn:E; [done|].
    by rewrite delete_absent. }
  destruct (decide (f = g)) as [->|Hne].
  - rewrite lookup_delete_eq.
    rewrite (bool_decide_eq_true_2 (g ∈ g :: l)) by by left.
    by destruct (bool_decide _).
  - rewrite lookup_delete_ne by done.
    destruct (decide (f ∈ l)) as [Hin|Hin].
    + rewrite (bool_decide_eq_true_2 (f ∈ l)) by done.
      by rewrite (bool_decide_eq_true_2 (f ∈ g :: l)) by by right.
    + rewrite (bool_decide_eq_false_2 (f ∈ l)) by done.
      rewrite (bool_decide_eq_false_2 (f ∈ g :: l)); [done|].
      by intros [?|?]%elem_of_cons.
Qed.

Lemma existing_inj f g : "existing_" +:+ f = "existing_" +:+ g → f = g.
Proof. intros H. by simplify_eq/=. Qed.

Lemma backup_fold_stays (target b : gmap string string) l f c :
  target !! f = Some c →
  b !! ("existing_" +:+ f) = Some c →
  foldl (fun b filename =>
           match target !! filename with
           | Some content => <["existing_" +:+ filename := content]> b
           | None => b
           end) b l !! ("existing_" +:+ f) = Some c.
Proof.
  intros Hf. revert b. induction l as [|g l IH]; intros b Hb; simpl; [done|].
  apply IH. destruct (target !! g) as [c'|] eqn:Eg; [|done].
  destruct (decide (g = f)) as [->|Hne].
  - rewrite lookup_insert_eq. congruence.
  - rewrite lookup_insert_ne; [done|]. by intros ?%existing_inj.
Qed.

Lemma backup_fold_saves (target b : gmap string string) l f c :
  f ∈ l → target !! f = Some c →
  foldl (fun b filename =>
           match target !! filename with
           | Some content => <["existing_" +:+ filename := content]> b
           | None => b
           end) b l !! ("existing_" +:+ f) = Some c.
Proof.
  intros Hin Hf. revert b. induction l as [|g l IH]; intros b; simpl;
    [by apply elem_of_nil in Hin|].
  destruct (decide (f = g)) as [<-|Hne].
  - rewrite Hf. apply backup_fold_stays; [done|]. by rewrite lookup_insert_eq.
  - apply IH. by apply elem_of_cons in Hin as [?|?].
Qed.

Lemma backup_fold_other (target b : gmap string string) l k :
  (∀ f, k ≠ "existing_" +:+ f) →
  foldl (fun b filename =>
           match target !! filename with
           | Some content => <["existing_" +:+ filename := content]> b
           | None => b
           end) b l !! k = b !! k.
Proof.
  intros Hk. revert b. induction l as [|g l IH]; intros b; simpl; [done|].
  rewrite IH. destruct (target !! g); [|done]. by rewrite lookup_insert_ne.
Qed.

(** X14.  [_remove_existing_files] deletes exactly the six Ralph files and
    leaves every other file of the folder as it is, and each file it deletes
    was saved before by [_create_backup] under the name "existing_" followed
    by its name, with the same content; the backup also holds the new design
    text under "RALPH-DESIGN.md". *)
Theorem removed_files_are_backed_up stamp target_folder guid design
    (target backup : gmap string string) :
  (∀ f, Gui._remove_existing_files target !! f
        = if bool_decide (f ∈ Gui.files_to_remove) then None else target !! f) ∧
  (∀ f c, target !! f = Some c →
          Gui._remove_existing_files target !! f = None →
          Gui._create_backup stamp target_folder guid design target backup
            !! ("existing_" +:+ f) = Some c) ∧
  Gui._create_backup stamp target_folder guid design target backup
    !! "RALPH-DESIGN.md" = Some design.
Proof.
  split; [|split].
  - intros f. apply remove_fold_lookup.
  - intros f c Hf. unfold Gui._remove_existing_files.
    rewrite remove_fold_lookup. case_bool_decide as Hin; [|congruence].
    intros _. unfold Gui._create_backup. by apply backup_fold_saves.
  - unfold Gui._create_backup. rewrite backup_fold_other.
    + by rewrite lookup_insert_eq.
    + intros f H. by simplify_eq/=.
Qed.

Lemma removed_files_are_backed_up_witness :
  Gui._create_backup "2026-01-01T00:00:00" "/work" "guid" "new design"
    {[ "RALPH-PLAN.md" := "old plan"; "notes.txt" := "mine" ]} ∅
    !! "existing_RALPH-PLAN.md" = Some "old plan" ∧
  Gui._remove_existing_files
    {[ "RALPH-PLAN.md" := "old plan"; "notes.txt" := "mine" ]}
    !! "notes.txt" = Some "mine".
Proof.
  destruct (removed_files_are_backed_up "2026-01-01T00:00:00" "/work" "guid"
              "new design"
              {[ "RALPH-PLAN.md" := "old plan"; "notes.txt" := "mine" ]} ∅)
    as (Hrm & Hbk & _).
  split.
  - apply (Hbk "RALPH-PLAN.md"); vm_compute; reflexivity.
  - rewrite Hrm. vm_compute. reflexivity.
Defined.

Lemma prepare_target_lookup design checked (script target : gmap string string) f :
  f ≠ "opencode.json" → f ≠ "RALPH-SPECS.md" →
  (Gui.prepare_target design checked script target).2 !! f
  = if bool_decide (f = "RALPH-DESIGN.md") then Some design
    else if bool_decide (f ∈ Gui.files_to_remove) then None
    else target !! f.
Proof.
  intros Ho Hs.
  assert (∀ m : gmap string string,
            (Gui._copy_opencode_json checked script m).2 !! f = m !! f) as Hco.
  { intros m. unfold Gui._copy_opencode_json.
    destruct checked; simpl; [|done].
    destruct (script !! "opencode.json"); [|done].
    destruct (m !! "opencode.json"); [done|]. simpl.
    by rewrite lookup_insert_ne. }
  assert (∀ m : gmap string string,
            Gui._copy_specs_file script m !! f = m !! f) as Hcs.
  { intros m. unfold Gui._copy_specs_file.
    destruct (script !! "RALPH-SPECS.md"); [|done].
    by rewrite lookup_insert_ne. }
  unfold Gui.prepare_target. rewrite Hco, Hcs. unfold Gui._create_design_file.
  destruct (decide (f = "RALPH-DESIGN.md")) as [->|Hne].
  - by rewrite lookup_insert_eq.
  - rewrite lookup_insert_ne by done.
    rewrite (bool_decide_eq_false_2 (f = "RALPH-DESIGN.md")) by done.
    apply remove_fold_lookup.
Qed.

(** X15.  A runner started in a folder that the GUI has just prepared (old
    Ralph files removed, design written, lookup table and [opencode.json]
    copied) always passes start-up when the two templates can be read: the
    folder then holds the entered design and fresh copies of the plan and
    progress templates, holds no done, blocked or checkpoint file, and the
    first attempt's done, blocked and checkpoint checks fall through to the
    invocation. *)
Theorem prepared_folder_starts_clean host design checked
    (script target : gmap string string) r w tr plan prog :
  read_template host PLAN_FILE = inr plan →
  read_template host PROGRESS_FILE = inr prog →
  fs w = (Gui.prepare_target design checked script target).2 →
  ∃ s0, startup host (r, w) tr = Val Fall s0 tr ∧ s0.1 = r ∧
        fs s0.2 !! PIN_SPEC = Some design ∧
        fs s0.2 !! PLAN_FILE = Some plan ∧
        fs s0.2 !! PROGRESS_FILE = Some prog ∧
        exists_in s0.2 DONE_FILE = false ∧
        exists_in s0.2 BLOCKED_FILE = false ∧
        exists_in s0.2 CHECKPOINT_FILE = false ∧
        (terminal_check >>> checkpoint_step host) s0 tr = Val Fall s0 tr.
Proof.
  intros Hplan Hprog Hfs.
  assert (∀ f, f ≠ "opencode.json" → f ≠ "RALPH-SPECS.md" →
            fs w !! f = if bool_decide (f = "RALPH-DESIGN.md") then Some design
                        else if bool_decide (f ∈ Gui.files_to_remove) then None
                        else target !! f) as Hl.
  { intros f ? ?. rewrite Hfs. by apply prepare_target_lookup. }
  assert (fs w !! PIN_SPEC = Some design) as Hd by (by rewrite Hl).
  assert (fs w !! PLAN_FILE = None) as Hp by (by rewrite Hl).
  assert (fs w !! PROGRESS_FILE = None) as Hg by (by rewrite Hl).
  assert (fs w !! DONE_FILE = None) as Hdone by (by rewrite Hl).
  assert (fs w !! BLOCKED_FILE = None) as Hblk by (by rewrite Hl).
  assert (fs w !! CHECKPOINT_FILE = None) as Hck by (by rewrite Hl).
  rewrite startup_eq. simpl.
  assert (exists_in w PIN_SPEC = true) as ->.
  { unfold exists_in. apply bool_decide_eq_true_2. rewrite Hd. by eexists. }
  unfold scaffolded.
  rewrite (bool_decide_eq_false_2 (is_Some (fs w !! PLAN_FILE)))
    by (rewrite Hp; by intros [? ?]).
  rewrite Hplan.
  rewrite (bool_decide_eq_false_2
             (is_Some (<[PLAN_FILE:=plan]> (fs w) !! PROGRESS_FILE)))
    by (rewrite lookup_insert_ne by done; rewrite Hg; by intros [? ?]).
  rewrite Hprog.
  set (m2 := <[PROGRESS_FILE:=prog]> (<[PLAN_FILE:=plan]> (fs w))).
  set (s0 := (r, set_fs (delete BLOCKED_FILE (delete DONE_FILE m2)) w)).
  exists s0. split; [reflexivity|]. split; [done|].
  assert (∀ f, f ≠ DONE_FILE → f ≠ BLOCKED_FILE → fs s0.2 !! f = m2 !! f) as Hk.
  { intros f ? ?. simpl. by rewrite !lookup_delete_ne. }
  split; [rewrite Hk by done; unfold m2; by rewrite !lookup_insert_ne|].
  split; [rewrite Hk by done; unfold m2;
          by rewrite lookup_insert_ne, lookup_insert_eq|].
  split; [rewrite Hk by done; unfold m2; by rewrite lookup_insert_eq|].
  assert (exists_in s0.2 DONE_FILE = false) as E1.
  { unfold exists_in. simpl. apply bool_decide_eq_false_2.
    rewrite lookup_delete_ne, lookup_delete_eq by done. by intros [? ?]. }
  assert (exists_in s0.2 BLOCKED_FILE = false) as E2.
  { unfold exists_in. simpl. apply bool_decide_eq_false_2.
    rewrite lookup_delete_eq. by intros [? ?]. }
  assert (exists_in s0.2 CHECKPOINT_FILE = false) as E3.
  { unfold exists_in. apply bool_decide_eq_false_2.
    rewrite Hk by done. unfold m2. rewrite !lookup_insert_ne by done.
    rewrite Hck. by intros [? ?]. }
  split; [exact E1|]. split; [exact E2|]. split; [exact E3|].
  unfold andthen, bind. rewrite terminal_check_eq, E1, E2.
  by rewrite checkpoint_step_eq, E3.
Qed.

Lemma prepared_folder_starts_clean_witness :
  ∃ s0, startup Scenario.posix
          (RalphLoopRunner Scenario.gui_params,
           set_fs (Gui.prepare_target "build a parser" true
                     {[ "opencode.json" := "{}" ]}
                     {[ DONE_FILE := "old"; CHECKPOINT_FILE := "old" ]}).2
             (Scenario.folder_with [])) [] = Val Fall s0 [] ∧
        fs s0.2 !! PIN_SPEC = Some "build a parser" ∧
        exists_in s0.2 CHECKPOINT_FILE = false.
Proof.
  destruct (prepared_folder_starts_clean Scenario.posix "build a parser" true
              {[ "opencode.json" := "{}" ]}
              {[ DONE_FILE := "old"; CHECKPOINT_FILE := "old" ]}
              (RalphLoopRunner Scenario.gui_params)
              (set_fs (Gui.prepare_target "build a parser" true
                     {[ "opencode.json" := "{}" ]}
                     {[ DONE_FILE := "old"; CHECKPOINT_FILE := "old" ]}).2
                 (Scenario.folder_with [])) [] "# Plan" "# Progress")
    as (s0 & H1 & _ & H2 & _ & _ & _ & _ & H3 & _); [reflexivity..|].
  exists s0. by repeat split.
Defined.

Lemma move_fold_lookup (l : list string) (t b : gmap string string) f :
  let tb := foldl (fun tb filename =>
                     match tb.1 !! filename with
                     | Some content =>
                         (delete filename tb.1, <[filename := content]> tb.2)
                     | None => tb
                     end) (t, b) l in
  tb.1 !! f = (if bool_decide (f ∈ l) then None else t !! f) ∧
  tb.2 !! f = (if bool_decide (f ∈ l)
               then match t !! f with Some c => Some c | None => b !! f end
               else b !! f).
Proof.
  revert t b. induction l as [|g l IH]; intros t b; [done|]. simpl.
  set (t1 := match t !! g with Some _ => delete g t | None => t end).
  set (b1 := match t !! g with Some c => <[g := c]> b | None => b end).
  assert (match t !! g with
          | Some content => (delete g t, <[g := content]> b)
          | None => (t, b)
          end = (t1, b1)) as -> by (unfold t1, b1; by destruct (t !! g)).
  destruct (IH t1 b1) as [H1 H2]. cbv zeta in *. rewrite H1, H2. clear H1 H2.
  assert (t1 !! g = None) as Ht1g.
  { unfold t1. destruct (t !! g) eqn:E; [apply lookup_delete_eq|done]. }
  assert (b1 !! g = match t !! g with Some c => Some c | None => b !! g end)
    as Hb1g.
  { unfold b1. destruct (t !! g); [apply lookup_insert_eq|done]. }
  destruct (decide (f = g)) as [->|Hne].
  - rewrite (bool_decide_eq_true_2 (g ∈ g :: l)) by by left.
    rewrite Ht1g, Hb1g. by destruct (bool_decide (g ∈ l)).
  - assert (t1 !! f = t !! f) as ->.
    { unfold t1. destruct (t !! g); [by rewrite lookup_delete_ne|done]. }
    assert (b1 !! f = b !! f) as ->.
    { unfold b1. destruct (t !! g); [by rewrite lookup_insert_ne|done]. }
    destruct (decide (f ∈ l)) as [Hin|Hin].
    + rewrite (bool_decide_eq_true_2 (f ∈ l)) by done.
      by rewrite (bool_decide_eq_true_2 (f ∈ g :: l)) by by right.
    + rewrite (bool_decide_eq_false_2 (f ∈ l)) by done.
      rewrite (bool_decide_eq_false_2 (f ∈ g :: l)); [done|].
      by intros [?|?]%elem_of_cons.
Qed.

(** X16.  [_move_files_to_backup] moves exactly the design, progress, done
    and plan files (and [opencode.json] when this run copied it): afterwards
    none of them is in the target folder, each one that was there is in the
    backup folder with its content (replacing a file of that name), and every
    other file of either folder is untouched; in particular the checkpoint,
    blocked and stop files stay in the target folder. *)
Theorem moved_files_keep_content copied (target backup : gmap string string) f :
  let tb := Gui._move_files_to_backup copied target backup in
  (f ∈ Gui.files_to_move copied →
   tb.1 !! f = None ∧
   tb.2 !! f = match target !! f with Some c => Some c | None => backup !! f end) ∧
  (f ∉ Gui.files_to_move copied →
   tb.1 !! f = target !! f ∧ tb.2 !! f = backup !! f) ∧
  tb.1 !! CHECKPOINT_FILE = target !! CHECKPOINT_FILE ∧
  tb.1 !! BLOCKED_FILE = target !! BLOCKED_FILE ∧
  tb.1 !! STOP_FILE = target !! STOP_FILE.
Proof.
  cbv zeta. unfold Gui._move_files_to_backup.
  assert (∀ g, g ∉ Gui.files_to_move copied →
            (foldl (fun tb filename =>
                      match tb.1 !! filename with
                      | Some content =>
                          (delete filename tb.1, <[filename := content]> tb.2)
                      | None => tb
                      end) (target, backup) (Gui.files_to_move copied)).1 !! g
            = target !! g ∧
            (foldl (fun tb filename =>
                      match tb.1 !! filename with
                      | Some content =>
                          (delete filename tb.1, <[filename := content]> tb.2)
                      | None => tb
                      end) (target, backup) (Gui.files_to_move copied)).2 !! g
            = backup !! g) as Hout.
  { intros g Hg.
    destruct (move_fold_lookup (Gui.files_to_move copied) target backup g)
      as [H1 H2]. cbv zeta in *.
    rewrite H1, H2. by rewrite !bool_decide_eq_false_2. }
  assert (∀ g, g ∈ ["RALPH-CHECKPOINT.md"; "RALPH-BLOCKED.md"; "RALPH-STOP"] →
               g ∉ Gui.files_to_move copied) as Hnot.
  { intros g Hg Hin. destruct copied; simpl in *;
      repeat (apply elem_of_cons in Hg as [->|Hg];
              [revert Hin; by apply (bool_decide_eq_false_1 _)|]);
      by apply elem_of_nil in Hg. }
  split; [|split; [exact (Hout f)|]].
  - intros Hin.
    destruct (move_fold_lookup (Gui.files_to_move copied) target backup f)
      as [H1 H2]. cbv zeta in *.
    rewrite H1, H2. by rewrite !bool_decide_eq_true_2.
  - split; [|split]; apply Hout, Hnot.
    + by left.
    + right. by left.
    + right. right. by left.
Qed.

Lemma moved_files_keep_content_witness :
  (Gui._move_files_to_backup false
     {[ DONE_FILE := "all done"; BLOCKED_FILE := "stuck" ]}
     {[ "RALPH-DESIGN.md" := "design" ]}).2 !! DONE_FILE = Some "all done" ∧
  (Gui._move_files_to_backup false
     {[ DONE_FILE := "all done"; BLOCKED_FILE := "stuck" ]}
     {[ "RALPH-DESIGN.md" := "design" ]}).1 !! DONE_FILE = None.
Proof.
  destruct (moved_files_keep_content false
              {[ DONE_FILE := "all done"; BLOCKED_FILE := "stuck" ]}
              {[ "RALPH-DESIGN.md" := "design" ]} DONE_FILE) as [H _].
  destruct H as [H1 H2].
  - apply (bool_decide_unpack _). vm_compute. exact I.
  - split; [rewrite H2; vm_compute; reflexivity|exact H1].
Defined.

(** X17.  An [opencode.json] that is already in the target folder is never
    overwritten: [_copy_opencode_json] then copies nothing and answers
    [False], and with that answer [_move_files_to_backup] leaves the file
    where it is, whatever the folder holds by then.  It answers [True] only
    when the box is ticked, the script directory has the file and the target
    folder had none, and then the target holds the script's copy. *)
Theorem own_opencode_json_is_kept checked (script target : gmap string string) :
  let r := Gui._copy_opencode_json checked script target in
  (is_Some (target !! "opencode.json") → r = (false, target)) ∧
  (r.1 = false →
   r.2 = target ∧
   ∀ later backup : gmap string string,
     (Gui._move_files_to_backup r.1 later backup).1 !! "opencode.json"
     = later !! "opencode.json") ∧
  (r.1 = true →
   checked = true ∧ target !! "opencode.json" = None ∧
   is_Some (script !! "opencode.json") ∧
   r.2 !! "opencode.json" = script !! "opencode.json" ∧
   ∀ f, f ≠ "opencode.json" → r.2 !! f = target !! f).
Proof.
  cbv zeta. unfold Gui._copy_opencode_json. split; [|split].
  - intros [c Hc]. destruct checked; simpl; [|done]. rewrite Hc.
    by destruct (script !! "opencode.json").
  - intros Hr.
    assert ((if negb checked then (false, target)
             else match script !! "opencode.json", target !! "opencode.json" with
                  | Some content, None =>
                      (true, <["opencode.json" := content]> target)
                  | _, _ => (false, target)
                  end) = (false, target)) as ->.
    { revert Hr. destruct checked; simpl; [|done].
      destruct (script !! "opencode.json"); [|done].
      by destruct (target !! "opencode.json"). }
    split; [done|]. intros later backup. simpl.
    destruct (move_fold_lookup (Gui.files_to_move false) later backup
                "opencode.json") as [H1 _]. cbv zeta in H1.
    unfold Gui._move_files_to_backup. rewrite H1.
    by rewrite bool_decide_eq_false_2 by by apply (bool_decide_eq_false_1 _).
  - destruct checked; simpl; [|done].
    destruct (script !! "opencode.json") as [c|]; [|done].
    destruct (target !! "opencode.json") eqn:Et; [done|]. simpl. intros _.
    split; [done|]. split; [done|]. split; [by eexists|].
    split; [apply lookup_insert_eq|]. intros f Hf.
    by rewrite lookup_insert_ne.
Qed.

Lemma own_opencode_json_is_kept_witness :
  Gui._copy_opencode_json true {[ "opencode.json" := "shipped" ]}
    {[ "opencode.json" := "mine" ]}
  = (false, {[ "opencode.json" := "mine" ]}).
Proof.
  apply (own_opencode_json_is_kept true {[ "opencode.json" := "shipped" ]}
           {[ "opencode.json" := "mine" ]}).
  rewrite lookup_singleton_eq. by eexists.
Defined.

(** ** A machine without the agent's executable *)

Lemma elapse_empty win d k s :
  elapse win d (replicate k []) s = (s.1, set_now (now s.2 + d * Z.of_nat k) s.2).
Proof.
  revert s. induction k as [|k IH]; intros [r w].
  - unfold elapse; simpl. rewrite Z.mul_0_r, Z.add_0_r. by destruct w.
  - change (elapse win d (replicate (S k) []) (r, w))
      with (elapse win d (replicate k []) (apply_tick win d [] (r, w))).
    rewrite IH, Nat2Z.inj_succ. unfold apply_tick, set_now; simpl.
    do 2 f_equal. lia.
Qed.

Lemma no_stop_replicate k : forallb no_stop (replicate k []) = true.
Proof. by induction k. Qed.

(** One attempt on such a machine, from an idle state, with nothing
    happening around it. *)
Lemma body_launch_failure host attempt s rest prompt :
  (∀ n, ∃ m, popen host n = inl (FileNotFoundError m)) →
  read_template host "RALPH-PROMPT.md" = inr prompt →
  idle s →
  ∃ s', body host attempt s
          (replicate (Z.to_nat (2 * sleep_seconds (params s.1))) [] ++ rest)
        = Val Continue s' rest ∧
        idle s' ∧ params s'.1 = params s.1 ∧ _current_attempt s'.1 = attempt ∧
        invocations s'.2 = S (invocations s.2) ∧
        waits s'.2 = waits s.2 ++ [("backoff", sleep_seconds (params s.1))] ∧
        _status s'.1 = _status s.1.
Proof.
  intros Hpopen Hprompt (Hp & Hs & Hstop & Hd & Hb & Hc).
  destruct s as [r w]. simpl in *.
  unfold body.
  assert (∀ tr, pause_boundary host attempt (r, w) tr
          = Val Fall (set_current_attempt attempt r, w) tr) as E1.
  { intros tr. unfold pause_boundary. unfold_m; simpl. by rewrite Hp. }
  rewrite (andthen_fall _ _ _ _ _ _ (E1 _)).
  assert (∀ tr, stop_check (set_current_attempt attempt r, w) tr
          = Val Fall (set_current_attempt attempt r, w) tr) as E2.
  { intros tr. rewrite stop_check_eq. simpl. by rewrite Hs, Hstop. }
  rewrite (andthen_fall _ _ _ _ _ _ (E2 _)).
  assert (∀ tr, terminal_check (set_current_attempt attempt r, w) tr
          = Val Fall (set_current_attempt attempt r, w) tr) as E3.
  { intros tr. rewrite terminal_check_eq. simpl. by rewrite Hd, Hb. }
  rewrite (andthen_fall _ _ _ _ _ _ (E3 _)).
  assert (∀ tr, checkpoint_step host (set_current_attempt attempt r, w) tr
          = Val Fall (set_current_attempt attempt r, w) tr) as E4.
  { intros tr. rewrite checkpoint_step_eq. simpl. by rewrite Hc. }
  rewrite (andthen_fall _ _ _ _ _ _ (E4 _)).
  destruct (Hpopen (invocations w)) as [msg Hm].
  unfold andthen at 1. unfold bind at 1. unfold invoke_step. unfold bind at 1.
  assert (∀ tr, _invoke_opencode host (set_current_attempt attempt r, w) tr
          = Val false
              (set_current_process None
                 (set_error_message (Some "opencode command not found")
                    (set_current_attempt attempt r)),
               set_invocations (S (invocations w)) w) tr) as E5.
  { intros tr.
    unfold _invoke_opencode, _build_prompt, _read_template_file, spawn.
    rewrite Hprompt. unfold_m; simpl. by rewrite Hm. }
  rewrite E5. unfold bind at 1. unfold get_runner at 1. simpl.
  unfold _wait_with_state, _set_waiting, _clear_waiting. unfold_m; simpl.
  match goal with |- context [wait_loop host ?n ?s0 _] =>
    destruct (wait_loop_quiet host n (replicate n []) rest s0)
      as (E & _ & _ & _);
      [done|apply no_stop_replicate|by rewrite length_replicate|]
  end.
  match type of E with ?l = _ =>
    match goal with |- context [wait_loop host ?n ?s0 ?t] =>
      change (wait_loop host n s0 t) with l
    end
  end.
  rewrite E. rewrite length_replicate, Nat.sub_diag, wait_loop_0.
  rewrite elapse_empty. simpl.
  eexists. split; [reflexivity|]. simpl. by repeat split.
Qed.

Lemma for_range_launch_failure host n attempt s rest prompt :
  (∀ n, ∃ m, popen host n = inl (FileNotFoundError m)) →
  read_template host "RALPH-PROMPT.md" = inr prompt →
  idle s →
  ∃ s', for_range host n attempt s
          (replicate (n * Z.to_nat (2 * sleep_seconds (params s.1))) [] ++ rest)
        = Val Fall s' rest ∧
        idle s' ∧ params s'.1 = params s.1 ∧
        ((0 < n)%nat → _current_attempt s'.1 = attempt + Z.of_nat n - 1) ∧
        invocations s'.2 = (invocations s.2 + n)%nat ∧
        waits s'.2
          = waits s.2 ++ replicate n ("backoff", sleep_seconds (params s.1)) ∧
        _status s'.1 = _status s.1.
Proof.
  intros Hpopen Hprompt. revert attempt s.
  induction n as [|n IH]; intros attempt s Hidle.
  - simpl. exists s. split; [done|]. split; [done|]. split; [done|].
    split; [lia|]. split; [lia|]. split; [by rewrite app_nil_r|done].
  - rewrite for_range_S.
    replace (S n * Z.to_nat (2 * sleep_seconds (params s.1)))%nat
      with (Z.to_nat (2 * sleep_seconds (params s.1))
            + n * Z.to_nat (2 * sleep_seconds (params s.1)))%nat by lia.
    rewrite replicate_add, <- app_assoc.
    destruct (body_launch_failure host attempt s
                (replicate (n * Z.to_nat (2 * sleep_seconds (params s.1))) []
                 ++ rest) prompt Hpopen Hprompt Hidle)
      as (s1 & E1 & Hidle1 & Hp1 & Ha1 & Hi1 & Hw1 & Hs1).
    rewrite E1. rewrite <- Hp1.
    destruct (IH (attempt + 1) s1 Hidle1)
      as (s' & E & Hidle' & Hp' & Ha' & Hi' & Hw' & Hs').
    rewrite E. exists s'. split; [done|]. split; [done|].
    split; [congruence|]. split; [|split; [lia|split; [|congruence]]].
    + intros _. destruct n as [|n]; [|rewrite Ha' by lia; lia].
      simpl in E. injection E as <-. lia.
    + rewrite Hw', Hw1, Hp1. simpl. by rewrite <- app_assoc.
Qed.

(** X18.  On a machine where the agent's executable cannot be found, a run
    that passes start-up in an idle folder and is left alone uses up all its
    attempts: each attempt starts one invocation that fails at launch and
    waits out one backoff, and the run ends with status [failed] and the
    message "Max attempts reached", which replaces the message
    "opencode command not found" of the failed launches. *)
Theorem missing_executable_exhausts_attempts host s s0 rest prompt :
  (∀ n, ∃ m, popen host n = inl (FileNotFoundError m)) →
  read_template host "RALPH-PROMPT.md" = inr prompt →
  let n := Z.to_nat (max_attempts (params s.1)) in
  let d := sleep_seconds (params s.1) in
  startup host s (replicate (n * Z.to_nat (2 * d)) [] ++ rest)
    = Val Fall s0 (replicate (n * Z.to_nat (2 * d)) [] ++ rest) →
  idle s0 →
  ∃ s2, _run_loop host s (replicate (n * Z.to_nat (2 * d)) [] ++ rest)
        = Val Fall s2 rest ∧
        _status s2.1 = failed ∧
        _error_message s2.1 = Some "Max attempts reached" ∧
        invocations s2.2 = (invocations s0.2 + n)%nat ∧
        waits s2.2 = waits s0.2 ++ replicate n ("backoff", d) ∧
        ((0 < n)%nat → _current_attempt s2.1 = max_attempts (params s.1)).
Proof.
  intros Hpopen Hprompt n d H0 Hidle.
  assert (params s0.1 = params s.1) as Hp.
  { revert H0. rewrite startup_eq.
    destruct (exists_in s.2 PIN_SPEC); [|done].
    destruct (scaffolded host PLAN_FILE (fs s.2)) as [e|m1]; [done|].
    destruct (scaffolded host PROGRESS_FILE m1) as [e|m2]; [done|].
    by intros [= <-]. }
  unfold _run_loop, try_except.
  rewrite (andthen_fall _ _ _ _ _ _ H0).
  unfold andthen at 1. unfold bind at 1. unfold attempts_loop. unfold bind at 1.
  unfold get_runner at 1.
  destruct (for_range_launch_failure host
              (Z.to_nat (max_attempts (params s0.1))) 1 s0 rest prompt
              Hpopen Hprompt Hidle)
    as (s' & E & _ & Hp' & Ha' & Hi' & Hw' & _).
  rewrite Hp in E, Ha', Hi', Hw'. fold n d in E, Ha', Hi', Hw'.
  rewrite Hp. fold n. rewrite E. simpl.
  eexists. split; [reflexivity|]. simpl.
  split; [done|]. split; [done|]. split; [done|]. split; [done|].
  intros Hn. rewrite Ha' by done. unfold n in *. lia.
Qed.

Lemma missing_executable_exhausts_attempts_witness :
  ∃ s2, _run_loop Scenario.no_executable
          (Scenario.started Scenario.three_attempts [PIN_SPEC])
          (replicate 6 [] ++ [[Op CmdStop]])
        = Val Fall s2 [[Op CmdStop]] ∧
        _error_message s2.1 = Some "Max attempts reached" ∧
        invocations s2.2 = 3%nat.
Proof.
  destruct (missing_executable_exhausts_attempts Scenario.no_executable
              (Scenario.started Scenario.three_attempts [PIN_SPEC])
              (res_state (startup Scenario.no_executable
                 (Scenario.started Scenario.three_attempts [PIN_SPEC]) []))
              [[Op CmdStop]] "Do the next item.")
    as (s2 & H1 & _ & H2 & H3 & _).
  - intros n. by eexists.
  - reflexivity.
  - vm_compute. reflexivity.
  - vm_compute. by repeat split.
  - exists s2. split; [exact H1|]. split; [exact H2|]. rewrite H3.
    vm_compute. reflexivity.
Defined.
